(** * Steam password rotation: a shallow embedding and its verified properties

    The development follows the Python sources:
    - [steam_client.py]: [SteamAuthenticator], [SteamWebClient],
      [SteamPasswordChanger];
    - [scheduler.py]: [PasswordChangeRecord], [PasswordHistory],
      [SteamPasswordScheduler];
    - [password_generator.py]: the guards of [PasswordGenerator].

    Python exceptions are values of [result]; the file system, the clock, the
    random source and the remote server are explicit inputs of the functions
    that use them; log lines and network requests are collected in a trace. *)

From Stdlib Require Import ZArith List String Ascii Bool Lia.
From stdpp Require Import base gmap strings list.
Import ListNotations.

Local Open Scope Z_scope.

(** ** Python exceptions and results *)

Inductive exn_class :=
| ValueError | TypeError | IndexError | KeyError | StructError
| BinasciiError | OSError | TimeoutError | JSONDecodeError | RuntimeError.

Record exn := mkExn { exn_cls : exn_class; exn_msg : string }.

Inductive result (A : Type) :=
| Ok (a : A)
| Raise (e : exn).
Arguments Ok {A} a.
Arguments Raise {A} e.

(** Sequencing: the first exception raised aborts what follows
    (stdpp's [x ← r; k] notation). *)
#[global] Instance result_ret : MRet result := fun A a => Ok a.
#[global] Instance result_bind : MBind result := fun A B k r =>
  match r with
  | Ok a => k a
  | Raise e => Raise e
  end.

Definition is_ok {A} (r : result A) : bool :=
  match r with Ok _ => true | Raise _ => false end.

(** ** Bytes, big-endian integers, [struct] *)

Module Bytes.

(** [n] bytes of [v], most significant first. *)
Fixpoint be_bytes (n : nat) (v : Z) : list Z :=
  match n with
  | O => []
  | S n' => be_bytes n' (v / 256) ++ [v mod 256]
  end.

(** The integer a byte string denotes, most significant byte first. *)
Definition be_int (bs : list Z) : Z :=
  fold_left (fun acc b => acc * 256 + b) bs 0.

(** [struct.pack(">Q", v)]: [struct.error] outside [0, 2^64). *)
Definition struct_pack_Q (v : Z) : result (list Z) :=
  if (0 <=? v) && (v <? 2 ^ 64) then Ok (be_bytes 8 v)
  else Raise (mkExn StructError "argument out of range").

(** [struct.unpack(">I", bs)[0]]: [struct.error] unless [bs] has 4 bytes. *)
Definition struct_unpack_I (bs : list Z) : result Z :=
  if (length bs =? 4)%nat then Ok (be_int bs)
  else Raise (mkExn StructError "unpack requires a buffer of 4 bytes").

(** [bs[-1]]. *)
Definition index_last (bs : list Z) : result Z :=
  match bs with
  | [] => Raise (mkExn IndexError "index out of range")
  | b :: bs' => Ok (List.last bs' b)
  end.

(** [bs[lo:lo+4]] for a non-negative [lo]. *)
Definition slice4 (lo : Z) (bs : list Z) : list Z :=
  take 4 (drop (Z.to_nat lo) bs).

End Bytes.

(** ** [hashlib.sha1] (FIPS 180-4) *)

Module Sha1.
Import Bytes.

Definition add32 (a b : Z) : Z := (a + b) mod 2 ^ 32.

Definition rotl32 (n : Z) (x : Z) : Z :=
  Z.lor (Z.shiftl x n mod 2 ^ 32) (Z.shiftr x (32 - n)).

Definition not32 (x : Z) : Z := Z.lxor x 0xFFFFFFFF.

Definition f (t : nat) (b c d : Z) : Z :=
  if (t <? 20)%nat then Z.lor (Z.land b c) (Z.land (not32 b) d)
  else if (t <? 40)%nat then Z.lxor (Z.lxor b c) d
  else if (t <? 60)%nat then
    Z.lor (Z.lor (Z.land b c) (Z.land b d)) (Z.land c d)
  else Z.lxor (Z.lxor b c) d.

Definition K (t : nat) : Z :=
  if (t <? 20)%nat then 0x5A827999
  else if (t <? 40)%nat then 0x6ED9EBA1
  else if (t <? 60)%nat then 0x8F1BBCDC
  else 0xCA62C1D6.

Definition state : Type := Z * Z * Z * Z * Z.

Definition H0 : state :=
  (0x67452301, 0xEFCDAB89, 0x98BADCFE, 0x10325476, 0xC3D2E1F0).

(** One round; [w] is the sliding window W[t .. t+15] of the schedule. *)
Definition round (st : state * list Z) (t : nat) : state * list Z :=
  let '((a, b, c, d, e), w) := st in
  let temp :=
    add32 (add32 (add32 (add32 (rotl32 5 a) (f t b c d)) e) (K t)) (nth 0 w 0) in
  let wnew :=
    rotl32 1 (Z.lxor (Z.lxor (Z.lxor (nth 13 w 0) (nth 8 w 0)) (nth 2 w 0))
                     (nth 0 w 0)) in
  ((temp, a, rotl32 30 b, c, d), tl w ++ [wnew]).

Fixpoint words (n : nat) (bs : list Z) : list Z :=
  match n with
  | O => []
  | S n' => be_int (take 4 bs) :: words n' (drop 4 bs)
  end.

Definition compress (h : state) (block : list Z) : state :=
  let '(h0, h1, h2, h3, h4) := h in
  let '((a, b, c, d, e), _) :=
    fold_left round (seq 0 80) (h, words 16 block) in
  (add32 h0 a, add32 h1 b, add32 h2 c, add32 h3 d, add32 h4 e).

Definition pad (msg : list Z) : list Z :=
  let l := length msg in
  let k := ((119 - l mod 64) mod 64)%nat in
  msg ++ [0x80] ++ repeat 0 k ++ be_bytes 8 (8 * Z.of_nat l).

Fixpoint blocks (n : nat) (bs : list Z) (h : state) : state :=
  match n with
  | O => h
  | S n' => blocks n' (drop 64 bs) (compress h (take 64 bs))
  end.

Definition digest_of (h : state) : list Z :=
  let '(h0, h1, h2, h3, h4) := h in
  be_bytes 4 h0 ++ be_bytes 4 h1 ++ be_bytes 4 h2 ++ be_bytes 4 h3
    ++ be_bytes 4 h4.

Definition sha1 (msg : list Z) : list Z :=
  let p := pad msg in
  digest_of (blocks (length p / 64) p H0).

End Sha1.

(** ** [hashlib.sha256] (FIPS 180-4) and [hexdigest] *)

Module Sha256.
Import Bytes.

Definition add32 := Sha1.add32.
Definition rotr32 (n : Z) (x : Z) : Z := Sha1.rotl32 (32 - n) x.

Definition Ch (x y z : Z) : Z :=
  Z.lxor (Z.land x y) (Z.land (Sha1.not32 x) z).
Definition Maj (x y z : Z) : Z :=
  Z.lxor (Z.lxor (Z.land x y) (Z.land x z)) (Z.land y z).
Definition Sigma0 (x : Z) : Z :=
  Z.lxor (Z.lxor (rotr32 2 x) (rotr32 13 x)) (rotr32 22 x).
Definition Sigma1 (x : Z) : Z :=
  Z.lxor (Z.lxor (rotr32 6 x) (rotr32 11 x)) (rotr32 25 x).
Definition sigma0 (x : Z) : Z :=
  Z.lxor (Z.lxor (rotr32 7 x) (rotr32 18 x)) (Z.shiftr x 3).
Definition sigma1 (x : Z) : Z :=
  Z.lxor (Z.lxor (rotr32 17 x) (rotr32 19 x)) (Z.shiftr x 10).

(** The largest [r] below [2 ^ bits] on top of [r0] whose [e]-th power does
    not exceed [n], found bit by bit. *)
Fixpoint iroot (e : Z) (bits : nat) (n r0 : Z) : Z :=
  match bits with
  | O => r0
  | S b =>
      let r1 := r0 + 2 ^ Z.of_nat b in
      if r1 ^ e <=? n then iroot e b n r1 else iroot e b n r0
  end.

(** The first 32 bits of the fractional part of the [e]-th root of [p]. *)
Definition root_fraction (e : Z) (p : Z) : Z :=
  iroot e 36 (p * 2 ^ (32 * e)) 0 mod 2 ^ 32.

Definition primes : list Z :=
  [2; 3; 5; 7; 11; 13; 17; 19; 23; 29; 31; 37; 41; 43; 47; 53;
   59; 61; 67; 71; 73; 79; 83; 89; 97; 101; 103; 107; 109; 113; 127; 131;
   137; 139; 149; 151; 157; 163; 167; 173; 179; 181; 191; 193; 197; 199;
   211; 223; 227; 229; 233; 239; 241; 251; 257; 263; 269; 271; 277; 281;
   283; 293; 307; 311].

(** The round constants: cube roots of the first 64 primes. *)
Definition K : list Z := map (root_fraction 3) primes.

Definition state : Type := Z * Z * Z * Z * Z * Z * Z * Z.

(** The initial hash value: square roots of the first 8 primes. *)
Definition H0 : state :=
  (root_fraction 2 2, root_fraction 2 3, root_fraction 2 5,
   root_fraction 2 7, root_fraction 2 11, root_fraction 2 13,
   root_fraction 2 17, root_fraction 2 19).

Definition round (st : state * list Z) (k : Z) : state * list Z :=
  let '((a, b, c, d, e, f, g, h), w) := st in
  let t1 :=
    add32 (add32 (add32 (add32 h (Sigma1 e)) (Ch e f g)) k) (nth 0 w 0) in
  let t2 := add32 (Sigma0 a) (Maj a b c) in
  let wnew :=
    add32 (add32 (add32 (sigma1 (nth 14 w 0)) (nth 9 w 0))
                 (sigma0 (nth 1 w 0))) (nth 0 w 0) in
  ((add32 t1 t2, a, b, c, add32 d t1, e, f, g), tl w ++ [wnew]).

Definition compress (hs : state) (block : list Z) : state :=
  let '(h0, h1, h2, h3, h4, h5, h6, h7) := hs in
  let '((a, b, c, d, e, f, g, h), _) :=
    fold_left round K (hs, Sha1.words 16 block) in
  (add32 h0 a, add32 h1 b, add32 h2 c, add32 h3 d,
   add32 h4 e, add32 h5 f, add32 h6 g, add32 h7 h).

Fixpoint blocks (n : nat) (bs : list Z) (h : state) : state :=
  match n with
  | O => h
  | S n' => blocks n' (drop 64 bs) (compress h (take 64 bs))
  end.

Definition digest_of (hs : state) : list Z :=
  let '(h0, h1, h2, h3, h4, h5, h6, h7) := hs in
  be_bytes 4 h0 ++ be_bytes 4 h1 ++ be_bytes 4 h2 ++ be_bytes 4 h3
    ++ be_bytes 4 h4 ++ be_bytes 4 h5 ++ be_bytes 4 h6 ++ be_bytes 4 h7.

Definition sha256 (msg : list Z) : list Z :=
  let p := Sha1.pad msg in
  digest_of (blocks (length p / 64) p H0).

Definition hex_char (d : Z) : ascii :=
  ascii_of_nat (Z.to_nat (if d <? 10 then 48 + d else 87 + d)).

(** [.hexdigest()]: two lowercase hexadecimal characters per byte. *)
Definition hexdigest (bs : list Z) : string :=
  string_of_list_ascii
    (flat_map (fun b => [hex_char (b / 16); hex_char (b mod 16)]) bs).

End Sha256.

(** A Python [str] is kept as the text of its UTF-8 encoding. *)
Definition encode_utf8 (s : string) : list Z :=
  map (fun c => Z.of_nat (nat_of_ascii c)) (list_ascii_of_string s).

(** ** [hmac.new(key, msg, hashlib.sha1).digest()] (RFC 2104) *)

Module Hmac.

Definition block_size : nat := 64.

Definition hmac_sha1 (key msg : list Z) : list Z :=
  let key1 := if (block_size <? length key)%nat then Sha1.sha1 key else key in
  let key2 := key1 ++ repeat 0 (block_size - length key1) in
  let ipad := map (Z.lxor 0x36) key2 in
  let opad := map (Z.lxor 0x5C) key2 in
  Sha1.sha1 (opad ++ Sha1.sha1 (ipad ++ msg)).

End Hmac.

(** ** Decimal text of integers: [str(n)] and the format spec [05d] *)

Module PyFormat.

Definition digit_char (d : Z) : ascii := ascii_of_nat (48 + Z.to_nat d).

(** Digits of a non-negative [n], least significant produced first and
    consed in front of [acc]; [fuel] bounds the number of digits. *)
Fixpoint digits_loop (fuel : nat) (n : Z) (acc : list ascii) : list ascii :=
  match fuel with
  | O => acc
  | S fuel' =>
      let acc' := digit_char (n mod 10) :: acc in
      if n <? 10 then acc' else digits_loop fuel' (n / 10) acc'
  end.

Definition digits (n : Z) : list ascii :=
  digits_loop (S (Z.to_nat (Z.log2 n))) n [].

Definition sign_chars (n : Z) : list ascii :=
  if n <? 0 then ["-"%char] else [].

(** [str(n)]. *)
Definition str_int (n : Z) : string :=
  string_of_list_ascii (sign_chars n ++ digits (Z.abs n)).

(** [f"{n:05d}"]: sign first, then zeros up to a total width of 5, then the
    digits; nothing is cut when the text is wider. *)
Definition format_05d (n : Z) : string :=
  let ds := digits (Z.abs n) in
  let sg := sign_chars n in
  string_of_list_ascii
    (sg ++ repeat "0"%char (5 - length sg - length ds) ++ ds).

Definition is_digit (c : ascii) : bool :=
  let k := nat_of_ascii c in (48 <=? k)%nat && (k <=? 57)%nat.

End PyFormat.

(** ** [base64.b64decode(s)] with its defaults ([validate=False]) *)

Module Base64.

Definition code (c : ascii) : Z := Z.of_nat (nat_of_ascii c).

(** [table_a2b_base64]: the value of an alphabet character. *)
Definition b64_value (c : ascii) : option Z :=
  let n := code c in
  if (65 <=? n) && (n <=? 90) then Some (n - 65)
  else if (97 <=? n) && (n <=? 122) then Some (n - 71)
  else if (48 <=? n) && (n <=? 57) then Some (n + 4)
  else if n =? 43 then Some 62
  else if n =? 47 then Some 63
  else None.

Definition pad_char : ascii := "="%char.

(** The decoding loop of [binascii.a2b_base64] in its lenient mode:
    characters outside the alphabet are skipped, a complete pad sequence
    ends the input, a dangling quad is an error. *)
Fixpoint a2b_loop (s : list ascii) (quad_pos : nat) (leftchar : Z)
    (pads : nat) (out : list Z) : result (list Z) :=
  match s with
  | [] =>
      match quad_pos with
      | O => Ok out
      | 1%nat =>
          Raise (mkExn BinasciiError
            ("Invalid base64-encoded string: number of data characters ("
             +:+ PyFormat.str_int (Z.of_nat (length out) / 3 * 4 + 1)
             +:+ ") cannot be 1 more than a multiple of 4"))
      | _ => Raise (mkExn BinasciiError "Incorrect padding")
      end
  | c :: s' =>
      if Ascii.eqb c pad_char then
        if (2 <=? quad_pos)%nat then
          if (4 <=? quad_pos + S pads)%nat then Ok out
          else a2b_loop s' quad_pos leftchar (S pads) out
        else a2b_loop s' quad_pos leftchar pads out
      else
        match b64_value c with
        | None => a2b_loop s' quad_pos leftchar pads out
        | Some v =>
            match quad_pos with
            | O => a2b_loop s' 1 v 0 out
            | 1%nat =>
                a2b_loop s' 2 (Z.land v 0x0F) 0
                  (out ++ [Z.lor (Z.shiftl leftchar 2) (Z.shiftr v 4)])
            | 2%nat =>
                a2b_loop s' 3 (Z.land v 0x03) 0
                  (out ++ [Z.lor (Z.shiftl leftchar 4) (Z.shiftr v 2)])
            | _ =>
                a2b_loop s' 0 0 0 (out ++ [Z.lor (Z.shiftl leftchar 6) v])
            end
        end
  end.

Definition a2b_base64 (s : list ascii) : result (list Z) :=
  a2b_loop s 0 0 0 [].

Definition is_ascii (c : ascii) : bool := code c <? 128.

(** A [str] argument is first encoded as ASCII. *)
Definition b64decode (s : string) : result (list Z) :=
  let cs := list_ascii_of_string s in
  if forallb is_ascii cs then a2b_base64 cs
  else Raise (mkExn ValueError
                "string argument should contain only ASCII characters").

End Base64.

(** ** [steam_client.SteamAuthenticator] *)

Module SteamAuthenticator.
Import Bytes.

(** [generate_auth_code(self, timestamp=None)]; [now] is what
    [int(time.time())] returns when no timestamp is given. *)
Definition generate_auth_code (now : Z) (shared_secret : string)
    (timestamp : option Z) : result string :=
  let timestamp := match timestamp with None => now | Some t => t end in
  let time_buffer := timestamp / 30 in
  match Base64.b64decode shared_secret with
  | Raise e =>
      Raise (mkExn ValueError
               ("Неверный формат shared_secret: " +:+ exn_msg e))
  | Ok secret_bytes =>
      time_bytes ← struct_pack_Q time_buffer;
      let hmac_digest := Hmac.hmac_sha1 secret_bytes time_bytes in
      last_byte ← index_last hmac_digest;
      let offset := Z.land last_byte 0x0F in
      let code_bytes := slice4 offset hmac_digest in
      word ← struct_unpack_I code_bytes;
      let code_int := Z.land word 0x7FFFFFFF in
      let auth_code := code_int mod 1000000 in
      Ok (PyFormat.format_05d auth_code)
  end.

End SteamAuthenticator.

(** ** Effects: state, exceptions and an observable trace *)

Inductive log_level := INFO | WARNING | ERROR.

(** Which logger writes: [SteamPasswordScheduler.logger], the module logger
    of [steam_client], or the root logger ([logging.error]). *)
Inductive logger := SchedulerLog | ClientLog | RootLog.

(** A network request, with the form data that depends on the caller (the
    constant fields and the cache-buster of the login form are left out). *)
Inductive request :=
| GetRsaKey (username : string)
| DoLogin (username password twofactorcode rsatimestamp : string)
| GetTransfer (url : string)
| GetChangePage
| SubmitChange (sessionid oldpassword newpassword csrf_token : string).

Inductive event :=
| Log (who : logger) (level : log_level) (msg : string)
| Request (r : request)
| SessionOpened
| SessionClosed.

(** A computation over a state [S]: it ends with a value or an exception,
    in a new state, having produced a trace (oldest event first). *)
Definition M (S A : Type) : Type := S -> result A * S * list event.

#[global] Instance M_ret {S} : MRet (M S) := fun A a s => (Ok a, s, []).
#[global] Instance M_bind {S} : MBind (M S) := fun A B k m s =>
  match m s with
  | (Ok a, s1, t1) => let '(r, s2, t2) := k a s1 in (r, s2, t1 ++ t2)
  | (Raise e, s1, t1) => (Raise e, s1, t1)
  end.

Definition get {S} : M S S := fun s => (Ok s, s, []).
Definition put {S} (s : S) : M S unit := fun _ => (Ok tt, s, []).
Definition emit {S} (ev : event) : M S unit := fun s => (Ok tt, s, [ev]).
Definition raise {S A} (e : exn) : M S A := fun s => (Raise e, s, []).
Definition lift_result {S A} (r : result A) : M S A := fun s => (r, s, []).

(** [try: m except Exception as e: h e]; what [m] did to the state before
    raising stays done. *)
Definition try_except {S A} (m : M S A) (h : exn -> M S A) : M S A := fun s =>
  match m s with
  | (Ok a, s1, t1) => (Ok a, s1, t1)
  | (Raise e, s1, t1) => let '(r, s2, t2) := h e s1 in (r, s2, t1 ++ t2)
  end.

(** Run a computation on a part of the state. *)
Definition zoom {S T A} (proj : S -> T) (upd : T -> S -> S) (m : M T A)
  : M S A := fun s =>
  let '(r, t', tr) := m (proj s) in (r, upd t' s, tr).

(** An awaited network call: the request is sent and the reply, or the
    transport exception, comes back. *)
Definition http {S A} (r : request) (reply : result A) : M S A := fun s =>
  (reply, s, [Request r]).

Definition requests (tr : list event) : list request :=
  flat_map (fun ev => match ev with Request r => [r] | _ => [] end) tr.

Definition session_opened (tr : list event) : bool :=
  existsb (fun ev => match ev with SessionOpened => true | _ => false end) tr.

(** Python truthiness of [Optional[str]]: [None] and the empty string are
    false. *)
Definition truthy_str (o : option string) : bool :=
  match o with
  | Some s => negb (String.eqb s EmptyString)
  | None => false
  end.

(** ** Files *)

Inductive file_state (A : Type) :=
| NoFile                  (* the path does not exist *)
| Unreadable (e : exn)    (* it exists; [open] raises [e] *)
| Garbled                 (* it opens; its text is not the JSON of a value *)
| Content (a : A).        (* it opens and parses to [a] *)
Arguments NoFile {A}.
Arguments Unreadable {A} e.
Arguments Garbled {A}.
Arguments Content {A} a.

(** How the next [open(path, 'w')] followed by [json.dump] goes. *)
Inductive write_outcome :=
| WriteOk
| OpenFails (e : exn)     (* [open] raises: the file is untouched *)
| DumpFails (e : exn).    (* truncated by [open], then the write raises *)

Definition write_file {A} (w : write_outcome) (new : A) (old : file_state A)
  : result unit * file_state A :=
  match w with
  | WriteOk => (Ok tt, Content new)
  | OpenFails e => (Raise e, old)
  | DumpFails e => (Raise e, Garbled)
  end.

(** ** Library functions taken as given

    [datetime] values are naive local times, counted in microseconds; this
    is what [datetime.now()] yields and what [isoformat] writes.  Texts
    that carry a UTC offset, which the program never writes, are outside
    this model. *)

Class Library := {
  (** [datetime.fromisoformat(s)]; [None] stands for [ValueError]. *)
  fromisoformat : string -> option Z;
  (** [d.isoformat()]. *)
  isoformat : Z -> string;
  (** [re.search(pattern, text)], reduced to [match.group(1)]. *)
  re_search : string -> string -> option string;
  (** [int(s)]. *)
  py_int : string -> result Z;
}.

(** ** [scheduler.PasswordChangeRecord] and [scheduler.PasswordHistory] *)

Module History.

Record PasswordChangeRecord := {
  timestamp : string;
  old_password_hash : string;
  new_password_hash : string;
  success : bool;
  error_message : option string;
}.

(** What [json.load] returns (numbers are integers here). *)
#[local] Unset Elimination Schemes.
Inductive json :=
| JNull
| JBool (b : bool)
| JNum (z : Z)
| JStr (s : string)
| JList (items : list json)
| JDict (kvs : list (string * json)).
#[local] Set Elimination Schemes.

Fixpoint assoc (k : string) (kvs : list (string * json)) : option json :=
  match kvs with
  | [] => None
  | (k', v) :: rest => if String.eqb k k' then Some v else assoc k rest
  end.

Definition to_dict (r : PasswordChangeRecord) : json :=
  JDict [("timestamp", JStr (timestamp r));
         ("old_password_hash", JStr (old_password_hash r));
         ("new_password_hash", JStr (new_password_hash r));
         ("success", JBool (success r));
         ("error_message",
          match error_message r with Some m => JStr m | None => JNull end)].

Definition field_names : list string :=
  ["timestamp"; "old_password_hash"; "new_password_hash"; "success";
   "error_message"].

Definition required_fields : list string :=
  ["timestamp"; "old_password_hash"; "new_password_hash"; "success"].

(** The dataclass stores field values as they come.  Records are kept here
    with their annotated types: a stored value of the annotated type is
    read as it is, [success] is read through its truth value, which is all
    the program uses of it, and a text field holding something else than a
    text, which is outside this model, is read as empty. *)
Definition as_str (v : json) : string :=
  match v with JStr s => s | _ => EmptyString end.

Definition as_bool (v : json) : bool :=
  match v with
  | JNull => false
  | JBool b => b
  | JNum z => negb (z =? 0)
  | JStr s => negb (String.eqb s EmptyString)
  | JList l => match l with [] => false | _ => true end
  | JDict l => match l with [] => false | _ => true end
  end.

Definition as_opt_str (v : json) : option string :=
  match v with JStr s => Some s | _ => None end.

Definition mem (k : string) (l : list string) : bool :=
  existsb (String.eqb k) l.

(** [from_dict(data)] passes the entries of [data] as keyword arguments to
    the constructor: [data] must be a mapping whose keys are field names and
    cover the fields without a default. *)
Definition from_dict (data : json) : result PasswordChangeRecord :=
  match data with
  | JDict kvs =>
      match List.find (fun kv => negb (mem (fst kv) field_names)) kvs with
      | Some (k, _) =>
          Raise (mkExn TypeError
                   ("__init__() got an unexpected keyword argument '"
                    +:+ k +:+ "'"))
      | None =>
          match List.find (fun k => negb (mem k (map fst kvs)))
                  required_fields with
          | Some k =>
              Raise (mkExn TypeError
                       ("__init__() missing required positional argument: '"
                        +:+ k +:+ "'"))
          | None =>
              let field k := default JNull (assoc k kvs) in
              Ok {| timestamp := as_str (field "timestamp");
                    old_password_hash := as_str (field "old_password_hash");
                    new_password_hash := as_str (field "new_password_hash");
                    success := as_bool (field "success");
                    error_message := as_opt_str (field "error_message") |}
          end
      end
  | _ => Raise (mkExn TypeError "keyword arguments must be a mapping")
  end.

(** What [for record in data] visits. *)
Definition py_iter (data : json) : result (list json) :=
  match data with
  | JList items => Ok items
  | JDict kvs => Ok (map (fun kv => JStr (fst kv)) kvs)
  | JStr s => Ok (map (fun c => JStr (String c EmptyString))
                      (list_ascii_of_string s))
  | _ => Raise (mkExn TypeError "object is not iterable")
  end.

(** A list comprehension whose body may raise. *)
Fixpoint traverse {A B} (f : A -> result B) (l : list A) : result (list B) :=
  match l with
  | [] => Ok []
  | a :: l' => b ← f a; bs ← traverse f l'; Ok (b :: bs)
  end.

Record PasswordHistory := {
  history_file : file_state json;   (* what the path [history_file] holds *)
  max_records : Z;
  records : list PasswordChangeRecord;
}.

Definition set_records (rs : list PasswordChangeRecord) (h : PasswordHistory)
  : PasswordHistory :=
  {| history_file := history_file h; max_records := max_records h;
     records := rs |}.

Definition set_history_file (f : file_state json) (h : PasswordHistory)
  : PasswordHistory :=
  {| history_file := f; max_records := max_records h; records := records h |}.

Definition load_history : M PasswordHistory unit :=
  try_except
    (h ← get;
     match history_file h with
     | NoFile => mret tt
     | Unreadable e => raise e
     | Garbled => raise (mkExn JSONDecodeError "Expecting value")
     | Content data =>
         items ← lift_result (py_iter data);
         rs ← lift_result (traverse from_dict items);
         put (set_records rs h)
     end)
    (fun e =>
       emit (Log RootLog ERROR
               ("Ошибка загрузки истории паролей: " +:+ exn_msg e));;
       h ← get; put (set_records [] h)).

(** [PasswordHistory(history_file, max_records)]. *)
Definition init (file : file_state json) (max : Z)
  : PasswordHistory * list event :=
  let '(_, h, tr) :=
    load_history {| history_file := file; max_records := max; records := [] |}
  in (h, tr).

(** [l[start:]] for any integer [start]. *)
Definition slice_from {A} (start : Z) (l : list A) : list A :=
  if start <? 0 then drop (Z.to_nat (Z.of_nat (length l) + start)) l
  else drop (Z.to_nat start) l.

Definition save_history (w : write_outcome) : M PasswordHistory unit :=
  try_except
    (h ← get;
     (if Z.of_nat (length (records h)) >? max_records h
      then put (set_records (slice_from (- max_records h) (records h)) h)
      else mret tt);;
     h ← get;
     let data := JList (map to_dict (records h)) in
     let '(r, f) := write_file w data (history_file h) in
     put (set_history_file f h);;
     lift_result r)
    (fun e =>
       emit (Log RootLog ERROR
               ("Ошибка сохранения истории паролей: " +:+ exn_msg e))).

Definition add_record (record : PasswordChangeRecord) (w : write_outcome)
  : M PasswordHistory unit :=
  h ← get;
  put (set_records (records h ++ [record]) h);;
  save_history w.

Definition get_last_change (h : PasswordHistory)
  : option PasswordChangeRecord :=
  List.find success (rev (records h)).

(** [now] is [datetime.now()]. *)
Definition get_failed_attempts {lib : Library} (now : Z) (since_hours : Z)
    (h : PasswordHistory) : list PasswordChangeRecord :=
  let cutoff_time := now - since_hours * 3600000000 in
  fold_left
    (fun failed_attempts record =>
       match fromisoformat (timestamp record) with
       | Some record_time =>
           if (cutoff_time <? record_time) && negb (success record)
           then failed_attempts ++ [record]
           else failed_attempts
       | None => failed_attempts
       end)
    (records h) [].

End History.

(** ** The configuration ([config.json] once loaded) *)

Module Config.

(** Keys read with [.get(key, default)] may be absent. *)
Record steam_account := {
  login : string;
  password : string;
  shared_secret : string;
  identity_secret : string;
  device_id : string;
  steamid : Z;
}.

Record password_change := {
  change_interval_hours : option Z;
  password_length : option Z;
  use_lowercase : option bool;
  use_uppercase : option bool;
  use_numbers : option bool;
  use_special_chars : option bool;
  exclude_ambiguous : option bool;
}.

Record security := {
  max_password_history : option Z;
}.

Record notifications := {
  enable_notifications : option bool;
  notify_on_success : option bool;
  notify_on_error : option bool;
  notification_method : option string;
}.

Record config := {
  account : steam_account;
  change : password_change;
  sec : security;
  notif : notifications;
}.

(** [config['steam_account']['password'] = p]. *)
Definition set_password (p : string) (c : config) : config :=
  {| account :=
       {| login := login (account c); password := p;
          shared_secret := shared_secret (account c);
          identity_secret := identity_secret (account c);
          device_id := device_id (account c);
          steamid := steamid (account c) |};
     change := change c; sec := sec c; notif := notif c |}.

End Config.

(** ** [password_generator.PasswordGenerator] *)

Module PasswordGenerator.

Definition lowercase : string := "abcdefghijklmnopqrstuvwxyz".
Definition uppercase : string := "ABCDEFGHIJKLMNOPQRSTUVWXYZ".
Definition numbers : string := "0123456789".
Definition special_chars : string := "!@#$%^&*()_+-=[]{}|;:,.<>?".
Definition ambiguous_chars : string := "0O1lI".

(** [c in chars]. *)
Definition char_in (chars : string) (c : ascii) : bool :=
  existsb (Ascii.eqb c) (list_ascii_of_string chars).

(** [any(c in chars for c in password)]. *)
Definition any_in (chars : string) (password : string) : bool :=
  existsb (char_in chars) (list_ascii_of_string password).

(** [generate_password]: the two guards that can fire, then the characters
    drawn from [secrets], given here as [drawn].  The later guards (an empty
    character set after exclusions, more required characters than the
    length) cannot fire once these two have passed and no extra exclusion
    is requested. *)
Definition generate_password (drawn : string) (length : Z)
    (use_lowercase use_uppercase use_numbers use_special_chars
     exclude_ambiguous : bool) : result string :=
  if length <? 4 then
    Raise (mkExn ValueError "Длина пароля должна быть не менее 4 символов")
  else if negb (use_lowercase || use_uppercase || use_numbers
                || use_special_chars) then
    Raise (mkExn ValueError "Должен быть выбран хотя бы один тип символов")
  else Ok drawn.

Record strength_report := {
  length : Z;
  has_lowercase : bool;
  has_uppercase : bool;
  has_numbers : bool;
  has_special_chars : bool;
  has_ambiguous : bool;
  score : Z;
  strength : string;
}.

Definition validate_password_strength (password : string) : strength_report :=
  let len := Z.of_nat (String.length password) in
  let lo := any_in lowercase password in
  let up := any_in uppercase password in
  let nu := any_in numbers password in
  let sp := any_in special_chars password in
  let score :=
    (if len >=? 8 then 1 else 0) + (if len >=? 12 then 1 else 0)
    + (if len >=? 16 then 1 else 0)
    + (if lo then 1 else 0) + (if up then 1 else 0) + (if nu then 1 else 0)
    + (if sp then 2 else 0) in
  {| length := len; has_lowercase := lo; has_uppercase := up;
     has_numbers := nu; has_special_chars := sp;
     has_ambiguous := any_in ambiguous_chars password;
     score := score;
     strength :=
       if score >=? 7 then "Очень сильный"
       else if score >=? 5 then "Сильный"
       else if score >=? 3 then "Средний"
       else if score >=? 1 then "Слабый"
       else "Очень слабый" |}.

End PasswordGenerator.

(** ** The world outside: the remote service, clocks, randomness, disks *)

Record rsa_reply := {
  rsa_success : bool;
  publickey_mod : string;
  publickey_exp : string;
  rsa_timestamp : string;
}.

Record login_reply := {
  login_success : bool;
  login_complete : bool;
  login_message : option string;
  transfer_urls : option (list string);
  login_cookies_set : list (string * string);   (* [response.cookies] *)
}.

Record page_reply := {
  page_status : Z;
  page_text : result string;                    (* [await response.text()] *)
}.

Record submit_body := {
  change_success : bool;
  change_message : option string;
}.

Record submit_reply := {
  submit_status : Z;
  submit_json : result submit_body;             (* [await response.json()] *)
}.

(** Each endpoint answers a request or fails with a transport exception
    (time-out, connection error, a body that is not JSON). *)
Record server := {
  getrsakey : string -> result rsa_reply;
  dologin : string -> string -> string -> string -> result login_reply;
  transfer : string -> result (list (string * string));
  change_page : result page_reply;
  change_submit : string -> string -> string -> string -> result submit_reply;
}.

Record env := {
  now_check : Z;            (* [datetime.now()] at the failure-window check *)
  now_record : Z;           (* [datetime.now()] when the record is built *)
  unix_time : Z;            (* [int(time.time())] *)
  drawn_password : string;  (* what the random draws of the generator give *)
  history_write : write_outcome;
  config_write : write_outcome;
  (** RSA PKCS#1 v1.5 encryption of the password, base64-encoded; the
      padding is random and a malformed key raises. *)
  rsa_encrypt : string -> string -> string -> result string;
  remote : server;
}.

(** ** [steam_client.SteamWebClient] *)

Module SteamWebClient.

Record client := {
  session : bool;                        (* [self.session] is set *)
  steam_id : option Z;
  session_id : option string;
  login_cookies : gmap string string;
}.

(** The object after [__init__] and [__aenter__]. *)
Definition entered : client :=
  {| session := true; steam_id := None; session_id := None;
     login_cookies := ∅ |}.

Definition set_login_cookies (jar : gmap string string) (c : client) : client :=
  {| session := session c; steam_id := steam_id c;
     session_id := session_id c; login_cookies := jar |}.

Definition set_session_id (sid : option string) (c : client) : client :=
  {| session := session c; steam_id := steam_id c;
     session_id := sid; login_cookies := login_cookies c |}.

Definition set_steam_id (n : option Z) (c : client) : client :=
  {| session := session c; steam_id := n;
     session_id := session_id c; login_cookies := login_cookies c |}.

(** [jar[cookie.key] = cookie.value] for each cookie, in order. *)
Definition store_cookies (cookies : list (string * string))
    (jar : gmap string string) : gmap string string :=
  fold_left (fun m kv => <[fst kv := snd kv]> m) cookies jar.

Definition elog {S} (level : log_level) (msg : string) : M S unit :=
  emit (Log ClientLog level msg).

(** [s.split(sep)[0]] when [sep in s], [None] otherwise. *)
Fixpoint split_first (sep s : string) : option string :=
  if String.prefix sep s then Some EmptyString
  else match s with
       | EmptyString => None
       | String c s' => String c <$> split_first sep s'
       end.

Definition quote : string := String (ascii_of_nat 34) EmptyString.

(** The three patterns of [_extract_csrf_token], in order. *)
Definition csrf_patterns : list string :=
  ["name=" +:+ quote +:+ "csrf_token" +:+ quote +:+ "\s+value=" +:+ quote
     +:+ "([^" +:+ quote +:+ "]+)" +:+ quote;
   quote +:+ "csrf_token" +:+ quote +:+ ":" +:+ quote
     +:+ "([^" +:+ quote +:+ "]+)" +:+ quote;
   "g_rgProfileData\s*=\s*{[^}]*" +:+ quote +:+ "csrf_token" +:+ quote
     +:+ "\s*:\s*" +:+ quote +:+ "([^" +:+ quote +:+ "]+)" +:+ quote].

Section with_world.
Context {lib : Library} (E : env).

Definition _get_rsa_key (username : string)
  : M client (option (string * string * string)) :=
  try_except
    (reply ← http (GetRsaKey username) (getrsakey (remote E) username);
     if rsa_success reply
     then mret (Some (publickey_mod reply, publickey_exp reply,
                      rsa_timestamp reply))
     else mret None)
    (fun e =>
       elog ERROR ("Ошибка получения RSA ключа: " +:+ exn_msg e);;
       mret None).

Definition _encrypt_password (password : string)
    (rsa_key : string * string * string) : M client string :=
  let '(modulus, exponent, _) := rsa_key in
  match rsa_encrypt E password modulus exponent with
  | Ok encrypted => mret encrypted
  | Raise e =>
      elog ERROR ("Ошибка шифрования пароля: " +:+ exn_msg e);;
      mret EmptyString
  end.

Definition _extract_session_data (transfer_url : string) : M client unit :=
  try_except
    (cookies ← http (GetTransfer transfer_url)
                    (transfer (remote E) transfer_url);
     c ← get;
     let jar := store_cookies cookies (login_cookies c) in
     put (set_session_id (jar !! "sessionid") (set_login_cookies jar c));;
     match jar !! "steamLoginSecure" with
     | Some login_secure =>
         match split_first "%7C%7C" login_secure with
         | Some prefix =>
             n ← lift_result (py_int prefix);
             c ← get; put (set_steam_id (Some n) c)
         | None => mret tt
         end
     | None => mret tt
     end)
    (fun e => elog ERROR ("Ошибка извлечения данных сессии: " +:+ exn_msg e)).

Definition _extract_csrf_token (page_content : string) : option string :=
  List.fold_right
    (fun pattern rest =>
       match re_search pattern page_content with
       | Some token => Some token
       | None => rest
       end)
    None csrf_patterns.

Definition login (username password auth_code : string) : M client bool :=
  c ← get;
  if negb (session c) then
    raise (mkExn RuntimeError "Сессия не инициализирована")
  else
    try_except
      (rsa_key ← _get_rsa_key username;
       match rsa_key with
       | None => elog ERROR "Не удалось получить RSA ключ";; mret false
       | Some key =>
           encrypted_password ← _encrypt_password password key;
           reply ← http (DoLogin username encrypted_password auth_code
                                 (snd key))
                        (dologin (remote E) username encrypted_password
                                 auth_code (snd key));
           if login_success reply && login_complete reply then
             c ← get;
             put (set_login_cookies
                    (store_cookies (login_cookies_set reply) ∅) c);;
             match transfer_urls reply with
             | Some [] =>
                 raise (mkExn IndexError "list index out of range")
             | Some (url :: _) => _extract_session_data url
             | None => mret tt
             end;;
             elog INFO "Успешная авторизация в Steam";;
             mret true
           else
             elog ERROR ("Ошибка авторизации: "
                         +:+ default "Неизвестная ошибка" (login_message reply));;
             mret false
       end)
      (fun e =>
         elog ERROR ("Исключение при авторизации: " +:+ exn_msg e);;
         mret false).

Definition change_password (current_password new_password : string)
  : M client bool :=
  c ← get;
  if negb (session c) || negb (truthy_str (session_id c)) then
    elog ERROR "Необходима авторизация перед сменой пароля";;
    mret false
  else
    try_except
      (page ← http GetChangePage (change_page (remote E));
       if negb (page_status page =? 200) then
         elog ERROR "Не удалось получить страницу смены пароля";;
         mret false
       else
         page_content ← lift_result (page_text page);
         let csrf_token := _extract_csrf_token page_content in
         if negb (truthy_str csrf_token) then
           elog ERROR "Не удалось найти CSRF токен";;
           mret false
         else
           reply ← http (SubmitChange (default EmptyString (session_id c))
                           current_password new_password
                           (default EmptyString csrf_token))
                        (change_submit (remote E)
                           (default EmptyString (session_id c))
                           current_password new_password
                           (default EmptyString csrf_token));
           if submit_status reply =? 200 then
             body ← lift_result (submit_json reply);
             if change_success body then
               elog INFO "Пароль успешно изменен";;
               mret true
             else
               elog ERROR ("Ошибка смены пароля: "
                           +:+ default "Неизвестная ошибка"
                                 (change_message body));;
               mret false
           else
             elog ERROR ("HTTP ошибка при смене пароля: "
                         +:+ PyFormat.str_int (submit_status reply));;
             mret false)
      (fun e =>
         elog ERROR ("Исключение при смене пароля: " +:+ exn_msg e);;
         mret false).

End with_world.
End SteamWebClient.

(** ** [steam_client.SteamPasswordChanger] *)

Module SteamPasswordChanger.
Import Config.

Section with_world.
Context {lib : Library} (E : env).

(** [async with SteamWebClient() as client: body]: a fresh client whose
    session is opened on entry and closed on every way out.  [body] runs on
    the configuration and the client together. *)
Definition with_client {A} (body : M (config * SteamWebClient.client) A)
  : M config A := fun cfg =>
  let '(r, (cfg', _), tr) := body (cfg, SteamWebClient.entered) in
  (r, cfg', [SessionOpened] ++ tr ++ [SessionClosed]).

Definition on_client {A} (m : M SteamWebClient.client A)
  : M (config * SteamWebClient.client) A :=
  zoom snd (fun c s => (fst s, c)) m.

Definition on_config {A} (m : M config A)
  : M (config * SteamWebClient.client) A :=
  zoom fst (fun cfg s => (cfg, snd s)) m.

(** The state is [self.config], the dictionary the scheduler also holds.
    The authenticator was built from its [shared_secret], which nothing
    changes afterwards. *)
Definition change_password (new_password : string) : M config bool :=
  try_except
    (with_client
       (cfg ← on_config get;
        auth_code ← lift_result
          (SteamAuthenticator.generate_auth_code (unix_time E)
             (shared_secret (account cfg)) None);
        login_success ← on_client
          (SteamWebClient.login E (login (account cfg))
             (password (account cfg)) auth_code);
        if negb login_success then
          SteamWebClient.elog ERROR "Не удалось авторизоваться в Steam";;
          mret false
        else
          change_success ← on_client
            (SteamWebClient.change_password E (password (account cfg))
               new_password);
          if (change_success : bool) then
            on_config (put (set_password new_password cfg));;
            SteamWebClient.elog INFO "Пароль успешно изменен";;
            mret true
          else
            SteamWebClient.elog ERROR "Не удалось изменить пароль";;
            mret false))
    (fun e =>
       SteamWebClient.elog ERROR ("Исключение при смене пароля: " +:+ exn_msg e);;
       mret false).

End with_world.
End SteamPasswordChanger.

(** ** [scheduler.SteamPasswordScheduler] *)

Module SteamPasswordScheduler.
Import Config History.

Record scheduler := {
  config : Config.config;              (* [self.config] *)
  password_history : PasswordHistory;
  is_running : bool;
  config_file : file_state Config.config;   (* what [config_file] holds *)
}.

Definition set_config (c : Config.config) (s : scheduler) : scheduler :=
  {| config := c; password_history := password_history s;
     is_running := is_running s; config_file := config_file s |}.

Definition set_password_history (h : PasswordHistory) (s : scheduler)
  : scheduler :=
  {| config := config s; password_history := h;
     is_running := is_running s; config_file := config_file s |}.

Definition set_config_file (f : file_state Config.config) (s : scheduler)
  : scheduler :=
  {| config := config s; password_history := password_history s;
     is_running := is_running s; config_file := f |}.

(** [SteamPasswordScheduler(config_file)] once [load_config] has read the
    configuration [c] from the file: the history is built over the default
    path with the bound the configuration gives, 10 when it gives none. *)
Definition create (c : Config.config) (history : file_state json)
  : scheduler * list event :=
  let '(h, tr) :=
    History.init history (default 10 (max_password_history (sec c))) in
  ({| config := c; password_history := h; is_running := false;
      config_file := Content c |}, tr).

Definition slog (level : log_level) (msg : string) : M scheduler unit :=
  emit (Log SchedulerLog level msg).

(** [hashlib.sha256(password.encode('utf-8')).hexdigest()[:16]]. *)
Definition hash_password (password : string) : string :=
  String.substring 0 16
    (Sha256.hexdigest (Sha256.sha256 (encode_utf8 password))).

Section with_world.
Context {lib : Library} (E : env).

Definition save_config : M scheduler unit :=
  try_except
    (s ← get;
     let '(r, f) := write_file (config_write E) (config s) (config_file s) in
     put (set_config_file f s);;
     lift_result r;;
     slog INFO "Конфигурация сохранена")
    (fun e => slog ERROR ("Ошибка сохранения конфигурации: " +:+ exn_msg e)).

Definition send_notification (message : string) : M scheduler unit :=
  s ← get;
  let notifications_config := notif (config s) in
  if negb (default true (enable_notifications notifications_config)) then
    mret tt
  else if String.eqb
            (default "console" (notification_method notifications_config))
            "console"
  then slog INFO ("УВЕДОМЛЕНИЕ: " +:+ message)
  else mret tt.

Definition add_history_record (record : PasswordChangeRecord)
  : M scheduler unit :=
  zoom password_history set_password_history
       (add_record record (history_write E)).

Definition change_password_job : M scheduler unit :=
  slog INFO "Начинаем процедуру смены пароля";;
  try_except
    (s ← get;
     let failed_attempts :=
       get_failed_attempts (now_check E) 1 (password_history s) in
     if (3 <=? length failed_attempts)%nat then
       slog WARNING
         "Слишком много неудачных попыток за последний час, пропускаем смену"
     else
       let password_config := change (config s) in
       new_password ← lift_result
         (PasswordGenerator.generate_password (drawn_password E)
            (default 16 (password_length password_config))
            (default true (use_lowercase password_config))
            (default true (use_uppercase password_config))
            (default true (use_numbers password_config))
            (default true (use_special_chars password_config))
            (default true (exclude_ambiguous password_config)));
       let password_strength :=
         PasswordGenerator.validate_password_strength new_password in
       slog INFO ("Сгенерирован пароль силой: "
                  +:+ PasswordGenerator.strength password_strength);;
       let old_password := password (account (config s)) in
       success ← zoom config set_config
                      (SteamPasswordChanger.change_password E new_password);
       let record :=
         {| timestamp := isoformat (now_record E);
            old_password_hash := hash_password old_password;
            new_password_hash := hash_password new_password;
            success := success;
            error_message :=
              if success then None else Some "Неизвестная ошибка" |} in
       add_history_record record;;
       if (success : bool) then
         s ← get;
         put (set_config (set_password new_password (config s)) s);;
         save_config;;
         slog INFO "Пароль успешно изменен и сохранен";;
         s ← get;
         if default true (notify_on_success (notif (config s))) then
           send_notification
             ("Пароль Steam успешно изменен на новый (сила: "
              +:+ PasswordGenerator.strength password_strength +:+ ")")
         else mret tt
       else
         slog ERROR "Не удалось изменить пароль Steam";;
         s ← get;
         if default true (notify_on_error (notif (config s))) then
           send_notification "ОШИБКА: Не удалось изменить пароль Steam"
         else mret tt)
    (fun e =>
       slog ERROR ("Исключение при смене пароля: " +:+ exn_msg e);;
       add_history_record
         {| timestamp := isoformat (now_record E);
            old_password_hash := EmptyString;
            new_password_hash := EmptyString;
            success := false;
            error_message := Some (exn_msg e) |};;
       s ← get;
       if default true (notify_on_error (notif (config s))) then
         send_notification
           ("КРИТИЧЕСКАЯ ОШИБКА при смене пароля: " +:+ exn_msg e)
       else mret tt).

(** [run_async_job(job_func)]: the job runs to completion on its own
    thread; an exception that escapes it is logged. *)
Definition run_async_job (job_func : M scheduler unit) : M scheduler unit :=
  try_except job_func
    (fun e =>
       slog ERROR ("Ошибка выполнения асинхронной задачи: " +:+ exn_msg e)).

(** What the schedule set up by [schedule_password_changes] runs when the
    interval has elapsed. *)
Definition scheduled_run : M scheduler unit :=
  run_async_job change_password_job.

Definition force_password_change : M scheduler unit :=
  slog INFO "Принудительный запуск смены пароля";;
  run_async_job change_password_job.

End with_world.



End SteamPasswordScheduler.

(** ** Specification-level reading of the one-time-code algorithm *)

Module CodeGeneratorSpec.

Inductive outcome :=
| Code (code : string)
| InvalidSecretEncoding.

(** The 8-byte big-endian counter. *)
Definition counter_bytes (c : Z) : list Z :=
  [c / 2 ^ 56 mod 256; c / 2 ^ 48 mod 256; c / 2 ^ 40 mod 256;
   c / 2 ^ 32 mod 256; c / 2 ^ 24 mod 256; c / 2 ^ 16 mod 256;
   c / 2 ^ 8 mod 256; c mod 256].

(** Dynamic truncation of a 20-byte digest: the offset is the low nibble of
    the last byte, the four bytes there are read big-endian and the sign bit
    is dropped. *)
Definition dynamic_truncation (digest : list Z) : Z :=
  let offset := Z.to_nat (nth 19 digest 0 mod 16) in
  let b i := nth (offset + i) digest 0 in
  (b 0%nat * 2 ^ 24 + b 1%nat * 2 ^ 16 + b 2%nat * 2 ^ 8 + b 3%nat) mod 2 ^ 31.

(** Zeros on the left up to [width] characters, never cutting. *)
Definition zero_pad (width : nat) (s : string) : string :=
  string_of_list_ascii
    (repeat "0"%char (width - String.length s) ++ list_ascii_of_string s).

Definition generate (secret : string) (unixtime : Z) : outcome :=
  match Base64.b64decode secret with
  | Raise _ => InvalidSecretEncoding
  | Ok key =>
      let counter := counter_bytes (unixtime / 30) in
      let digest := Hmac.hmac_sha1 key counter in
      let value := dynamic_truncation digest mod 1000000 in
      Code (zero_pad 5 (PyFormat.str_int value))
  end.

(** The value a digit string denotes, continuing from [v]. *)
Definition decimal_value (cs : list ascii) (v : Z) : Z :=
  fold_left (fun a c => 10 * a + (Base64.code c - 48)) cs v.

(** What a caller of the Python function observes, in the vocabulary of the
    specification; [None] stands for any other exception. *)
Definition observe (r : result string) : option outcome :=
  match r with
  | Ok code => Some (Code code)
  | Raise e =>
      match exn_cls e with
      | ValueError => Some InvalidSecretEncoding
      | _ => None
      end
  end.

End CodeGeneratorSpec.

(** ** Specification-level vocabulary for the history and the engine *)

Module RotationSpec.
Import Config History SteamPasswordScheduler.

(** The last [n] elements of a list, in their order. *)
Definition keep_last {A} (n : nat) (l : list A) : list A :=
  drop (length l - n) l.

(** Appending a sequence of records, each with the outcome of its write. *)
Fixpoint add_all (items : list (PasswordChangeRecord * write_outcome))
  : M PasswordHistory unit :=
  match items with
  | [] => mret tt
  | (record, w) :: rest => add_record record w;; add_all rest
  end.

(** A failure whose timestamp reads as a date later than [cutoff]. *)
Definition failed_since {lib : Library} (cutoff : Z) (r : PasswordChangeRecord)
  : bool :=
  negb (success r)
  && match fromisoformat (timestamp r) with
     | Some t => cutoff <? t
     | None => false
     end.

(** A failure dated inside the window of [hours] hours that ends at [now]. *)
Definition failed_within {lib : Library} (now hours : Z) (r : PasswordChangeRecord)
  : bool :=
  negb (success r)
  && match fromisoformat (timestamp r) with
     | Some t => (now - hours * 3600000000 <? t) && (t <=? now)
     | None => false
     end.


(** A store that cannot be read, or whose content does not build records. *)
Definition corrupt (f : file_state json) : bool :=
  match f with
  | NoFile => false
  | Unreadable _ => true
  | Garbled => true
  | Content data =>
      match py_iter data with
      | Raise _ => true
      | Ok items => negb (is_ok (traverse from_dict items))
      end
  end.

(** What retention leaves of [l] under the bound [n], as [save_history]
    computes it. *)
Definition retained (n : Z) (l : list PasswordChangeRecord)
  : list PasswordChangeRecord :=
  if Z.of_nat (length l) >? n then slice_from (- n) l else l.

End RotationSpec.

(** ** One cycle of the engine, read off the source *)

Module Cycle.
Import Config History SteamPasswordScheduler.

Section with_world.
Context {lib : Library} (E : env).

(** The circuit breaker of [change_password_job]. *)
Definition breaker_open (s : scheduler) : bool :=
  (3 <=? length (get_failed_attempts (now_check E) 1 (password_history s)))%nat.

(** The candidate password of the cycle, or the exception of the
    generator. *)
Definition candidate (s : scheduler) : result string :=
  let password_config := change (config s) in
  PasswordGenerator.generate_password (drawn_password E)
    (default 16 (password_length password_config))
    (default true (use_lowercase password_config))
    (default true (use_uppercase password_config))
    (default true (use_numbers password_config))
    (default true (use_special_chars password_config))
    (default true (exclude_ambiguous password_config)).

(** The record the cycle builds after the changer has answered. *)
Definition outcome_record (s : scheduler) (new_password : string)
    (ok : bool) : PasswordChangeRecord :=
  {| timestamp := isoformat (now_record E);
     old_password_hash := hash_password (password (account (config s)));
     new_password_hash := hash_password new_password;
     success := ok;
     error_message := if ok then None else Some "Неизвестная ошибка" |}.

(** The record the cycle builds in its exception handler. *)
Definition exception_record (e : exn) : PasswordChangeRecord :=
  {| timestamp := isoformat (now_record E);
     old_password_hash := EmptyString;
     new_password_hash := EmptyString;
     success := false;
     error_message := Some (exn_msg e) |}.

(** What [send_notification] puts on the log. *)
Definition notification (cfg : Config.config) (message : string)
  : list event :=
  if negb (default true (enable_notifications (notif cfg))) then []
  else if String.eqb (default "console" (notification_method (notif cfg)))
            "console"
  then [Log SchedulerLog INFO ("УВЕДОМЛЕНИЕ: " +:+ message)]
  else [].

Definition success_message (new_password : string) : string :=
  "Пароль Steam успешно изменен на новый (сила: "
  +:+ PasswordGenerator.strength
        (PasswordGenerator.validate_password_strength new_password)
  +:+ ")".

(** What [save_config] puts on the log. *)
Definition save_config_log : event :=
  match config_write E with
  | WriteOk => Log SchedulerLog INFO "Конфигурация сохранена"
  | OpenFails e | DumpFails e =>
      Log SchedulerLog ERROR ("Ошибка сохранения конфигурации: " +:+ exn_msg e)
  end.

(** The scheduler once [record] has been added to its history: the list
    is trimmed, then written with the outcome the world gives. *)
Definition recorded (record : PasswordChangeRecord) (s : scheduler)
  : scheduler :=
  let h := password_history s in
  let kept := RotationSpec.retained (max_records h) (records h ++ [record]) in
  set_password_history
    (set_history_file
       (snd (write_file (history_write E) (JList (map to_dict kept))
               (history_file h)))
       (set_records kept h))
    s.

(** The scheduler once the configuration has been written, with the
    outcome the world gives. *)
Definition config_saved (s : scheduler) : scheduler :=
  set_config_file
    (snd (write_file (config_write E) (config s) (config_file s))) s.

(** The body of [SteamPasswordChanger.change_password], step by step. *)
Definition changer_outcome (new_password : string) (cfg : Config.config)
  : result bool * Config.config * list event :=
  match SteamAuthenticator.generate_auth_code (unix_time E)
          (shared_secret (account cfg)) None with
  | Raise e =>
      (Ok false, cfg,
       [SessionOpened; SessionClosed;
        Log ClientLog ERROR ("Исключение при смене пароля: " +:+ exn_msg e)])
  | Ok auth_code =>
      match SteamWebClient.login E (login (account cfg))
              (password (account cfg)) auth_code SteamWebClient.entered with
      | (Raise e, _, tr) =>
          (Ok false, cfg,
           [SessionOpened] ++ tr ++
           [SessionClosed;
            Log ClientLog ERROR ("Исключение при смене пароля: " +:+ exn_msg e)])
      | (Ok false, _, tr) =>
          (Ok false, cfg,
           [SessionOpened] ++ tr ++
           [Log ClientLog ERROR "Не удалось авторизоваться в Steam";
            SessionClosed])
      | (Ok true, c, tr) =>
          match SteamWebClient.change_password E (password (account cfg))
                  new_password c with
          | (Raise e, _, tr2) =>
              (Ok false, cfg,
               [SessionOpened] ++ tr ++ tr2 ++
               [SessionClosed;
                Log ClientLog ERROR
                  ("Исключение при смене пароля: " +:+ exn_msg e)])
          | (Ok true, _, tr2) =>
              (Ok true, set_password new_password cfg,
               [SessionOpened] ++ tr ++ tr2 ++
               [Log ClientLog INFO "Пароль успешно изменен"; SessionClosed])
          | (Ok false, _, tr2) =>
              (Ok false, cfg,
               [SessionOpened] ++ tr ++ tr2 ++
               [Log ClientLog ERROR "Не удалось изменить пароль";
                SessionClosed])
          end
      end
  end.

(** The attempt was made and did not change the password: the generator
    raised, or the changer answered [False]. *)
Definition attempt_failed (s : scheduler) : bool :=
  negb (breaker_open s)
  && match candidate s with
     | Raise _ => true
     | Ok new_password =>
         match SteamPasswordChanger.change_password E new_password (config s)
         with
         | (Ok true, _, _) => false
         | _ => true
         end
     end.

(** The attempt was made and the changer answered [True]. *)
Definition attempt_succeeded (s : scheduler) : bool :=
  negb (breaker_open s)
  && match candidate s with
     | Raise _ => false
     | Ok new_password =>
         match SteamPasswordChanger.change_password E new_password (config s)
         with
         | (Ok true, _, _) => true
         | _ => false
         end
     end.

(** The error description the source puts in the failure record. *)
Definition recorded_error (s : scheduler) : string :=
  match candidate s with
  | Raise e => exn_msg e
  | Ok _ => "Неизвестная ошибка"
  end.

End with_world.
End Cycle.

(** ** A concrete library and concrete worlds, for the examples *)

Module Sample.
Import Config History SteamPasswordScheduler.

(** *** Dates: the proleptic Gregorian calendar *)

Definition days_from_civil (y m d : Z) : Z :=
  let y := if m <=? 2 then y - 1 else y in
  let era := y / 400 in
  let yoe := y - era * 400 in
  let doy := (153 * (if m >? 2 then m - 3 else m + 9) + 2) / 5 + d - 1 in
  let doe := yoe * 365 + yoe / 4 - yoe / 100 + doy in
  era * 146097 + doe - 719468.

Definition civil_from_days (days : Z) : Z * Z * Z :=
  let z := days + 719468 in
  let era := z / 146097 in
  let doe := z - era * 146097 in
  let yoe := (doe - doe / 1460 + doe / 36524 - doe / 146096) / 365 in
  let doy := doe - (365 * yoe + yoe / 4 - yoe / 100) in
  let mp := (5 * doy + 2) / 153 in
  let d := doy - (153 * mp + 2) / 5 + 1 in
  let m := if mp <? 10 then mp + 3 else mp - 9 in
  let y := yoe + era * 400 in
  (if m <=? 2 then y + 1 else y, m, d).

(** [n] written with at least [width] digits. *)
Definition padded (width : nat) (n : Z) : string :=
  let ds := PyFormat.digits n in
  string_of_list_ascii (repeat "0"%char (width - length ds) ++ ds).

(** Microseconds since 1970-01-01T00:00:00, written the way
    [datetime.isoformat] writes a naive value. *)
Definition sample_isoformat (t : Z) : string :=
  let us := t mod 1000000 in
  let secs := t / 1000000 in
  let '(y, m, d) := civil_from_days (secs / 86400) in
  let sod := secs mod 86400 in
  padded 4 y +:+ "-" +:+ padded 2 m +:+ "-" +:+ padded 2 d +:+ "T"
  +:+ padded 2 (sod / 3600) +:+ ":" +:+ padded 2 (sod mod 3600 / 60)
  +:+ ":" +:+ padded 2 (sod mod 60)
  +:+ (if us =? 0 then EmptyString else "." +:+ padded 6 us).

Definition digit_value (c : ascii) : option Z :=
  if PyFormat.is_digit c then Some (Base64.code c - 48) else None.

Fixpoint number (cs : list ascii) (acc : Z) : option Z :=
  match cs with
  | [] => Some acc
  | c :: cs' => d ← digit_value c; number cs' (10 * acc + d)
  end.

Definition days_in_month (y m : Z) : Z :=
  if m =? 2 then
    if ((y mod 4 =? 0) && negb (y mod 100 =? 0)) || (y mod 400 =? 0)
    then 29 else 28
  else if (m =? 4) || (m =? 6) || (m =? 9) || (m =? 11) then 30 else 31.

(** A reader for the texts [sample_isoformat] writes,
    [YYYY-MM-DDTHH:MM:SS] with an optional [.ffffff]; anything else is
    rejected.  ([datetime.fromisoformat] accepts further spellings.) *)
Definition sample_fromisoformat (s : string) : option Z :=
  let cs := list_ascii_of_string s in
  let field i n := number (take n (drop i cs)) 0 in
  let sep i c := bool_decide (cs !! i = Some c) in
  if negb (sep 4%nat "-"%char && sep 7%nat "-"%char && sep 10%nat "T"%char
           && sep 13%nat ":"%char && sep 16%nat ":"%char) then None
  else
    y ← field 0%nat 4%nat; m ← field 5%nat 2%nat; d ← field 8%nat 2%nat;
    hh ← field 11%nat 2%nat; mm ← field 14%nat 2%nat; ss ← field 17%nat 2%nat;
    us ← (if (length cs =? 19)%nat then Some 0
          else if (length cs =? 26)%nat && sep 19%nat "."%char
               then field 20%nat 6%nat else None);
    if (1 <=? y) && (1 <=? m) && (m <=? 12) && (1 <=? d)
       && (d <=? days_in_month y m) && (hh <? 24) && (mm <? 60) && (ss <? 60)
    then Some (((days_from_civil y m d * 24 + hh) * 60 + mm) * 60 * 1000000
               + ss * 1000000 + us)
    else None.

(** *** Text search and integers *)

(** The characters of [s] up to the first double quote, when there is one. *)
Fixpoint until_quote (s : string) : option string :=
  match s with
  | EmptyString => None
  | String c s' =>
      if Ascii.eqb c (ascii_of_nat 34) then Some EmptyString
      else String c <$> until_quote s'
  end.

(** The first place where [prefix] is followed by a non-empty text free of
    quotes and then a quote; that text. *)
Fixpoint quoted_after (prefix : string) (s : string) : option string :=
  let here :=
    if String.prefix prefix s then
      match until_quote (String.substring (String.length prefix)
                           (String.length s) s) with
      | Some tok => if String.eqb tok EmptyString then None else Some tok
      | None => None
      end
    else None in
  match here with
  | Some tok => Some tok
  | None => match s with
            | EmptyString => None
            | String _ s' => quoted_after prefix s'
            end
  end.

Definition json_token_pattern : string :=
  SteamWebClient.quote +:+ "csrf_token" +:+ SteamWebClient.quote +:+ ":"
  +:+ SteamWebClient.quote +:+ "([^" +:+ SteamWebClient.quote +:+ "]+)"
  +:+ SteamWebClient.quote.

(** A search that knows the inline-field pattern only; it agrees with
    [re.search] on pages that hold neither a form field named [csrf_token]
    nor a [g_rgProfileData] script, as the example pages do. *)
Definition sample_re_search (pattern text : string) : option string :=
  if String.eqb pattern json_token_pattern then
    quoted_after (SteamWebClient.quote +:+ "csrf_token" +:+ SteamWebClient.quote
                  +:+ ":" +:+ SteamWebClient.quote) text
  else None.

(** [int] on plain decimal digits. *)
Definition sample_py_int (s : string) : result Z :=
  match s, number (list_ascii_of_string s) 0 with
  | String _ _, Some n => Ok n
  | _, _ => Raise (mkExn ValueError
                     ("invalid literal for int() with base 10: '" +:+ s +:+ "'"))
  end.

Definition library : Library :=
  {| fromisoformat := sample_fromisoformat;
     isoformat := sample_isoformat;
     re_search := sample_re_search;
     py_int := sample_py_int |}.

(** *** Worlds *)

Definition account0 : steam_account :=
  {| login := "rotator"; password := "OldSecret#2023";
     shared_secret := "MTIzNDU2Nzg5MDEyMzQ1Njc4OTA=";
     identity_secret := "aWRlbnRpdHk="; device_id := "android:0001";
     steamid := 76561198000000000 |}.

(** A configuration that leaves every optional key to its default. *)
Definition config0 : Config.config :=
  {| account := account0;
     change := {| change_interval_hours := None; password_length := None;
                  use_lowercase := None; use_uppercase := None;
                  use_numbers := None; use_special_chars := None;
                  exclude_ambiguous := None |};
     sec := {| max_password_history := None |};
     notif := {| enable_notifications := None; notify_on_success := None;
                 notify_on_error := None; notification_method := None |} |}.

(** A scheduler just built, no history file yet: the history is empty and
    bounded by the default 10. *)
Definition scheduler0 : scheduler := fst (create config0 NoFile).

Definition token_page : string :=
  "{" +:+ SteamWebClient.quote +:+ "csrf_token" +:+ SteamWebClient.quote
  +:+ ":" +:+ SteamWebClient.quote +:+ "tok123" +:+ SteamWebClient.quote
  +:+ "}".

(** A server that accepts every step. *)
Definition accepting : server :=
  {| getrsakey := fun _ =>
       Ok {| rsa_success := true; publickey_mod := "c0ffee";
             publickey_exp := "010001"; rsa_timestamp := "424242" |};
     dologin := fun _ _ _ _ =>
       Ok {| login_success := true; login_complete := true;
             login_message := None;
             transfer_urls := Some ["https://store.example/login/transfer"];
             login_cookies_set :=
               [("steamLoginSecure", "76561198000000000%7C%7Ctoken")] |};
     transfer := fun _ => Ok [("sessionid", "0123456789abcdef")];
     change_page := Ok {| page_status := 200; page_text := Ok token_page |};
     change_submit := fun _ _ _ _ =>
       Ok {| submit_status := 200;
             submit_json := Ok {| change_success := true;
                                  change_message := None |} |} |}.

(** The same server, except that the login request times out. *)
Definition login_times_out : server :=
  {| getrsakey := getrsakey accepting;
     dologin := fun _ _ _ _ => Raise (mkExn TimeoutError "timed out");
     transfer := transfer accepting;
     change_page := change_page accepting;
     change_submit := change_submit accepting |}.


(** Noon of 2024-01-01, every write succeeding unless stated. *)
Definition world (srv : server) (cfg_write : write_outcome) : env :=
  {| now_check := 1704110400000000;
     now_record := 1704110402000000;
     unix_time := 1704110400;
     drawn_password := "Xk9#mQ2$vB7!nR4@";
     history_write := WriteOk;
     config_write := cfg_write;
     rsa_encrypt := fun _ _ _ => Ok "Y2lwaGVydGV4dA==";
     remote := srv |}.

Definition failure_at (ts : string) : PasswordChangeRecord :=
  {| timestamp := ts; old_password_hash := EmptyString;
     new_password_hash := EmptyString; success := false;
     error_message := Some "Неизвестная ошибка" |}.

(** A scheduler configured for passwords of three characters, which the
    generator refuses. *)
Definition scheduler_short_password : scheduler :=
  set_config
    {| account := account0;
       change := {| change_interval_hours := None; password_length := Some 3;
                    use_lowercase := None; use_uppercase := None;
                    use_numbers := None; use_special_chars := None;
                    exclude_ambiguous := None |};
       sec := sec config0; notif := notif config0 |}
    scheduler0.

(** A scheduler whose history holds three failures of the last hour. *)
Definition scheduler_tripped : scheduler :=
  set_password_history
    {| history_file := NoFile; max_records := 10;
       records := [failure_at "2024-01-01T11:10:00";
                   failure_at "2024-01-01T11:30:00";
                   failure_at "2024-01-01T11:50:00"] |}
    scheduler0.

(** *** Records *)

Definition record_a : PasswordChangeRecord :=
  {| timestamp := "2024-01-01T00:00:00";
     old_password_hash := "old_hash_1"; new_password_hash := "new_hash_1";
     success := true; error_message := None |}.

Definition record_b : PasswordChangeRecord :=
  {| timestamp := "2024-01-01T01:00:00";
     old_password_hash := "old_hash_2"; new_password_hash := "new_hash_2";
     success := false; error_message := Some "Тестовая ошибка" |}.

Definition empty_history (n : Z) : PasswordHistory :=
  {| history_file := NoFile; max_records := n; records := [] |}.

End Sample.

(** ** [base64.b64encode] *)

Module Base64Encode.

(** [table_b2a_base64]: the character of a 6-bit value. *)
Definition b64_char (v : Z) : ascii :=
  ascii_of_nat
    (Z.to_nat (if v <? 26 then 65 + v
               else if v <? 52 then 71 + v
               else if v <? 62 then v - 4
               else if v =? 62 then 43 else 47)).

(** Three bytes give four characters; a last group of one or two bytes is
    completed with pad characters. *)
Fixpoint b2a (bs : list Z) : list ascii :=
  match bs with
  | [] => []
  | [b0] =>
      [b64_char (Z.shiftr b0 2);
       b64_char (Z.shiftl (Z.land b0 3) 4);
       Base64.pad_char; Base64.pad_char]
  | [b0; b1] =>
      [b64_char (Z.shiftr b0 2);
       b64_char (Z.lor (Z.shiftl (Z.land b0 3) 4) (Z.shiftr b1 4));
       b64_char (Z.shiftl (Z.land b1 15) 2);
       Base64.pad_char]
  | b0 :: b1 :: b2 :: rest =>
      b64_char (Z.shiftr b0 2)
      :: b64_char (Z.lor (Z.shiftl (Z.land b0 3) 4) (Z.shiftr b1 4))
      :: b64_char (Z.lor (Z.shiftl (Z.land b1 15) 2) (Z.shiftr b2 6))
      :: b64_char (Z.land b2 63)
      :: b2a rest
  end.

(** [base64.b64encode(bs).decode('utf-8')]. *)
Definition b64encode (bs : list Z) : string := string_of_list_ascii (b2a bs).

End Base64Encode.

(** ** [SteamAuthenticator.generate_confirmation_key] *)

Module Confirmation.

Definition generate_confirmation_key (shared_secret : string)
    (timestamp : Z) (tag : string) : result string :=
  match Base64.b64decode shared_secret with
  | Raise e =>
      Raise (mkExn ValueError
               ("Неверный формат shared_secret: " +:+ exn_msg e))
  | Ok secret_bytes =>
      let data := encode_utf8 (PyFormat.str_int timestamp +:+ tag) in
      let hmac_digest := Hmac.hmac_sha1 secret_bytes data in
      Ok (Base64Encode.b64encode hmac_digest)
  end.

End Confirmation.

(** ** [password_generator.PasswordGenerator], with its random draws *)

Module PasswordGeneration.

(** The source of randomness: [r k] is the raw outcome behind the [k]-th
    call to [secrets]. *)
Definition rng : Type := nat -> nat.

(** [secrets.randbelow(n)], [k]-th call: any value below [n]. *)
Definition randbelow (r : rng) (k : nat) (n : nat) : nat := (r k mod n)%nat.

(** [secrets.choice(seq)], [k]-th call. *)
Definition choice (r : rng) (k : nat) (seq : list ascii) : result ascii :=
  match seq with
  | [] => Raise (mkExn IndexError "Cannot choose from an empty sequence")
  | c :: _ => Ok (nth (randbelow r k (List.length seq)) seq c)
  end.

Definition chars (s : string) : list ascii := list_ascii_of_string s.

(** One of the four [if use_...:] blocks: the class joins the character
    set and one character of it is required. *)
Definition add_class (r : rng) (use : bool) (class : string)
    (acc : list ascii * list ascii * nat)
  : result (list ascii * list ascii * nat) :=
  let '(charset, required_chars, k) := acc in
  if use then
    c ← choice r k (chars class);
    Ok (charset ++ chars class, required_chars ++ [c], S k)
  else Ok acc.

(** [[secrets.choice(charset) for _ in range(n)]], from the [k]-th call on. *)
Fixpoint choices (r : rng) (k : nat) (n : nat) (charset : list ascii)
  : result (list ascii) :=
  match n with
  | O => Ok []
  | S n' => c ← choice r k charset; cs ← choices r (S k) n' charset;
            Ok (c :: cs)
  end.

(** [l[i], l[j] = l[j], l[i]]; the indices of the shuffle are in range. *)
Definition swap (i j : nat) (l : list ascii) : list ascii :=
  match l !! i, l !! j with
  | Some x, Some y => <[j := x]> (<[i := y]> l)
  | _, _ => l
  end.

(** The loop [for i in range(len(l) - 1, 0, -1)], entered at index [i], from
    the [k]-th call on. *)
Fixpoint shuffle (r : rng) (k : nat) (i : nat) (l : list ascii) : list ascii :=
  match i with
  | O => l
  | S i' => shuffle r (S k) i' (swap i (randbelow r k (S i)) l)
  end.

(** [c not in excluded], as a filter. *)
Definition without (excluded : string) (l : list ascii) : list ascii :=
  List.filter (fun c => negb (PasswordGenerator.char_in excluded c)) l.

(** The four [if use_...:] blocks in their order: the character set, the
    required characters and the number of draws made. *)
Definition classes (r : rng)
    (use_lowercase use_uppercase use_numbers use_special_chars : bool)
  : result (list ascii * list ascii * nat) :=
  acc ← add_class r use_lowercase PasswordGenerator.lowercase ([], [], 0%nat);
  acc ← add_class r use_uppercase PasswordGenerator.uppercase acc;
  acc ← add_class r use_numbers PasswordGenerator.numbers acc;
  add_class r use_special_chars PasswordGenerator.special_chars acc.

(** The two exclusion blocks, applied alike to the character set and to
    the required characters. *)
Definition exclusions (exclude_ambiguous : bool) (exclude_chars : option string)
    (l : list ascii) : list ascii :=
  let l :=
    if exclude_ambiguous then without PasswordGenerator.ambiguous_chars l
    else l in
  if truthy_str exclude_chars then without (default EmptyString exclude_chars) l
  else l.

Definition generate_password (r : rng) (length : Z)
    (use_lowercase use_uppercase use_numbers use_special_chars
     exclude_ambiguous : bool) (exclude_chars : option string)
  : result string :=
  if length <? 4 then
    Raise (mkExn ValueError "Длина пароля должна быть не менее 4 символов")
  else
    acc ← classes r use_lowercase use_uppercase use_numbers use_special_chars;
    let '(charset, required_chars, k) := acc in
    match charset with
    | [] =>
        Raise (mkExn ValueError "Должен быть выбран хотя бы один тип символов")
    | _ :: _ =>
        let charset := exclusions exclude_ambiguous exclude_chars charset in
        let required_chars :=
          exclusions exclude_ambiguous exclude_chars required_chars in
        if (List.length charset =? 0)%nat then
          Raise (mkExn ValueError
                   "После исключений не осталось символов для генерации")
        else if Z.of_nat (List.length required_chars) >? length then
          Raise (mkExn ValueError
                   "Длина пароля слишком мала для всех требуемых типов символов")
        else
          let remaining_length :=
            Z.to_nat (length - Z.of_nat (List.length required_chars)) in
          random_chars ← choices r k remaining_length charset;
          let password_list := required_chars ++ random_chars in
          Ok (string_of_list_ascii
                (shuffle r (k + remaining_length)
                   (List.length password_list - 1) password_list))
    end.

(** [generate_multiple_passwords(count, **kwargs)]: [streams n] is the
    randomness of the [n]-th password. *)
Definition generate_multiple_passwords (streams : nat -> rng) (count : Z)
    (length : Z)
    (use_lowercase use_uppercase use_numbers use_special_chars
     exclude_ambiguous : bool) (exclude_chars : option string)
  : result (list string) :=
  History.traverse
    (fun n => generate_password (streams n) length use_lowercase use_uppercase
                use_numbers use_special_chars exclude_ambiguous exclude_chars)
    (seq 0 (Z.to_nat count)).

(** The characters the four class flags select. *)
Definition selected (use_lowercase use_uppercase use_numbers
    use_special_chars : bool) : list ascii :=
  (if use_lowercase then chars PasswordGenerator.lowercase else [])
  ++ (if use_uppercase then chars PasswordGenerator.uppercase else [])
  ++ (if use_numbers then chars PasswordGenerator.numbers else [])
  ++ (if use_special_chars then chars PasswordGenerator.special_chars else []).

(** Whether the exclusion blocks remove the character [c]. *)
Definition excluded (exclude_ambiguous : bool) (exclude_chars : option string)
    (c : ascii) : bool :=
  (exclude_ambiguous && PasswordGenerator.char_in PasswordGenerator.ambiguous_chars c)
  || (truthy_str exclude_chars
      && PasswordGenerator.char_in (default EmptyString exclude_chars) c).

End PasswordGeneration.

(** ** [diagnose_steam]: the checks on the shared secret *)

Module Diagnose.

Inductive step_status := STEP_INFO | STEP_SUCCESS | STEP_ERROR | STEP_WARNING.

(** What [print_step] was called with, in order. *)
Definition printed : Type := list (step_status * string).

Definition check_shared_secret (shared_secret : string) : bool * printed :=
  match Base64.b64decode shared_secret with
  | Ok decoded =>
      (true,
       [(STEP_INFO, "Проверка shared_secret...")]
       ++ (if negb (length decoded =? 20)%nat
           then [(STEP_WARNING,
                  "shared_secret имеет неправильную длину после декодирования")]
           else [])
       ++ [(STEP_SUCCESS,
            "shared_secret корректен (длина: "
            +:+ PyFormat.str_int (Z.of_nat (length decoded)) +:+ " байт)")])
  | Raise e =>
      (false,
       [(STEP_INFO, "Проверка shared_secret...");
        (STEP_ERROR,
         "shared_secret имеет неправильный формат base64: " +:+ exn_msg e);
        (STEP_WARNING,
         "Убедитесь, что вы скопировали shared_secret правильно из .maFile")])
  end.

(** [now] is what [int(time.time())] returns. *)
Definition test_steam_guard_code (now : Z) (shared_secret : string)
  : bool * printed :=
  match SteamAuthenticator.generate_auth_code now shared_secret None with
  | Ok code =>
      (true,
       [(STEP_INFO, "Тестирование генерации Steam Guard кода...");
        (STEP_SUCCESS, "Steam Guard код: " +:+ code);
        (STEP_INFO,
         "Проверьте, совпадает ли этот код с кодом в вашем Steam Guard")])
  | Raise e =>
      (false,
       [(STEP_INFO, "Тестирование генерации Steam Guard кода...");
        (STEP_ERROR, "Ошибка генерации Steam Guard кода: " +:+ exn_msg e)])
  end.

End Diagnose.

(** ** [main.SteamPasswordManager] *)

Module SteamPasswordManager.
Import Config History.

(** The two questions of [create_initial_config] about the rotation, each
    answered by a line of text; an empty answer stands for the default.
    One [try] covers both conversions. *)
Definition change_settings {lib : Library} (interval_answer length_answer : string)
  : result (Z * Z) :=
  let or_default (answer fallback : string) :=
    if String.eqb answer EmptyString then fallback else answer in
  match
    (interval_hours ← py_int (or_default interval_answer "24");
     password_length ← py_int (or_default length_answer "16");
     Ok (interval_hours, password_length))
  with
  | Ok settings => Ok settings
  | Raise e =>
      match exn_cls e with
      | ValueError => Ok (24, 16)
      | _ => Raise e
      end
  end.

(** The Steam identifier: the default when the answer is not a number. *)
Definition steamid_setting {lib : Library} (answer : string) : result Z :=
  match py_int answer with
  | Ok n => Ok n
  | Raise e =>
      match exn_cls e with
      | ValueError => Ok 76561198000000000
      | _ => Raise e
      end
  end.

(** The configuration [create_initial_config] writes, from the answers
    typed in, in the order they are asked. *)
Definition initial_config {lib : Library}
    (steam_login steam_password shared_secret identity_secret device_id
     steamid_answer interval_answer length_answer : string)
  : result Config.config :=
  steamid ← steamid_setting steamid_answer;
  settings ← change_settings interval_answer length_answer;
  Ok {| account :=
          {| login := steam_login; password := steam_password;
             shared_secret := shared_secret;
             identity_secret := identity_secret; device_id := device_id;
             steamid := steamid |};
        change :=
          {| change_interval_hours := Some (fst settings);
             password_length := Some (snd settings);
             use_lowercase := Some true; use_uppercase := Some true;
             use_numbers := Some true; use_special_chars := Some true;
             exclude_ambiguous := Some true |};
        sec := {| max_password_history := Some 10 |};
        notif :=
          {| enable_notifications := Some true;
             notify_on_success := Some true; notify_on_error := Some true;
             notification_method := Some "console" |} |}.

(** What [force_password_change] tells the user once the run is over. *)
Inductive verdict :=
| Changed                              (* the check mark *)
| Failed (details : option string)     (* the cross, with the error text *)
| Unknown.                             (* no information *)

(** The verdict is read off [get_last_change]. *)
Definition verdict_of (h : PasswordHistory) : verdict :=
  match get_last_change h with
  | Some last_record =>
      if success last_record then Changed
      else Failed (if truthy_str (error_message last_record)
                   then error_message last_record else None)
  | None => Unknown
  end.

(** [force_password_change]: the scheduler has just been built; the run is
    started on the answer [y] and is over when the history is read. *)
Definition force_password_change {lib : Library} (E : env) (confirm : string)
    (s : SteamPasswordScheduler.scheduler)
  : option verdict * SteamPasswordScheduler.scheduler * list event :=
  if negb (String.eqb confirm "y" || String.eqb confirm "Y") then (None, s, [])
  else
    let '(_, s', tr) := SteamPasswordScheduler.force_password_change E s in
    (Some (verdict_of (SteamPasswordScheduler.password_history s')), s', tr).

End SteamPasswordManager.

(** ** Vocabulary of the statements *)


(** What one [if use_...:] block of [generate_password] requires: one
    character of the class when the class is used, nothing otherwise. *)
Definition required_of (use : bool) (class : string) (cs : list ascii) : Prop :=
  if use then exists c, cs = [c] /\ In c (PasswordGeneration.chars class)
  else cs = [].

(** ** The client's answers, read off the replies of the service *)

Module ClientSpec.
Section with_world.
Context {lib : Library} (E : env).

(** What the login request carries as password: the ciphertext, or the
    empty text when the encryption failed. *)
Definition encrypted_password (password : string) (key : rsa_reply) : string :=
  match rsa_encrypt E password (publickey_mod key) (publickey_exp key) with
  | Ok encrypted => encrypted
  | Raise _ => EmptyString
  end.

(** The replies under which a login is accepted: a key, then a login reply
    that reports success and completion and does not offer an empty list
    of transfer URLs. *)
Definition login_accepted (username password auth_code : string) : bool :=
  match getrsakey (remote E) username with
  | Ok key =>
      rsa_success key
      && match dologin (remote E) username (encrypted_password password key)
                 auth_code (rsa_timestamp key) with
         | Ok reply =>
             login_success reply && login_complete reply
             && match transfer_urls reply with
                | Some [] => false
                | _ => true
                end
         | Raise _ => false
         end
  | Raise _ => false
  end.

(** The requests a login may send. *)
Definition login_request (username password auth_code : string) (r : request)
  : bool :=
  match r with
  | GetRsaKey u => String.eqb u username
  | DoLogin u pw code ts =>
      match getrsakey (remote E) username with
      | Ok key =>
          String.eqb u username
          && String.eqb pw (encrypted_password password key)
          && String.eqb code auth_code
          && String.eqb ts (rsa_timestamp key)
      | Raise _ => false
      end
  | GetTransfer _ => true
  | GetChangePage | SubmitChange _ _ _ _ => false
  end.

(** The replies under which a change of password is accepted for the
    session [sessionid]: the page with a token, then a submit answered 200
    with success. *)
Definition change_accepted (sessionid current_password new_password : string)
  : bool :=
  match change_page (remote E) with
  | Ok page =>
      (page_status page =? 200)
      && match page_text page with
         | Ok page_content =>
             let csrf_token :=
               SteamWebClient._extract_csrf_token page_content in
             truthy_str csrf_token
             && match change_submit (remote E) sessionid current_password
                        new_password (default EmptyString csrf_token) with
                | Ok reply =>
                    (submit_status reply =? 200)
                    && match submit_json reply with
                       | Ok body => change_success body
                       | Raise _ => false
                       end
                | Raise _ => false
                end
         | Raise _ => false
         end
  | Raise _ => false
  end.

End with_world.

(** An event of the client itself: a log line or a request. *)
Definition client_event (ev : event) : bool :=
  match ev with
  | Log _ _ _ | Request _ => true
  | SessionOpened | SessionClosed => false
  end.

Definition is_log (ev : event) : bool :=
  match ev with
  | Log _ _ _ => true
  | _ => false
  end.

(** The requests a change of password may send for the session
    [sessionid]. *)
Definition change_request (sessionid current_password new_password : string)
    (r : request) : bool :=
  match r with
  | GetChangePage => true
  | SubmitChange sid old new _ =>
      String.eqb sid sessionid && String.eqb old current_password
      && String.eqb new new_password
  | _ => false
  end.

Definition is_submit (r : request) : bool :=
  match r with
  | SubmitChange _ _ _ _ => true
  | _ => false
  end.

End ClientSpec.

(** * Properties

    The numbered properties C1 to C10 are stated next to the lemmas they
    rest on; a theorem with hypotheses is followed by an instance on a
    concrete world of [Sample]. *)

(** ** Bytes and digests *)

Lemma be_bytes_length n v : length (Bytes.be_bytes n v) = n.
Proof.
  revert v; induction n as [|n IH]; intros v; simpl; [reflexivity|].
  rewrite length_app, IH; simpl; lia.
Qed.

Lemma sha1_length msg : length (Sha1.sha1 msg) = 20%nat.
Proof.
  unfold Sha1.sha1.
  destruct (Sha1.blocks _ _ _) as [[[[h0 h1] h2] h3] h4].
  unfold Sha1.digest_of. rewrite !length_app, !be_bytes_length. reflexivity.
Qed.

Lemma hmac_sha1_length key msg : length (Hmac.hmac_sha1 key msg) = 20%nat.
Proof. unfold Hmac.hmac_sha1. apply sha1_length. Qed.

(** The hash functions on their published test vectors (FIPS 180-4,
    RFC 2202, RFC 4226). *)
Example sha1_abc :
  Bytes.be_int (Sha1.sha1 (encode_utf8 "abc"))
  = 0xa9993e364706816aba3e25717850c26c9cd0d89d.
Proof. vm_compute. reflexivity. Qed.

Example sha256_abc :
  Sha256.hexdigest (Sha256.sha256 (encode_utf8 "abc"))
  = "ba7816bf8f01cfea414140de5dae2223b00361a396177a9cb410ff61f20015ad".
Proof. vm_compute. reflexivity. Qed.

Example hmac_sha1_rfc2202_case_1 :
  Bytes.be_int (Hmac.hmac_sha1 (repeat 0x0b 20) (encode_utf8 "Hi There"))
  = 0xb617318655057264e28bc0b6fb378c8ef146be00.
Proof. vm_compute. reflexivity. Qed.

Example hmac_sha1_rfc2202_long_key :
  Bytes.be_int
    (Hmac.hmac_sha1 (repeat 0xaa 80)
       (encode_utf8 "Test Using Larger Than Block-Size Key - Hash Key First"))
  = 0xaa4ae5e15272d00e95705637ce8a3b55ed402112.
Proof. vm_compute. reflexivity. Qed.

Example hmac_sha1_rfc4226_count_0 :
  Bytes.be_int
    (Hmac.hmac_sha1 (encode_utf8 "12345678901234567890") (Bytes.be_bytes 8 0))
  = 0xcc93cf18508d94934c64b65d8ba7667fb7cde4b0.
Proof. vm_compute. reflexivity. Qed.

Example b64decode_rfc4226_key :
  Base64.b64decode "MTIzNDU2Nzg5MDEyMzQ1Njc4OTA="
  = Ok (encode_utf8 "12345678901234567890").
Proof. vm_compute. reflexivity. Qed.

Example b64decode_incorrect_padding :
  Base64.b64decode "MTIzNDU2Nzg5MDEyMzQ1Njc4OTA"
  = Raise (mkExn BinasciiError "Incorrect padding").
Proof. vm_compute. reflexivity. Qed.

Lemma land_15 z : Z.land z 0x0F = z mod 16.
Proof. change 0x0F with (Z.ones 4). rewrite Z.land_ones by lia. reflexivity. Qed.

Lemma land_31_bits z : Z.land z 0x7FFFFFFF = z mod 2 ^ 31.
Proof. change 0x7FFFFFFF with (Z.ones 31). rewrite Z.land_ones by lia. reflexivity. Qed.

(** A list of twenty elements, spelled out. *)
Lemma length_20_inv (d : list Z) :
  length d = 20%nat ->
  exists a0 a1 a2 a3 a4 a5 a6 a7 a8 a9 b0 b1 b2 b3 b4 b5 b6 b7 b8 b9,
    d = [a0; a1; a2; a3; a4; a5; a6; a7; a8; a9;
         b0; b1; b2; b3; b4; b5; b6; b7; b8; b9].
Proof.
  intros H.
  do 20 (destruct d as [|? d]; [discriminate H|]).
  destruct d; [|discriminate H].
  repeat eexists.
Qed.

Local Ltac trunc_case :=
  cbv [Z.to_nat Pos.to_nat Pos.iter_op Nat.add nth Bytes.slice4 firstn skipn
       Bytes.struct_unpack_I length Nat.eqb mbind result_bind
       Bytes.be_int fold_left];
  rewrite land_31_bits; do 2 f_equal; lia.

(** On a 20-byte digest the truncation of the source never fails and reads
    what the specification describes. *)
Lemma truncation_agrees (d : list Z) :
  length d = 20%nat ->
  (last_byte ← Bytes.index_last d;
   Bytes.struct_unpack_I (Bytes.slice4 (Z.land last_byte 0x0F) d)
     ≫= (fun word => Ok (Z.land word 0x7FFFFFFF)))
  = Ok (CodeGeneratorSpec.dynamic_truncation d).
Proof.
  intros H.
  destruct (length_20_inv d H)
    as (a0&a1&a2&a3&a4&a5&a6&a7&a8&a9&b0&b1&b2&b3&b4&b5&b6&b7&b8&b9&->).
  unfold CodeGeneratorSpec.dynamic_truncation.
  cbn [Bytes.index_last List.last mbind result_bind nth].
  rewrite land_15.
  assert (Hr : 0 <= b9 mod 16 < 16) by (apply Z.mod_pos_bound; lia).
  set (o := b9 mod 16) in *.
  assert (Ho : o = 0 \/ o = 1 \/ o = 2 \/ o = 3 \/ o = 4 \/ o = 5 \/ o = 6
               \/ o = 7 \/ o = 8 \/ o = 9 \/ o = 10 \/ o = 11 \/ o = 12
               \/ o = 13 \/ o = 14 \/ o = 15) by lia.
  clearbody o.
  repeat (destruct Ho as [-> | Ho]; [trunc_case |]).
  subst o. trunc_case.
Qed.

Lemma counter_bytes_agree c :
  Bytes.be_bytes 8 c = CodeGeneratorSpec.counter_bytes c.
Proof.
  unfold CodeGeneratorSpec.counter_bytes. cbn [Bytes.be_bytes app].
  rewrite !Z.div_div by lia. reflexivity.
Qed.

(** ** Decimal text *)

Lemma digits_loop_length fuel : forall n acc (k : nat),
  0 <= n < 10 ^ Z.of_nat k -> (1 <= k)%nat ->
  (length (PyFormat.digits_loop fuel n acc) <= k + length acc)%nat.
Proof.
  induction fuel as [|fuel IH]; intros n acc k Hn Hk; cbn [PyFormat.digits_loop].
  - lia.
  - destruct (Z.ltb_spec n 10) as [Hlt|Hge]; [simpl; lia|].
    destruct k as [|[|k]]; [lia | simpl in Hn; lia |].
    specialize (IH (n / 10) (PyFormat.digit_char (n mod 10) :: acc) (S k)).
    simpl length in IH.
    assert (0 <= n / 10 < 10 ^ Z.of_nat (S k)).
    { replace (Z.of_nat (S (S k))) with (Z.of_nat (S k) + 1) in Hn by lia.
      rewrite Z.pow_add_r, Z.pow_1_r in Hn by lia.
      split; [apply Z.div_pos; lia | apply Z.div_lt_upper_bound; lia]. }
    specialize (IH ltac:(assumption) ltac:(lia)). lia.
Qed.

Lemma digit_char_is_digit d :
  0 <= d < 10 -> PyFormat.is_digit (PyFormat.digit_char d) = true.
Proof.
  intros Hd. unfold PyFormat.is_digit, PyFormat.digit_char.
  rewrite nat_ascii_embedding by lia.
  apply andb_true_intro; split; apply Nat.leb_le; lia.
Qed.

Lemma digits_loop_all_digits fuel : forall n acc,
  0 <= n -> forallb PyFormat.is_digit acc = true ->
  forallb PyFormat.is_digit (PyFormat.digits_loop fuel n acc) = true.
Proof.
  induction fuel as [|fuel IH]; intros n acc Hn Hacc; cbn [PyFormat.digits_loop].
  - exact Hacc.
  - assert (Hd : forallb PyFormat.is_digit
                   (PyFormat.digit_char (n mod 10) :: acc) = true).
    { cbn [forallb]. rewrite digit_char_is_digit, Hacc; [reflexivity|].
      apply Z.mod_pos_bound; lia. }
    destruct (n <? 10); [exact Hd|].
    apply IH; [apply Z.div_pos; lia | exact Hd].
Qed.

Lemma digit_char_value d : 0 <= d < 10 -> Base64.code (PyFormat.digit_char d) - 48 = d.
Proof.
  intros Hd. unfold Base64.code, PyFormat.digit_char.
  rewrite nat_ascii_embedding by lia. lia.
Qed.

Lemma digits_loop_value fuel : forall n acc,
  0 <= n < 10 ^ Z.of_nat fuel ->
  CodeGeneratorSpec.decimal_value (PyFormat.digits_loop fuel n acc) 0 = CodeGeneratorSpec.decimal_value acc n.
Proof.
  induction fuel as [|fuel IH]; intros n acc Hn; cbn [PyFormat.digits_loop].
  - change (10 ^ Z.of_nat 0) with 1 in Hn. replace n with 0 by lia. reflexivity.
  - assert (Hm : 0 <= n mod 10 < 10) by (apply Z.mod_pos_bound; lia).
    destruct (Z.ltb_spec n 10) as [Hlt|Hge].
    + unfold CodeGeneratorSpec.decimal_value; cbn [fold_left].
      rewrite digit_char_value by lia. rewrite Z.mod_small by lia.
      reflexivity.
    + rewrite IH.
      * unfold CodeGeneratorSpec.decimal_value; cbn [fold_left].
        rewrite digit_char_value by lia.
        f_equal. pose proof (Z.div_mod n 10). lia.
      * replace (Z.of_nat (S fuel)) with (Z.of_nat fuel + 1) in Hn by lia.
        rewrite Z.pow_add_r, Z.pow_1_r in Hn by lia.
        split; [apply Z.div_pos; lia | apply Z.div_lt_upper_bound; lia].
Qed.

(** The fuel of [digits] always suffices: the text denotes the number. *)
Lemma digits_value n : 0 <= n -> CodeGeneratorSpec.decimal_value (PyFormat.digits n) 0 = n.
Proof.
  intros Hn. unfold PyFormat.digits. rewrite digits_loop_value; [reflexivity|].
  split; [lia|].
  destruct (Z.eq_dec n 0) as [->|Hnz]; [reflexivity|].
  pose proof (Z.log2_spec n ltac:(lia)) as [_ Hlog].
  pose proof (Z.log2_nonneg n).
  rewrite Nat2Z.inj_succ, Z2Nat.id by lia.
  eapply Z.lt_le_trans; [exact Hlog|].
  apply Z.pow_le_mono_l. lia.
Qed.

Lemma format_05d_shape n :
  0 <= n < 1000000 ->
  let cs := list_ascii_of_string (PyFormat.format_05d n) in
  (5 <= length cs <= 6)%nat /\ forallb PyFormat.is_digit cs = true.
Proof.
  intros Hn cs. subst cs. unfold PyFormat.format_05d.
  rewrite list_ascii_of_string_of_list_ascii.
  unfold PyFormat.sign_chars.
  destruct (Z.ltb_spec n 0) as [Hneg|_]; [lia|].
  rewrite Z.abs_eq by lia. cbn [app length].
  pose proof (digits_loop_length (S (Z.to_nat (Z.log2 n))) n [] 6
                ltac:(simpl; lia) ltac:(lia)) as Hlen.
  fold (PyFormat.digits n) in Hlen. simpl length in Hlen.
  split.
  - rewrite length_app, repeat_length. lia.
  - rewrite forallb_app. apply andb_true_intro; split.
    + apply forallb_forall. intros c Hc. apply repeat_spec in Hc. subst c.
      reflexivity.
    + apply digits_loop_all_digits; [lia | reflexivity].
Qed.

Lemma string_of_list_ascii_length (l : list ascii) :
  String.length (string_of_list_ascii l) = length l.
Proof. induction l as [|c l IH]; simpl; congruence. Qed.

Lemma format_05d_zero_pad n :
  0 <= n ->
  PyFormat.format_05d n = CodeGeneratorSpec.zero_pad 5 (PyFormat.str_int n).
Proof.
  intros Hn.
  unfold PyFormat.format_05d, CodeGeneratorSpec.zero_pad, PyFormat.str_int.
  unfold PyFormat.sign_chars.
  destruct (Z.ltb_spec n 0) as [Hneg|_]; [lia|].
  cbn [app length].
  rewrite list_ascii_of_string_of_list_ascii, string_of_list_ascii_length.
  rewrite Nat.sub_0_r. reflexivity.
Qed.

(** ** The one-time code *)

Section generate_auth_code.
Import SteamAuthenticator.
Variable now : Z.

Lemma generate_auth_code_decoded secret key t :
  Base64.b64decode secret = Ok key ->
  0 <= t / 30 < 2 ^ 64 ->
  generate_auth_code now secret (Some t)
  = Ok (PyFormat.format_05d
          (CodeGeneratorSpec.dynamic_truncation
             (Hmac.hmac_sha1 key (Bytes.be_bytes 8 (t / 30))) mod 1000000)).
Proof.
  intros Hkey Ht. unfold generate_auth_code. cbv zeta. rewrite Hkey.
  unfold Bytes.struct_pack_Q.
  destruct (Z.leb_spec 0 (t / 30)); [|lia].
  destruct (Z.ltb_spec (t / 30) (2 ^ 64)); [|lia].
  cbn [andb mbind result_bind].
  pose proof (truncation_agrees _
                (hmac_sha1_length key (Bytes.be_bytes 8 (t / 30)))) as Htr.
  destruct (Bytes.index_last _) as [lb|e]; cbn [mbind result_bind] in Htr |- *;
    [|discriminate Htr].
  destruct (Bytes.struct_unpack_I _) as [w|e]; cbn [mbind result_bind] in Htr |- *;
    [|discriminate Htr].
  injection Htr as ->. reflexivity.
Qed.

Lemma generate_auth_code_undecodable secret e t :
  Base64.b64decode secret = Raise e ->
  generate_auth_code now secret (Some t)
  = Raise (mkExn ValueError ("Неверный формат shared_secret: " +:+ exn_msg e)).
Proof. intros He. unfold generate_auth_code. rewrite He. reflexivity. Qed.

(** The code is a function of the secret and of the 30-second counter. *)
Lemma generate_auth_code_same_window secret t1 t2 :
  t1 / 30 = t2 / 30 ->
  generate_auth_code now secret (Some t1) = generate_auth_code now secret (Some t2).
Proof. intros H. unfold generate_auth_code. cbv zeta. rewrite H. reflexivity. Qed.

(** For a decodable secret and a counter that fits 64 bits a code comes out,
    made of five or six decimal digits. *)
Lemma generate_auth_code_shape secret key t :
  Base64.b64decode secret = Ok key ->
  0 <= t / 30 < 2 ^ 64 ->
  exists code,
    generate_auth_code now secret (Some t) = Ok code /\
    (5 <= String.length code <= 6)%nat /\
    forallb PyFormat.is_digit (list_ascii_of_string code) = true.
Proof.
  intros Hkey Ht. eexists. split; [apply generate_auth_code_decoded; eassumption|].
  match goal with |- context [PyFormat.format_05d ?n] =>
    pose proof (format_05d_shape n ltac:(apply Z.mod_pos_bound; lia)) as [Hl Hd]
  end.
  split; [|exact Hd].
  rewrite <- (string_of_list_ascii_of_string (PyFormat.format_05d _)).
  rewrite string_of_list_ascii_length. exact Hl.
Qed.

End generate_auth_code.

(** C8. For every secret and every timestamp [t], the code generated for [t]
    is the code generated for the start of its 30-second window,
    [t - (t mod 30)]; this covers the secrets that do not decode and the
    timestamps that do not pack, where both calls raise the same exception. *)
Theorem generate_auth_code_window_start (now : Z) (secret : string) (t : Z) :
  SteamAuthenticator.generate_auth_code now secret (Some t)
  = SteamAuthenticator.generate_auth_code now secret (Some (t - t mod 30)).
Proof.
  apply generate_auth_code_same_window.
  pose proof (Z.div_mod t 30 ltac:(lia)) as Hdm.
  replace (t - t mod 30) with (t / 30 * 30) by lia.
  symmetry. apply Z.div_mul. lia.
Qed.

(** C9. For every secret and every timestamp whose 30-second counter fits
    the 8-byte encoding, the Python function computes exactly the documented
    algorithm: big-endian counter of [t / 30], HMAC-SHA1 under the decoded
    secret (20 bytes), dynamic truncation at the low nibble of the last
    byte, sign bit masked, reduction modulo 1,000,000, zero padding to at
    least five digits; and a secret that does not decode makes it raise
    [ValueError]. *)
Theorem generate_auth_code_refines_spec (now : Z) (secret : string) (t : Z) :
  0 <= t -> t / 30 < 2 ^ 64 ->
  CodeGeneratorSpec.observe
    (SteamAuthenticator.generate_auth_code now secret (Some t))
  = Some (CodeGeneratorSpec.generate secret t)
  /\ (forall key,
        length (Hmac.hmac_sha1 key (CodeGeneratorSpec.counter_bytes (t / 30)))
        = 20%nat).
Proof.
  intros H0 Hhi. split; [|intros key; apply hmac_sha1_length].
  assert (Ht : 0 <= t / 30 < 2 ^ 64) by (split; [apply Z.div_pos; lia | lia]).
  unfold CodeGeneratorSpec.generate.
  destruct (Base64.b64decode secret) as [key|e] eqn:Hkey.
  - rewrite (generate_auth_code_decoded now secret key t Hkey Ht).
    cbn [CodeGeneratorSpec.observe].
    rewrite counter_bytes_agree.
    rewrite format_05d_zero_pad; [reflexivity|].
    apply Z.mod_pos_bound; lia.
  - rewrite (generate_auth_code_undecodable now secret e t Hkey). reflexivity.
Qed.

Lemma generate_auth_code_refines_spec_witness :
  CodeGeneratorSpec.observe
    (SteamAuthenticator.generate_auth_code 0 "MTIzNDU2Nzg5MDEyMzQ1Njc4OTA="
       (Some 59))
  = Some (CodeGeneratorSpec.generate "MTIzNDU2Nzg5MDEyMzQ1Njc4OTA=" 59)
  /\ (forall key,
        length (Hmac.hmac_sha1 key (CodeGeneratorSpec.counter_bytes (59 / 30)))
        = 20%nat).
Proof.
  apply (generate_auth_code_refines_spec 0 "MTIzNDU2Nzg5MDEyMzQ1Njc4OTA=" 59);
    [lia | vm_compute; reflexivity].
Defined.

(** The secret of [test_system.py], at timestamp 0: five characters, the
    first one a padding zero. *)
Example generate_auth_code_padded :
  SteamAuthenticator.generate_auth_code 0
    "dGVzdF9zaGFyZWRfc2VjcmV0X2Zvcl90ZXN0aW5nXzEyMzQ1" (Some 0)
  = Ok "05731".
Proof. vm_compute. reflexivity. Qed.

(** C2. The RFC 4226 test key [12345678901234567890] at timestamp 0: the
    function returns the six digits [755224], while its docstring and
    [test_system.py] promise a code of exactly five. *)
Theorem generate_auth_code_six_digits :
  SteamAuthenticator.generate_auth_code 0 "MTIzNDU2Nzg5MDEyMzQ1Njc4OTA=" (Some 0)
  = Ok "755224"
  /\ String.length "755224" = 6%nat.
Proof. split; vm_compute; reflexivity. Qed.

(** ** The history *)

Section history.
Import History RotationSpec.

Lemma save_history_run w h :
  exists tr,
    save_history w h
    = (Ok tt,
       set_history_file
         (snd (write_file w
                 (JList (map to_dict (retained (max_records h) (records h))))
                 (history_file h)))
         (set_records (retained (max_records h) (records h)) h),
       tr)
    /\ requests tr = [] /\ session_opened tr = false.
Proof.
  unfold save_history, retained, try_except, mbind, M_bind, get, put, mret, M_ret,
    lift_result, emit.
  destruct (Z.of_nat (length (records h)) >? max_records h);
    destruct w; simpl; eexists; (split; [reflexivity | split; reflexivity]).
Qed.

Lemma add_record_run r w h :
  exists tr,
    add_record r w h
    = (Ok tt,
       set_history_file
         (snd (write_file w
                 (JList (map to_dict
                           (retained (max_records h) (records h ++ [r]))))
                 (history_file h)))
         (set_records (retained (max_records h) (records h ++ [r])) h),
       tr)
    /\ requests tr = [] /\ session_opened tr = false.
Proof.
  unfold add_record. unfold mbind at 1 2, M_bind, get, put.
  destruct (save_history_run w (set_records (records h ++ [r]) h))
    as (tr & Hrun & Hreq & Hses).
  rewrite Hrun. simpl. eexists. split; [reflexivity | split; assumption].
Qed.

Lemma retained_keep_last (n : Z) (l : list PasswordChangeRecord) :
  1 <= n -> retained n l = keep_last (Z.to_nat n) l.
Proof.
  intros Hn. unfold retained, keep_last, slice_from.
  destruct (Z.gtb_spec (Z.of_nat (length l)) n) as [Hgt|Hle].
  - destruct (Z.ltb_spec (- n) 0) as [_|Hc]; [|lia].
    f_equal. lia.
  - replace (length l - Z.to_nat n)%nat with 0%nat by lia. reflexivity.
Qed.

Lemma keep_last_length {A} (n : nat) (l : list A) :
  (length (keep_last n l) <= n)%nat.
Proof. unfold keep_last. rewrite length_drop. lia. Qed.

Lemma keep_last_app {A} (n : nat) (l rest : list A) :
  keep_last n (keep_last n l ++ rest) = keep_last n (l ++ rest).
Proof.
  unfold keep_last.
  rewrite !length_app, length_drop.
  destruct (Nat.le_gt_cases (length l) n) as [Hle|Hgt].
  - replace (length l - n)%nat with 0%nat by lia.
    rewrite drop_0, Nat.sub_0_r. reflexivity.
  - rewrite <- (drop_app_le l rest (length l - n)) by lia.
    rewrite drop_drop. f_equal. lia.
Qed.

(** Under a bound of at least one, any sequence of appends ends without an
    exception and leaves the most recent records, in append order. *)
Lemma add_all_keep_last items : forall h,
  1 <= max_records h -> items <> [] ->
  exists h' tr,
    add_all items h = (Ok tt, h', tr)
    /\ max_records h' = max_records h
    /\ records h'
       = keep_last (Z.to_nat (max_records h)) (records h ++ map fst items).
Proof.
  induction items as [|[r w] items IH]; intros h Hn Hne; [congruence|].
  cbn [add_all]. unfold mbind, M_bind.
  destruct (add_record_run r w h) as (tr1 & Hrun & _). rewrite Hrun.
  set (h1 := set_history_file _ _).
  assert (Hmax : max_records h1 = max_records h) by reflexivity.
  assert (Hrec : records h1
                 = keep_last (Z.to_nat (max_records h)) (records h ++ [r])).
  { subst h1. cbn [records set_history_file set_records].
    apply retained_keep_last. exact Hn. }
  destruct items as [|item items'].
  - cbn [add_all mret M_ret map]. exists h1, (tr1 ++ []).
    split; [reflexivity|]. split; [exact Hmax|]. exact Hrec.
  - destruct (IH h1 ltac:(lia) ltac:(discriminate)) as (h' & tr & Hall & Hm & Hr).
    fold (add_all (item :: items')). rewrite Hall.
    exists h', (tr1 ++ tr). split; [reflexivity|]. split; [lia|].
    rewrite Hr, Hmax, Hrec, keep_last_app, <- app_assoc. reflexivity.
Qed.

Lemma add_all_bounded items h :
  1 <= max_records h -> items <> [] ->
  (Z.of_nat (length (records (snd (fst (add_all items h))))) <= max_records h).
Proof.
  intros Hn Hne.
  destruct (add_all_keep_last items h Hn Hne) as (h' & tr & Hall & _ & Hr).
  rewrite Hall. cbn [fst snd]. rewrite Hr.
  pose proof (keep_last_length (Z.to_nat (max_records h))
                (records h ++ map fst items)).
  lia.
Qed.

(** An append whose write goes through leaves on file exactly the records
    in memory. *)
Lemma add_record_persists r h :
  let h' := snd (fst (add_record r WriteOk h)) in
  history_file h' = Content (JList (map to_dict (records h'))).
Proof.
  destruct (add_record_run r WriteOk h) as (tr & Hrun & _).
  cbv zeta. rewrite Hrun. reflexivity.
Qed.

End history.

Section history_properties.
Import History RotationSpec.

(** C6. With the retention bound 0 nothing is ever dropped: after two
    appends the history holds, and has persisted, two records. *)
Theorem bound_zero_keeps_every_record :
  let h := snd (fst (add_all [(Sample.record_a, WriteOk);
                              (Sample.record_b, WriteOk)]
                       (Sample.empty_history 0))) in
  records h = [Sample.record_a; Sample.record_b]
  /\ history_file h = Content (JList [to_dict Sample.record_a; to_dict Sample.record_b])
  /\ (Z.of_nat (length (records h)) > max_records h).
Proof. vm_compute. repeat split. Qed.




(** What counts as corrupt content: a value that cannot be iterated, an
    element that is not an object, an unknown key, a missing field. *)
Example corrupt_not_iterable : corrupt (Content (JNum 7)) = true.
Proof. reflexivity. Qed.

Example corrupt_element_not_object :
  corrupt (Content (JList [to_dict Sample.record_a; JStr "x"])) = true.
Proof. reflexivity. Qed.

Example corrupt_unknown_key :
  corrupt (Content (JList [JDict [("timestamp", JStr "t");
                                  ("old_password_hash", JStr "a");
                                  ("new_password_hash", JStr "b");
                                  ("success", JBool true);
                                  ("note", JStr "n")]])) = true.
Proof. reflexivity. Qed.

Example corrupt_missing_field :
  corrupt (Content (JList [JDict [("timestamp", JStr "t");
                                  ("success", JBool true)]])) = true.
Proof. reflexivity. Qed.

(** What [save_history] wrote is read back as it was. *)
Lemma from_dict_to_dict r : from_dict (to_dict r) = Ok r.
Proof. destruct r as [t o n s [m|]]; reflexivity. Qed.


End history_properties.

Section failed_attempts.
Context {lib : Library}.
Import History RotationSpec.

Lemma get_failed_attempts_loop cutoff rs : forall acc,
  fold_left
    (fun failed_attempts record =>
       match fromisoformat (timestamp record) with
       | Some record_time =>
           if (cutoff <? record_time) && negb (success record)
           then failed_attempts ++ [record]
           else failed_attempts
       | None => failed_attempts
       end) rs acc
  = acc ++ List.filter (failed_since cutoff) rs.
Proof.
  induction rs as [|r rs IH]; intros acc; cbn [fold_left List.filter].
  - rewrite app_nil_r. reflexivity.
  - rewrite IH. unfold failed_since at 2.
    destruct (fromisoformat (timestamp r)) as [t|].
    + destruct (cutoff <? t), (success r); cbn [andb negb];
        rewrite <- ?app_assoc; reflexivity.
    + rewrite andb_false_r. reflexivity.
Qed.

Lemma get_failed_attempts_filter now hours h :
  get_failed_attempts now hours h
  = List.filter (failed_since (now - hours * 3600000000)) (records h).
Proof. unfold get_failed_attempts. apply get_failed_attempts_loop. Qed.

Lemma filter_length_le {A} (p q : A -> bool) (l : list A) :
  (forall x, p x = true -> q x = true) ->
  (length (List.filter p l) <= length (List.filter q l))%nat.
Proof.
  intros Hpq. induction l as [|x l IH]; cbn [List.filter]; [lia|].
  destruct (p x) eqn:Hp.
  - rewrite (Hpq x Hp). cbn [length]. lia.
  - destruct (q x); cbn [length]; lia.
Qed.

End failed_attempts.

(** When no record is dated after [now], the records returned are those
    of the window [(now - hours, now]]. *)
Lemma get_failed_attempts_within {lib : Library} (now hours : Z)
    (h : History.PasswordHistory) :
  Forall (fun r => match fromisoformat (History.timestamp r) with
                   | Some t => t <= now
                   | None => True
                   end) (History.records h) ->
  History.get_failed_attempts now hours h
  = List.filter (RotationSpec.failed_within now hours) (History.records h).
Proof.
  intros Hpast. rewrite get_failed_attempts_filter.
  induction Hpast as [|r rs Hr _ IH]; [reflexivity|].
  cbn [List.filter]. rewrite IH.
  replace (RotationSpec.failed_within now hours r)
    with (RotationSpec.failed_since (now - hours * 3600000000) r);
    [reflexivity|].
  unfold RotationSpec.failed_within, RotationSpec.failed_since.
  destruct (fromisoformat (History.timestamp r)) as [t|]; [|reflexivity].
  destruct (Z.leb_spec t now); [|lia].
  rewrite andb_true_r. reflexivity.
Qed.



(** ** The session client and the changer *)

Local Ltac unfold_monad :=
  unfold SteamPasswordScheduler.slog, SteamWebClient.elog;
  unfold mbind, M_bind, mret, M_ret, get, put, emit, lift_result, raise,
    try_except, zoom, http;
  cbv beta iota zeta.

Lemma requests_app tr1 tr2 : requests (tr1 ++ tr2) = requests tr1 ++ requests tr2.
Proof. unfold requests. apply flat_map_app. Qed.

Lemma requests_log who level msg tr :
  requests (Log who level msg :: tr) = requests tr.
Proof. reflexivity. Qed.

Lemma requests_nil : requests [] = [].
Proof. reflexivity. Qed.

Lemma session_opened_app tr1 tr2 :
  session_opened (tr1 ++ tr2) = session_opened tr1 || session_opened tr2.
Proof. unfold session_opened. apply existsb_app. Qed.

Lemma session_opened_log who level msg tr :
  session_opened (Log who level msg :: tr) = session_opened tr.
Proof. reflexivity. Qed.

Lemma session_opened_nil : session_opened [] = false.
Proof. reflexivity. Qed.

Create Rewrite HintDb trace.
#[local] Hint Rewrite requests_app requests_log requests_nil
  session_opened_app session_opened_log session_opened_nil
  app_nil_r orb_false_r : trace.

Section changer.
Context {lib : Library} (E : env).
Import Config.


Lemma changer_run new_password cfg :
  SteamPasswordChanger.change_password E new_password cfg
  = Cycle.changer_outcome E new_password cfg.
Proof.
  unfold SteamPasswordChanger.change_password, Cycle.changer_outcome,
    SteamPasswordChanger.with_client, SteamPasswordChanger.on_client,
    SteamPasswordChanger.on_config.
  unfold_monad. cbn [fst snd].
  destruct (SteamAuthenticator.generate_auth_code _ _ _) as [code|e];
    [|reflexivity].
  destruct (SteamWebClient.login E _ _ code SteamWebClient.entered)
    as [[[[|]|e] c] tr]; cbn [negb fst snd].
  - destruct (SteamWebClient.change_password E _ new_password c)
      as [[[[|]|e] c2] tr2]; cbn [fst snd app];
      rewrite <- ?app_assoc; cbn [app]; rewrite ?app_nil_r; reflexivity.
  - cbn [app]. rewrite <- ?app_assoc. rewrite ?app_nil_r. reflexivity.
  - cbn [app]. rewrite <- ?app_assoc. rewrite ?app_nil_r. reflexivity.
Qed.
End changer.

(** ** The engine *)

Section engine.
Context {lib : Library} (E : env).
Import Config History SteamPasswordScheduler Cycle.

Lemma changer_total new_password cfg :
  exists (b : bool) tr,
    SteamPasswordChanger.change_password E new_password cfg
    = (Ok b, if b then set_password new_password cfg else cfg, tr).
Proof.
  rewrite changer_run. unfold changer_outcome.
  destruct (SteamAuthenticator.generate_auth_code _ _ _) as [code|e];
    [|eexists false, _; reflexivity].
  destruct (SteamWebClient.login E _ _ code SteamWebClient.entered)
    as [[[[|]|e] c] tr]; try (eexists false, _; reflexivity).
  destruct (SteamWebClient.change_password E _ new_password c)
    as [[[[|]|e] c2] tr2];
    [eexists true, _ | eexists false, _ | eexists false, _]; reflexivity.
Qed.

Lemma save_config_run s :
  save_config E s = (Ok tt, config_saved E s, [save_config_log E]).
Proof.
  unfold save_config, save_config_log, config_saved. unfold_monad.
  destruct (config_write E); reflexivity.
Qed.

Lemma send_notification_run message s :
  send_notification message s = (Ok tt, s, notification (config s) message).
Proof.
  unfold send_notification, notification. unfold_monad.
  destruct (negb _); [reflexivity|].
  destruct (String.eqb _ _); reflexivity.
Qed.

Lemma add_history_record_run r s :
  exists tr,
    add_history_record E r s = (Ok tt, recorded E r s, tr)
    /\ requests tr = [] /\ session_opened tr = false.
Proof.
  unfold add_history_record, recorded, zoom.
  destruct (add_record_run r (history_write E) (password_history s))
    as (tr & Hrun & Hreq & Hses).
  rewrite Hrun. exists tr. split; [reflexivity | split; assumption].
Qed.

(** The breaker is open: the cycle logs and stops. *)
Lemma change_password_job_skipped s :
  breaker_open E s = true ->
  change_password_job E s
  = (Ok tt, s,
     [Log SchedulerLog INFO "Начинаем процедуру смены пароля";
      Log SchedulerLog WARNING
        "Слишком много неудачных попыток за последний час, пропускаем смену"]).
Proof.
  unfold breaker_open. intros Hopen.
  unfold change_password_job. unfold_monad. rewrite Hopen. reflexivity.
Qed.

(** The generator raises: the handler records the exception text. *)
Lemma change_password_job_generator_raises s e :
  breaker_open E s = false ->
  candidate E s = Raise e ->
  exists tr,
    change_password_job E s = (Ok tt, recorded E (exception_record E e) s, tr)
    /\ requests tr = [] /\ session_opened tr = false.
Proof.
  unfold breaker_open, candidate. intros Hopen Hgen.
  destruct (add_history_record_run (exception_record E e) s)
    as (tr_add & Hadd & Hreq & Hses).
  unfold change_password_job. unfold_monad. rewrite Hopen, Hgen.
  fold (exception_record E e). rewrite Hadd.
  destruct (default true (notify_on_error _)).
  - rewrite send_notification_run. eexists. split; [reflexivity|].
    unfold notification.
    destruct (negb _); [|destruct (String.eqb _ _)];
      autorewrite with trace; rewrite Hreq, Hses; split; reflexivity.
  - eexists. split; [reflexivity|].
    autorewrite with trace; rewrite Hreq, Hses; split; reflexivity.
Qed.

Lemma set_password_idem p cfg :
  set_password p (set_password p cfg) = set_password p cfg.
Proof. reflexivity. Qed.

Lemma set_config_same s : set_config (config s) s = s.
Proof. destruct s; reflexivity. Qed.

(** The changer answers [True]: record, new secret in memory, write of the
    configuration, the two success lines, whatever the write did. *)
Lemma change_password_job_changed s new_password tr_c :
  breaker_open E s = false ->
  candidate E s = Ok new_password ->
  SteamPasswordChanger.change_password E new_password (config s)
  = (Ok true, set_password new_password (config s), tr_c) ->
  exists tr_add,
    change_password_job E s
    = (Ok tt,
       config_saved E
         (recorded E (outcome_record E s new_password true)
            (set_config (set_password new_password (config s)) s)),
       [Log SchedulerLog INFO "Начинаем процедуру смены пароля";
        Log SchedulerLog INFO
          ("Сгенерирован пароль силой: "
           +:+ PasswordGenerator.strength
                 (PasswordGenerator.validate_password_strength new_password))]
       ++ tr_c ++ tr_add
       ++ [save_config_log E;
           Log SchedulerLog INFO "Пароль успешно изменен и сохранен"]
       ++ (if default true (notify_on_success (notif (config s)))
           then notification (config s) (success_message new_password)
           else []))
    /\ requests tr_add = [] /\ session_opened tr_add = false.
Proof.
  unfold breaker_open, candidate. intros Hopen Hgen Hch.
  destruct (add_history_record_run (outcome_record E s new_password true)
              (set_config (set_password new_password (config s)) s))
    as (tr_add & Hadd & Hreq & Hses).
  exists tr_add. split; [|split; assumption].
  unfold change_password_job. unfold_monad. rewrite Hopen, Hgen, Hch.
  fold (outcome_record E s new_password true). rewrite Hadd.
  cbn [config set_config recorded set_password_history].
  rewrite set_password_idem.
  match goal with |- context [save_config E ?x] =>
    replace x with (recorded E (outcome_record E s new_password true)
                      (set_config (set_password new_password (config s)) s))
      by reflexivity
  end.
  rewrite save_config_run.
  cbn [config config_saved set_config_file recorded set_password_history
       set_config notif set_password].
  destruct (default true (notify_on_success _)).
  - rewrite send_notification_run.
    cbn [config config_saved set_config_file recorded set_password_history
         set_config notif set_password notification].
    unfold success_message, notification.
    cbn [notif set_password app]. rewrite <- ?app_assoc. cbn [app].
    rewrite ?app_nil_r. reflexivity.
  - cbn [app]. rewrite <- ?app_assoc. cbn [app]. rewrite ?app_nil_r.
    reflexivity.
Qed.

(** The changer answers [False]: one failure record with the fixed text,
    nothing else changes. *)
Lemma change_password_job_refused s new_password tr_c :
  breaker_open E s = false ->
  candidate E s = Ok new_password ->
  SteamPasswordChanger.change_password E new_password (config s)
  = (Ok false, config s, tr_c) ->
  exists tr_add,
    change_password_job E s
    = (Ok tt,
       recorded E (outcome_record E s new_password false) s,
       [Log SchedulerLog INFO "Начинаем процедуру смены пароля";
        Log SchedulerLog INFO
          ("Сгенерирован пароль силой: "
           +:+ PasswordGenerator.strength
                 (PasswordGenerator.validate_password_strength new_password))]
       ++ tr_c ++ tr_add
       ++ [Log SchedulerLog ERROR "Не удалось изменить пароль Steam"]
       ++ (if default true (notify_on_error (notif (config s)))
           then notification (config s)
                  "ОШИБКА: Не удалось изменить пароль Steam"
           else []))
    /\ requests tr_add = [] /\ session_opened tr_add = false.
Proof.
  unfold breaker_open, candidate. intros Hopen Hgen Hch.
  destruct (add_history_record_run (outcome_record E s new_password false) s)
    as (tr_add & Hadd & Hreq & Hses).
  exists tr_add. split; [|split; assumption].
  unfold change_password_job. unfold_monad. rewrite Hopen, Hgen, Hch.
  rewrite set_config_same.
  fold (outcome_record E s new_password false). rewrite Hadd.
  cbn [config recorded set_password_history notif].
  destruct (default true (notify_on_error _)).
  - rewrite send_notification_run.
    cbn [config recorded set_password_history notif app].
    rewrite <- ?app_assoc. cbn [app]. rewrite ?app_nil_r. reflexivity.
  - cbn [app]. rewrite <- ?app_assoc. cbn [app]. rewrite ?app_nil_r.
    reflexivity.
Qed.

End engine.

(** ** Properties of the engine *)

Section engine_properties.
Import Config History SteamPasswordScheduler Cycle.

Lemma failed_within_failed_since {lib : Library} now hours r :
  RotationSpec.failed_within now hours r = true ->
  RotationSpec.failed_since (now - hours * 3600000000) r = true.
Proof.
  unfold RotationSpec.failed_within, RotationSpec.failed_since.
  destruct (negb (success r)); [|discriminate].
  destruct (fromisoformat (timestamp r)); [|discriminate].
  cbn [andb]. intros Hw. apply andb_true_iff in Hw as [Hw _]. exact Hw.
Qed.

Lemma breaker_open_of_recent_failures {lib : Library} E s :
  (3 <= length (List.filter (RotationSpec.failed_within (now_check E) 1)
                  (records (password_history s))))%nat ->
  breaker_open E s = true.
Proof.
  intros Hn. unfold breaker_open. apply Nat.leb_le.
  rewrite get_failed_attempts_filter.
  etransitivity; [exact Hn|].
  apply filter_length_le. intros r. apply failed_within_failed_since.
Qed.

(** C3. When the history holds at least three failures dated inside the
    hour that ends now, a scheduled cycle and a forced one both end without
    a network request and without opening a client session, and leave the
    scheduler as it was: the cycle stops before a password is generated. *)
Theorem breaker_skips_both_triggers {lib : Library} (E : env) (s : scheduler) :
  (3 <= length (List.filter (RotationSpec.failed_within (now_check E) 1)
                  (records (password_history s))))%nat ->
  (exists tr, scheduled_run E s = (Ok tt, s, tr)
              /\ requests tr = [] /\ session_opened tr = false)
  /\ (exists tr, force_password_change E s = (Ok tt, s, tr)
                 /\ requests tr = [] /\ session_opened tr = false).
Proof.
  intros Hn. pose proof (breaker_open_of_recent_failures E s Hn) as Hopen.
  pose proof (change_password_job_skipped E s Hopen) as Hjob.
  split.
  - unfold scheduled_run, run_async_job, try_except. rewrite Hjob.
    eexists. split; [reflexivity|]. split; reflexivity.
  - unfold force_password_change, run_async_job, try_except.
    unfold_monad. rewrite Hjob.
    eexists. split; [reflexivity|]. split; reflexivity.
Qed.

Lemma breaker_skips_both_triggers_witness :
  (exists tr, scheduled_run (lib:=Sample.library)
                (Sample.world Sample.accepting WriteOk) Sample.scheduler_tripped
              = (Ok tt, Sample.scheduler_tripped, tr)
              /\ requests tr = [] /\ session_opened tr = false)
  /\ (exists tr, force_password_change (lib:=Sample.library)
                   (Sample.world Sample.accepting WriteOk)
                   Sample.scheduler_tripped
                 = (Ok tt, Sample.scheduler_tripped, tr)
                 /\ requests tr = [] /\ session_opened tr = false).
Proof.
  apply (breaker_skips_both_triggers (lib:=Sample.library)).
  vm_compute. lia.
Defined.

(** C5, as the source has it.  When an attempt is made and fails, the cycle
    ends normally having added exactly one record, a failure, to the
    history; its error description is the text of the exception when the
    generator raised, and the fixed text "Неизвестная ошибка" when the
    changer answered [False]; the configuration in memory and the
    configuration file are as before. *)
Theorem failed_attempt_adds_one_failure_record {lib : Library} (E : env)
    (s : scheduler) :
  attempt_failed E s = true ->
  exists r tr,
    change_password_job E s = (Ok tt, recorded E r s, tr)
    /\ success r = false
    /\ error_message r = Some (recorded_error E s)
    /\ records (password_history (recorded E r s))
       = RotationSpec.retained (max_records (password_history s))
           (records (password_history s) ++ [r])
    /\ config (recorded E r s) = config s
    /\ config_file (recorded E r s) = config_file s.
Proof.
  unfold attempt_failed, recorded_error. intros Hf.
  apply andb_true_iff in Hf as [Hopen Hf].
  apply negb_true_iff in Hopen.
  destruct (candidate E s) as [new_password|e] eqn:Hgen.
  - destruct (changer_total E new_password (config s)) as (b & tr_c & Hch).
    rewrite Hch in Hf. destruct b; [discriminate Hf|].
    destruct (change_password_job_refused E s new_password tr_c Hopen Hgen Hch)
      as (tr_add & Hjob & _).
    eexists _, _. split; [exact Hjob|]. repeat split.
  - destruct (change_password_job_generator_raises E s e Hopen Hgen)
      as (tr & Hjob & _).
    eexists _, _. split; [exact Hjob|]. repeat split.
Qed.

Lemma failed_attempt_adds_one_failure_record_witness :
  let E := Sample.world Sample.login_times_out WriteOk in
  let s := Sample.scheduler0 in
  exists r tr,
    change_password_job (lib:=Sample.library) E s
    = (Ok tt, recorded E r s, tr)
    /\ success r = false
    /\ error_message r = Some (recorded_error E s)
    /\ records (password_history (recorded E r s))
       = RotationSpec.retained (max_records (password_history s))
           (records (password_history s) ++ [r])
    /\ config (recorded E r s) = config s
    /\ config_file (recorded E r s) = config_file s.
Proof.
  apply (failed_attempt_adds_one_failure_record (lib:=Sample.library)).
  vm_compute. reflexivity.
Defined.

(** The generator refuses the configured length: no request leaves, and
    the record carries the text of the exception. *)
Example short_password_is_recorded :
  let '(_, s', tr) :=
    change_password_job (lib:=Sample.library)
      (Sample.world Sample.accepting WriteOk)
      Sample.scheduler_short_password in
  map error_message (records (password_history s'))
  = [Some "Длина пароля должна быть не менее 4 символов"]
  /\ requests tr = [].
Proof. vm_compute. split; reflexivity. Qed.

(** C5, as stated, fails.  The login request times out; the client logs
    the reason, "timed out", and the record the engine adds carries the
    fixed text instead. *)
Lemma failure_reason_not_recorded :
  let '(_, s', tr) :=
    change_password_job (lib:=Sample.library)
      (Sample.world Sample.login_times_out WriteOk) Sample.scheduler0 in
  In (Log ClientLog ERROR "Исключение при авторизации: timed out") tr
  /\ map error_message (records (password_history s'))
     = [Some "Неизвестная ошибка"]
  /\ map error_message (records (password_history s')) <> [Some "timed out"].
Proof.
  vm_compute. split; [|split; [reflexivity | discriminate]].
  repeat (first [left; reflexivity | right]).
Qed.




End engine_properties.

Section login_properties.
Import Config.

(** A successful answer that offers no transfer URL: [login] returns [True]
    and the session identifier stays unset. *)
Lemma login_without_transfer {lib : Library} (E : env)
    (username password auth_code : string) (key : rsa_reply)
    (reply : login_reply) :
  getrsakey (remote E) username = Ok key ->
  rsa_success key = true ->
  (forall encrypted,
     dologin (remote E) username encrypted auth_code (rsa_timestamp key)
     = Ok reply) ->
  login_success reply = true ->
  login_complete reply = true ->
  transfer_urls reply = None ->
  exists c tr,
    SteamWebClient.login E username password auth_code SteamWebClient.entered
    = (Ok true, c, tr)
    /\ SteamWebClient.session_id c = None.
Proof.
  intros Hkey Hok Hlogin Hs Hc Hurls.
  unfold SteamWebClient.login, SteamWebClient._get_rsa_key,
    SteamWebClient._encrypt_password.
  unfold_monad. cbn [SteamWebClient.session SteamWebClient.entered negb].
  rewrite Hkey, Hok. cbn [fst snd].
  destruct (rsa_encrypt E password (publickey_mod key) (publickey_exp key))
    as [enc|e]; unfold_monad; cbn [fst snd]; rewrite Hlogin, Hs, Hc, Hurls;
    cbn [andb]; eexists _, _; split; reflexivity.
Qed.




End login_properties.

(** ** Base64 text and the confirmation key *)





























(** ** The password generator with its draws *)

Section password_generation.
Import PasswordGeneration.

Lemma choice_in r k seq c : choice r k seq = Ok c -> In c seq.
Proof.
  intros Hc.
  assert (Hlt : (randbelow r k (length seq) < length seq)%nat).
  { unfold randbelow. apply Nat.mod_upper_bound.
    destruct seq; [discriminate Hc | discriminate]. }
  destruct seq as [|d seq']; [discriminate Hc|].
  unfold choice in Hc. injection Hc as <-. exact (nth_In _ _ Hlt).
Qed.

Lemma choice_ok r k seq : seq <> [] -> exists c, choice r k seq = Ok c.
Proof. destruct seq; [congruence|]. eexists; reflexivity. Qed.

Lemma choices_ok r n :
  forall k charset, charset <> [] ->
    exists cs, choices r k n charset = Ok cs /\ length cs = n
               /\ Forall (fun c => In c charset) cs.
Proof.
  induction n as [|n IH]; intros k charset Hne; cbn [choices].
  - exists []. auto.
  - destruct (choice_ok r k charset Hne) as [c Hc].
    destruct (IH (S k) charset Hne) as (cs & Hcs & Hlen & Hin).
    rewrite Hc. cbn [mbind result_bind]. rewrite Hcs. exists (c :: cs).
    cbn [mbind result_bind length]. repeat split; [now rewrite Hlen|].
    constructor; [eapply choice_in; eauto | assumption].
Qed.

Lemma swap_perm i j l : Permutation (swap i j l) l.
Proof.
  unfold swap. destruct (l !! i) eqn:Hi, (l !! j) eqn:Hj; try reflexivity.
  now apply Permutation_insert_swap.
Qed.

(** The shuffle only reorders. *)
Lemma shuffle_perm r i : forall k l, Permutation (shuffle r k i l) l.
Proof.
  induction i as [|i IH]; intros k l; cbn [shuffle]; [reflexivity|].
  rewrite IH. apply swap_perm.
Qed.

Lemma add_class_run r use class charset req k :
  chars class <> [] ->
  exists cs,
    add_class r use class (charset, req, k)
    = Ok (charset ++ (if use then chars class else []), req ++ cs,
          (k + length cs)%nat)
    /\ required_of use class cs.
Proof.
  intros Hne. destruct use; cbn [add_class required_of].
  - destruct (choice_ok r k _ Hne) as [c Hc]. rewrite Hc.
    exists [c]. cbn [mbind result_bind length]. split.
    + do 2 f_equal. lia.
    + exists c. split; [reflexivity | eapply choice_in; eauto].
  - exists []. now rewrite !app_nil_r, Nat.add_0_r.
Qed.

Lemma classes_run r lo up nu sp :
  exists c1 c2 c3 c4,
    classes r lo up nu sp
    = Ok (selected lo up nu sp, c1 ++ c2 ++ c3 ++ c4,
          length (c1 ++ c2 ++ c3 ++ c4))
    /\ required_of lo PasswordGenerator.lowercase c1
    /\ required_of up PasswordGenerator.uppercase c2
    /\ required_of nu PasswordGenerator.numbers c3
    /\ required_of sp PasswordGenerator.special_chars c4.
Proof.
  unfold classes.
  destruct (add_class_run r lo PasswordGenerator.lowercase [] [] 0
              ltac:(vm_compute; discriminate)) as (c1 & E1 & P1).
  rewrite E1. cbn [mbind result_bind].
  destruct (add_class_run r up PasswordGenerator.uppercase
              ([] ++ (if lo then chars PasswordGenerator.lowercase else []))
              ([] ++ c1) (0 + length c1)
              ltac:(vm_compute; discriminate)) as (c2 & E2 & P2).
  rewrite E2. cbn [mbind result_bind].
  match goal with |- context [add_class r nu _ (?a, ?b, ?c)] =>
    destruct (add_class_run r nu PasswordGenerator.numbers a b c
                ltac:(vm_compute; discriminate)) as (c3 & E3 & P3)
  end.
  rewrite E3. cbn [mbind result_bind].
  match goal with |- context [add_class r sp _ (?a, ?b, ?c)] =>
    destruct (add_class_run r sp PasswordGenerator.special_chars a b c
                ltac:(vm_compute; discriminate)) as (c4 & E4 & P4)
  end.
  rewrite E4. exists c1, c2, c3, c4. split; [|auto].
  unfold selected. cbn [app]. rewrite <- !app_assoc, !length_app.
  do 2 f_equal. lia.
Qed.

Lemma in_without excl l c :
  In c (without excl l) <-> In c l /\ PasswordGenerator.char_in excl c = false.
Proof. unfold without. now rewrite filter_In, negb_true_iff. Qed.

Lemma in_exclusions amb excl l c :
  In c (exclusions amb excl l) <-> In c l /\ excluded amb excl c = false.
Proof.
  unfold exclusions, excluded.
  destruct amb, (truthy_str excl); cbn [andb orb];
    rewrite ?in_without, ?orb_false_r, ?orb_false_iff; tauto.
Qed.

Lemma without_length excl l : (length (without excl l) <= length l)%nat.
Proof.
  unfold without. induction l as [|c l IH]; cbn [List.filter]; [lia|].
  destruct (negb _); cbn [length]; lia.
Qed.

Lemma exclusions_length amb excl l :
  (length (exclusions amb excl l) <= length l)%nat.
Proof.
  unfold exclusions.
  destruct amb, (truthy_str excl);
    repeat (etransitivity; [apply without_length|]); reflexivity.
Qed.

Lemma required_of_length use class cs :
  required_of use class cs -> (length cs <= 1)%nat.
Proof.
  destruct use; cbn [required_of].
  - intros (c & -> & _). reflexivity.
  - intros ->. cbn. lia.
Qed.

(** Past the guards on the length and on the character set, a password
    comes out: the required characters and the random ones, reordered. *)
Lemma generate_password_run r len lo up nu sp amb excl :
  4 <= len -> exclusions amb excl (selected lo up nu sp) <> [] ->
  exists c1 c2 c3 c4 random pw,
    required_of lo PasswordGenerator.lowercase c1
    /\ required_of up PasswordGenerator.uppercase c2
    /\ required_of nu PasswordGenerator.numbers c3
    /\ required_of sp PasswordGenerator.special_chars c4
    /\ Z.of_nat (length (exclusions amb excl (c1 ++ c2 ++ c3 ++ c4))
                 + length random) = len
    /\ Forall (fun c => In c (exclusions amb excl (selected lo up nu sp)))
              random
    /\ generate_password r len lo up nu sp amb excl = Ok pw
    /\ Permutation (list_ascii_of_string pw)
         (exclusions amb excl (c1 ++ c2 ++ c3 ++ c4) ++ random).
Proof.
  intros Hlen Hne. unfold generate_password.
  destruct (Z.ltb_spec len 4) as [|_]; [lia|].
  destruct (classes_run r lo up nu sp) as (c1 & c2 & c3 & c4 & E & P1 & P2 & P3 & P4).
  rewrite E. cbn [mbind result_bind].
  remember (selected lo up nu sp) as charset eqn:Hcharset.
  remember (c1 ++ c2 ++ c3 ++ c4) as required eqn:Hrequired.
  assert (Hreq : (length (exclusions amb excl required) <= 4)%nat).
  { etransitivity; [apply exclusions_length|]. subst required.
    rewrite !length_app.
    apply required_of_length in P1, P2, P3, P4. lia. }
  destruct charset as [|c0 charset'].
  { exfalso. apply Hne. unfold exclusions, without.
    destruct amb, (truthy_str excl); reflexivity. }
  cbv zeta.
  destruct (exclusions amb excl (c0 :: charset')) as [|d charset''] eqn:Hset;
    [congruence|].
  cbn [length Nat.eqb].
  destruct (Z.gtb_spec (Z.of_nat (length (exclusions amb excl required))) len)
    as [|_]; [lia|].
  destruct (choices_ok r
              (Z.to_nat (len - Z.of_nat (length (exclusions amb excl required))))
              (length required) (d :: charset'') ltac:(discriminate))
    as (random & Hrandom & Hn & Hin).
  rewrite Hrandom. cbn [mbind result_bind].
  exists c1, c2, c3, c4, random. eexists.
  repeat (split; [eassumption|]).
  rewrite <- Hrequired.
  split; [lia|]. split; [exact Hin|]. split; [reflexivity|].
  rewrite list_ascii_of_string_of_list_ascii. apply shuffle_perm.
Qed.

End password_generation.

Section password_properties.
Import PasswordGeneration.

Lemma string_length_chars (s : string) :
  String.length s = length (list_ascii_of_string s).
Proof. induction s as [|c s IH]; cbn; [reflexivity | now rewrite IH]. Qed.

Lemma selected_nil lo up nu sp :
  selected lo up nu sp = [] <-> lo || up || nu || sp = false.
Proof. destruct lo, up, nu, sp; vm_compute; split; congruence. Qed.

Lemma exclusions_nil amb excl : exclusions amb excl [] = [].
Proof. unfold exclusions, without. destruct amb, (truthy_str excl); reflexivity. Qed.

Lemma required_of_in use class cs c :
  required_of use class cs -> In c cs -> use = true /\ In c (chars class).
Proof.
  destruct use; cbn [required_of].
  - intros (x & -> & Hx) [<-|[]]. auto.
  - intros -> [].
Qed.

(** The three ways [generate_password] raises, and the one way it
    returns. *)
Lemma generate_password_cases r len lo up nu sp amb excl :
  (len < 4
   /\ generate_password r len lo up nu sp amb excl
      = Raise (mkExn ValueError "Длина пароля должна быть не менее 4 символов"))
  \/ (4 <= len /\ lo || up || nu || sp = false
      /\ generate_password r len lo up nu sp amb excl
         = Raise (mkExn ValueError
                    "Должен быть выбран хотя бы один тип символов"))
  \/ (4 <= len /\ lo || up || nu || sp = true
      /\ exclusions amb excl (selected lo up nu sp) = []
      /\ generate_password r len lo up nu sp amb excl
         = Raise (mkExn ValueError
                    "После исключений не осталось символов для генерации"))
  \/ (4 <= len /\ exclusions amb excl (selected lo up nu sp) <> []
      /\ exists pw, generate_password r len lo up nu sp amb excl = Ok pw).
Proof.
  destruct (Z.ltb_spec len 4) as [Hshort|Hlen].
  { left. split; [exact Hshort|]. unfold generate_password.
    destruct (Z.ltb_spec len 4); [reflexivity | lia]. }
  right.
  destruct (lo || up || nu || sp) eqn:Hflags.
  2:{ left. split; [exact Hlen|]. split; [reflexivity|].
      unfold generate_password. destruct (Z.ltb_spec len 4); [lia|].
      apply orb_false_iff in Hflags as [Hflags ->].
      apply orb_false_iff in Hflags as [Hflags ->].
      apply orb_false_iff in Hflags as [-> ->]. reflexivity. }
  right.
  destruct (exclusions amb excl (selected lo up nu sp)) as [|d rest] eqn:Hset.
  - left. split; [exact Hlen|]. split; [reflexivity|]. split; [reflexivity|].
    unfold generate_password. destruct (Z.ltb_spec len 4); [lia|].
    destruct (classes_run r lo up nu sp) as (c1 & c2 & c3 & c4 & E & _).
    rewrite E. cbn [mbind result_bind].
    destruct (selected lo up nu sp) as [|c0 charset] eqn:Hsel.
    + apply selected_nil in Hsel. congruence.
    + cbv zeta. rewrite Hset. reflexivity.
  - right. split; [exact Hlen|]. split; [discriminate|].
    destruct (generate_password_run r len lo up nu sp amb excl Hlen)
      as (c1 & c2 & c3 & c4 & random & pw & _ & _ & _ & _ & _ & _ & Hpw & _).
    { rewrite Hset. discriminate. }
    exists pw. exact Hpw.
Qed.

Lemma generate_password_ok_inv r len lo up nu sp amb excl pw :
  generate_password r len lo up nu sp amb excl = Ok pw ->
  4 <= len /\ exclusions amb excl (selected lo up nu sp) <> [].
Proof.
  intros Hpw.
  destruct (generate_password_cases r len lo up nu sp amb excl)
    as [(_ & H) | [(_ & _ & H) | [(_ & _ & _ & H) | (Hlen & Hset & _)]]];
    try congruence.
  auto.
Qed.

Lemma char_in_In class c :
  PasswordGenerator.char_in class c = true <-> In c (chars class).
Proof.
  unfold PasswordGenerator.char_in, chars. rewrite existsb_exists. split.
  - intros (x & Hx & Heq). apply Ascii.eqb_eq in Heq. now subst.
  - intros Hc. exists c. split; [exact Hc | apply Ascii.eqb_refl].
Qed.

Lemma any_in_intro class pw c :
  In c (list_ascii_of_string pw) -> In c (chars class) ->
  PasswordGenerator.any_in class pw = true.
Proof.
  intros Hpw Hclass. unfold PasswordGenerator.any_in.
  apply existsb_exists. exists c. split; [exact Hpw | now apply char_in_In].
Qed.

(** X2. [generate_password] raises in exactly three situations, each a
    [ValueError] with its own message: a length below 4; no character
    class selected; every selected character excluded. In every other
    case it returns a password. The fourth [ValueError] of the source
    (more required characters than the length) is never raised: at most
    four characters are required and the length is at least 4. *)
Theorem generate_password_outcome (r : rng) (len : Z)
    (lo up nu sp amb : bool) (excl : option string) :
  match generate_password r len lo up nu sp amb excl with
  | Ok pw => 4 <= len /\ exclusions amb excl (selected lo up nu sp) <> []
  | Raise e =>
      (len < 4
       /\ e = mkExn ValueError "Длина пароля должна быть не менее 4 символов")
      \/ (4 <= len /\ lo || up || nu || sp = false
          /\ e = mkExn ValueError "Должен быть выбран хотя бы один тип символов")
      \/ (4 <= len /\ lo || up || nu || sp = true
          /\ exclusions amb excl (selected lo up nu sp) = []
          /\ e = mkExn ValueError
                   "После исключений не осталось символов для генерации")
  end.
Proof.
  destruct (generate_password_cases r len lo up nu sp amb excl)
    as [(H1 & ->) | [(H1 & H2 & ->) | [(H1 & H2 & H3 & ->)
        | (H1 & H2 & pw & ->)]]]; auto 10.
Qed.

Lemma generate_password_shape r len lo up nu sp amb excl pw :
  generate_password r len lo up nu sp amb excl = Ok pw ->
  Z.of_nat (String.length pw) = len
  /\ forall c, In c (list_ascii_of_string pw) ->
       In c (selected lo up nu sp) /\ excluded amb excl c = false.
Proof.
  intros Hpw.
  destruct (generate_password_ok_inv _ _ _ _ _ _ _ _ _ Hpw) as [Hlen Hset].
  destruct (generate_password_run r len lo up nu sp amb excl Hlen Hset)
    as (c1 & c2 & c3 & c4 & random & pw' & P1 & P2 & P3 & P4 & Hn & Hin
        & Hpw' & Hperm).
  rewrite Hpw in Hpw'. injection Hpw' as <-. split.
  - rewrite string_length_chars, (Permutation_length Hperm), length_app.
    exact Hn.
  - intros c Hc. apply (Permutation_in _ Hperm) in Hc.
    apply in_app_or in Hc as [Hc|Hc].
    + apply in_exclusions in Hc as [Hc Hex]. split; [|exact Hex].
      rewrite !in_app_iff in Hc. unfold selected. rewrite !in_app_iff.
      destruct Hc as [Hc|[Hc|[Hc|Hc]]];
        [destruct (required_of_in _ _ _ _ P1 Hc) as [-> ?]
        |destruct (required_of_in _ _ _ _ P2 Hc) as [-> ?]
        |destruct (required_of_in _ _ _ _ P3 Hc) as [-> ?]
        |destruct (required_of_in _ _ _ _ P4 Hc) as [-> ?]]; tauto.
    + rewrite List.Forall_forall in Hin. apply in_exclusions, Hin, Hc.
Qed.

(** X3. A password that [generate_password] returns has exactly [length]
    characters, and each of them belongs to a selected class and is not
    excluded (neither ambiguous when [exclude_ambiguous] is set, nor in
    [exclude_chars]). *)
Theorem generate_password_length_and_alphabet (r : rng) (len : Z)
    (lo up nu sp amb : bool) (excl : option string) (pw : string) :
  generate_password r len lo up nu sp amb excl = Ok pw ->
  Z.of_nat (String.length pw) = len
  /\ forall c, In c (list_ascii_of_string pw) ->
       In c (selected lo up nu sp) /\ excluded amb excl c = false.
Proof. apply generate_password_shape. Qed.

Lemma generate_password_length_and_alphabet_witness :
  Z.of_nat (String.length "7IdPkr3ydKWB") = 12
  /\ forall c, In c (list_ascii_of_string "7IdPkr3ydKWB") ->
       In c (selected true true true false)
       /\ excluded false (Some "abc") c = false.
Proof.
  apply (generate_password_length_and_alphabet
           (fun k => (7 * k + 3)%nat) 12 true true true false false
           (Some "abc") "7IdPkr3ydKWB").
  vm_compute. reflexivity.
Defined.

(** A class in use, none of whose characters is excluded, is found in the
    password. *)
Lemma generate_password_covers r len lo up nu sp amb excl pw :
  generate_password r len lo up nu sp amb excl = Ok pw ->
  forall use class,
    (use, class) = (lo, PasswordGenerator.lowercase)
    \/ (use, class) = (up, PasswordGenerator.uppercase)
    \/ (use, class) = (nu, PasswordGenerator.numbers)
    \/ (use, class) = (sp, PasswordGenerator.special_chars) ->
    use = true ->
    (forall c, In c (chars class) -> excluded amb excl c = false) ->
    PasswordGenerator.any_in class pw = true.
Proof.
  intros Hpw use class Hclass Huse Hkept.
  destruct (generate_password_ok_inv _ _ _ _ _ _ _ _ _ Hpw) as [Hlen Hset].
  destruct (generate_password_run r len lo up nu sp amb excl Hlen Hset)
    as (c1 & c2 & c3 & c4 & random & pw' & P1 & P2 & P3 & P4 & _ & _
        & Hpw' & Hperm).
  rewrite Hpw in Hpw'. injection Hpw' as <-.
  assert (Hreq : exists cs, required_of use class cs
                   /\ forall c, In c cs -> In c (c1 ++ c2 ++ c3 ++ c4)).
  { destruct Hclass as [[= -> ->]|[[= -> ->]|[[= -> ->]|[= -> ->]]]];
      eexists; (split; [eassumption|]); intros c Hc;
      rewrite !in_app_iff; tauto. }
  destruct Hreq as (cs & Hcs & Hsub). subst use. cbn [required_of] in Hcs.
  destruct Hcs as (c & -> & Hc).
  apply (any_in_intro class pw c); [|exact Hc].
  apply (Permutation_in _ (Permutation_sym Hperm)).
  apply in_or_app. left. apply in_exclusions. split.
  - apply Hsub. now left.
  - now apply Hkept.
Qed.

(** X4. The class guarantee of [generate_password]: a password returned
    contains a character of every class that is in use and of which the
    exclusions remove nothing. (A class that loses characters to the
    exclusions may lose its required character with them.) *)
Theorem generate_password_covers_unexcluded_classes (r : rng) (len : Z)
    (lo up nu sp amb : bool) (excl : option string) (pw : string) :
  generate_password r len lo up nu sp amb excl = Ok pw ->
  let covered (use : bool) (class : string) :=
    use = true ->
    (forall c, In c (chars class) -> excluded amb excl c = false) ->
    PasswordGenerator.any_in class pw = true in
  covered lo PasswordGenerator.lowercase
  /\ covered up PasswordGenerator.uppercase
  /\ covered nu PasswordGenerator.numbers
  /\ covered sp PasswordGenerator.special_chars.
Proof.
  intros Hpw covered. subst covered. cbv beta.
  repeat split; intros Huse Hkept;
    eapply generate_password_covers; eauto 6.
Qed.

Lemma generate_password_covers_unexcluded_classes_witness :
  let covered (use : bool) (class : string) :=
    use = true ->
    (forall c, In c (chars class) -> excluded false (Some "abc") c = false) ->
    PasswordGenerator.any_in class "7IdPkr3ydKWB" = true in
  covered true PasswordGenerator.lowercase
  /\ covered true PasswordGenerator.uppercase
  /\ covered true PasswordGenerator.numbers
  /\ covered false PasswordGenerator.special_chars.
Proof.
  apply (generate_password_covers_unexcluded_classes
           (fun k => (7 * k + 3)%nat) 12 true true true false false
           (Some "abc") "7IdPkr3ydKWB").
  vm_compute. reflexivity.
Defined.

Lemma special_chars_kept amb c :
  In c (chars PasswordGenerator.special_chars) -> excluded amb None c = false.
Proof.
  intros Hc.
  assert (Hall : forallb (fun c => negb (excluded true None c))
                   (chars PasswordGenerator.special_chars) = true)
    by (vm_compute; reflexivity).
  rewrite forallb_forall in Hall. specialize (Hall c Hc).
  apply negb_true_iff in Hall.
  destruct amb; [exact Hall | reflexivity].
Qed.

(** X5. With special characters in use, no [exclude_chars] and a length of
    at least 16, [generate_password] returns a password that
    [validate_password_strength] scores 5 or more ("Сильный" or "Очень
    сильный"), whatever the other flags and the draws: the assertion of
    [test_system.test_password_generator] holds on every run. *)
Theorem generate_password_long_with_specials_is_strong (r : rng) (len : Z)
    (lo up nu amb : bool) :
  16 <= len ->
  exists pw,
    generate_password r len lo up nu true amb None = Ok pw
    /\ PasswordGenerator.has_special_chars
         (PasswordGenerator.validate_password_strength pw) = true
    /\ 5 <= PasswordGenerator.score
              (PasswordGenerator.validate_password_strength pw)
    /\ (PasswordGenerator.strength
          (PasswordGenerator.validate_password_strength pw) = "Сильный"
        \/ PasswordGenerator.strength
             (PasswordGenerator.validate_password_strength pw)
           = "Очень сильный").
Proof.
  intros Hlen.
  destruct (generate_password_cases r len lo up nu true amb None)
    as [(H1 & _) | [(_ & H2 & _) | [(_ & _ & H3 & _) | (_ & _ & pw & Hpw)]]].
  - lia.
  - rewrite !orb_true_r in H2. discriminate H2.
  - destruct lo, up, nu, amb; vm_compute in H3; discriminate H3.
  - exists pw. split; [exact Hpw|].
    pose proof (generate_password_shape _ _ _ _ _ _ _ _ _ Hpw) as [Hn _].
    assert (Hsp : PasswordGenerator.any_in PasswordGenerator.special_chars pw
                  = true).
    { eapply generate_password_covers; eauto 6.
      intros c. apply special_chars_kept. }
    unfold PasswordGenerator.validate_password_strength.
    cbn [PasswordGenerator.has_special_chars PasswordGenerator.score
         PasswordGenerator.strength].
    rewrite Hsp, Hn.
    destruct (Z.geb_spec len 8); [|lia].
    destruct (Z.geb_spec len 12); [|lia].
    destruct (Z.geb_spec len 16); [|lia].
    split; [reflexivity|].
    destruct (PasswordGenerator.any_in PasswordGenerator.lowercase pw),
             (PasswordGenerator.any_in PasswordGenerator.uppercase pw),
             (PasswordGenerator.any_in PasswordGenerator.numbers pw);
      cbn; (split; [lia | tauto]).
Qed.

Lemma generate_password_long_with_specials_is_strong_witness :
  exists pw,
    generate_password (fun _ => 11%nat) 16 true true true true true None = Ok pw
    /\ PasswordGenerator.has_special_chars
         (PasswordGenerator.validate_password_strength pw) = true
    /\ 5 <= PasswordGenerator.score
              (PasswordGenerator.validate_password_strength pw)
    /\ (PasswordGenerator.strength
          (PasswordGenerator.validate_password_strength pw) = "Сильный"
        \/ PasswordGenerator.strength
             (PasswordGenerator.validate_password_strength pw)
           = "Очень сильный").
Proof.
  apply (generate_password_long_with_specials_is_strong
           (fun _ => 11%nat) 16 true true true true).
  lia.
Defined.

Lemma choices_constant r v n :
  (forall k, r k = v) ->
  forall k d charset,
    choices r k n (d :: charset)
    = Ok (repeat (nth (v mod length (d :: charset)) (d :: charset) d) n).
Proof.
  intros Hr. induction n as [|n IH]; intros k d charset; cbn [choices repeat].
  - reflexivity.
  - unfold choice at 1. unfold randbelow. rewrite Hr.
    cbn [mbind result_bind]. rewrite IH. reflexivity.
Qed.

Lemma any_in_false class pw :
  Forall (fun c => PasswordGenerator.char_in class c = false)
         (list_ascii_of_string pw) ->
  PasswordGenerator.any_in class pw = false.
Proof.
  unfold PasswordGenerator.any_in.
  induction 1 as [|c cs Hc _ IH]; cbn [existsb]; [reflexivity|].
  now rewrite Hc, IH.
Qed.

(** X6. The defaults do not guarantee a digit: for every length from 4 on
    there are draws for which [generate_password], with all four classes
    in use and [exclude_ambiguous] set, returns a password without any
    digit. The digit required by the [use_numbers] block is drawn before
    the exclusions and removed by them when it is 0 or 1. *)
Theorem generate_password_defaults_may_lack_a_digit (len : Z) :
  4 <= len ->
  exists r pw,
    generate_password r len true true true true true None = Ok pw
    /\ PasswordGenerator.any_in PasswordGenerator.numbers pw = false.
Proof.
  intros Hlen. exists (fun _ => 11%nat). eexists.
  unfold generate_password. destruct (Z.ltb_spec len 4); [lia|].
  let c := eval vm_compute in (classes (fun _ => 11%nat) true true true true) in
  change (classes (fun _ => 11%nat) true true true true) with c.
  cbn [mbind result_bind]. cbv zeta.
  match goal with |- context [exclusions true None ?l] =>
    let l' := eval vm_compute in (exclusions true None l) in
    change (exclusions true None l) with l'
  end.
  match goal with |- context [exclusions true None ?l] =>
    let l' := eval vm_compute in (exclusions true None l) in
    change (exclusions true None l) with l'
  end.
  cbn [length Nat.eqb].
  destruct (Z.gtb_spec (Z.of_nat 2) len); [lia|].
  rewrite (choices_constant _ 11%nat) by reflexivity.
  cbn [mbind result_bind]. split; [reflexivity|].
  apply any_in_false. rewrite list_ascii_of_string_of_list_ascii.
  eapply Permutation_Forall; [symmetry; apply shuffle_perm|].
  apply Forall_app. split.
  - repeat constructor.
  - apply List.Forall_forall. intros c Hc. apply repeat_spec in Hc. subst c.
    vm_compute. reflexivity.
Qed.

Lemma generate_password_defaults_may_lack_a_digit_witness :
  exists r pw,
    generate_password r 16 true true true true true None = Ok pw
    /\ PasswordGenerator.any_in PasswordGenerator.numbers pw = false.
Proof. apply (generate_password_defaults_may_lack_a_digit 16). lia. Defined.

(** X7. Without [exclude_chars], [generate_password] is the function of
    its first two guards that the engine's model uses: it raises exactly
    when the length is below 4 or no class is selected, with the same
    exceptions, and otherwise returns the characters drawn, [length] of
    them. *)
Theorem generate_password_refines_guards (r : rng) (len : Z)
    (lo up nu sp amb : bool) :
  exists drawn,
    generate_password r len lo up nu sp amb None
    = PasswordGenerator.generate_password drawn len lo up nu sp amb
    /\ (4 <= len -> lo || up || nu || sp = true ->
        Z.of_nat (String.length drawn) = len).
Proof.
  unfold PasswordGenerator.generate_password.
  destruct (generate_password_cases r len lo up nu sp amb None)
    as [(H1 & ->) | [(H1 & H2 & ->) | [(_ & H2 & H3 & _)
        | (H1 & _ & pw & Hpw)]]].
  - exists EmptyString. destruct (Z.ltb_spec len 4); [|lia].
    split; [reflexivity | lia].
  - exists EmptyString. destruct (Z.ltb_spec len 4); [lia|].
    rewrite H2. split; [reflexivity | discriminate].
  - destruct lo, up, nu, sp; try discriminate H2;
      destruct amb; vm_compute in H3; discriminate H3.
  - exists pw. rewrite Hpw.
    pose proof (generate_password_shape _ _ _ _ _ _ _ _ _ Hpw) as [Hn _].
    destruct (Z.ltb_spec len 4); [lia|].
    destruct (lo || up || nu || sp) eqn:Hflags; [auto|].
    exfalso. apply generate_password_ok_inv in Hpw as [_ Hset].
    apply Hset. apply orb_false_iff in Hflags as [Hflags ->].
    apply orb_false_iff in Hflags as [Hflags ->].
    apply orb_false_iff in Hflags as [-> ->]. apply exclusions_nil.
Qed.

Lemma traverse_all_ok {A B} (f : A -> result B) (P : B -> Prop) l :
  (forall a, In a l -> exists b, f a = Ok b /\ P b) ->
  exists bs, History.traverse f l = Ok bs /\ length bs = length l
             /\ Forall P bs.
Proof.
  induction l as [|a l IH]; intros Hf; cbn [History.traverse].
  - exists []. auto.
  - destruct (Hf a (or_introl eq_refl)) as (b & Hb & HP).
    destruct IH as (bs & Hbs & Hlen & HPs).
    { intros a' Ha'. apply Hf. now right. }
    rewrite Hb. cbn [mbind result_bind]. rewrite Hbs. exists (b :: bs).
    cbn [mbind result_bind length]. auto.
Qed.

(** X8. [generate_multiple_passwords]: for a positive count it raises the
    exception [generate_password] raises for these parameters (which does
    not depend on the draws) and otherwise returns [count] passwords of
    [length] characters each; for a count of zero or less it returns the
    empty list without looking at the parameters. *)
Theorem generate_multiple_passwords_outcome (streams : nat -> rng)
    (count len : Z) (lo up nu sp amb : bool) (excl : option string) :
  match generate_multiple_passwords streams count len lo up nu sp amb excl with
  | Ok pws =>
      length pws = Z.to_nat count
      /\ Forall (fun pw => Z.of_nat (String.length pw) = len) pws
      /\ (0 < count ->
          4 <= len /\ exclusions amb excl (selected lo up nu sp) <> [])
  | Raise e =>
      0 < count
      /\ forall r, generate_password r len lo up nu sp amb excl = Raise e
  end.
Proof.
  unfold generate_multiple_passwords.
  assert (Hvalid :
    4 <= len /\ exclusions amb excl (selected lo up nu sp) <> []
    \/ exists e, forall r, generate_password r len lo up nu sp amb excl = Raise e).
  { destruct (generate_password_cases (streams 0%nat) len lo up nu sp amb excl)
      as [(H1 & _) | [(H1 & H2 & _) | [(H1 & H2 & H3 & _) | (H1 & H2 & _)]]];
      [right; eexists; intros r | right; eexists; intros r
      | right; eexists; intros r | left; auto].
    - destruct (generate_password_cases r len lo up nu sp amb excl)
        as [(_ & E) | [(? & _) | [(? & _) | (? & _)]]]; [exact E | lia..].
    - destruct (generate_password_cases r len lo up nu sp amb excl)
        as [(? & _) | [(_ & _ & E) | [(_ & ? & _) | (_ & Hset & _)]]];
        [lia | exact E | congruence |].
      exfalso. apply Hset. apply selected_nil in H2. rewrite H2.
      apply exclusions_nil.
    - destruct (generate_password_cases r len lo up nu sp amb excl)
        as [(? & _) | [(_ & ? & _) | [(_ & _ & _ & E) | (_ & Hset & _)]]];
        [lia | congruence | exact E | congruence]. }
  destruct Hvalid as [[Hlen Hset] | [e He]].
  - destruct (traverse_all_ok
                (fun n => generate_password (streams n) len lo up nu sp amb excl)
                (fun pw => Z.of_nat (String.length pw) = len)
                (seq 0 (Z.to_nat count))) as (pws & -> & Hn & Hall).
    { intros n _.
      destruct (generate_password_run (streams n) len lo up nu sp amb excl
                  Hlen Hset)
        as (_ & _ & _ & _ & _ & pw & _ & _ & _ & _ & _ & _ & Hpw & _).
      exists pw. split; [exact Hpw|].
      apply (generate_password_shape _ _ _ _ _ _ _ _ _ Hpw). }
    rewrite length_seq in Hn. auto.
  - destruct (Z.to_nat count) as [|n] eqn:Hcount; cbn [seq History.traverse].
    + repeat split; [constructor | lia | lia].
    + rewrite He. cbn [mbind result_bind]. split; [lia | exact He].
Qed.


End password_properties.

(** ** The one-time code: errors, and what the decoder lets through *)

Lemma window_fits t : 0 <= t / 30 < 2 ^ 64 <-> 0 <= t < 30 * 2 ^ 64.
Proof.
  pose proof (Z.div_mod t 30 ltac:(lia)) as Hdm.
  pose proof (Z.mod_pos_bound t 30 ltac:(lia)) as Hm.
  change (2 ^ 64) with 18446744073709551616. lia.
Qed.

Lemma generate_auth_code_out_of_range now secret key t :
  Base64.b64decode secret = Ok key ->
  ~ 0 <= t / 30 < 2 ^ 64 ->
  SteamAuthenticator.generate_auth_code now secret (Some t)
  = Raise (mkExn StructError "argument out of range").
Proof.
  intros Hkey Ht. unfold SteamAuthenticator.generate_auth_code. cbv zeta.
  rewrite Hkey. unfold Bytes.struct_pack_Q.
  destruct (Z.leb_spec 0 (t / 30)), (Z.ltb_spec (t / 30) (2 ^ 64));
    cbn [andb]; first [reflexivity | lia].
Qed.

(** X10. The outcomes of [generate_auth_code]: a code of five or six
    decimal digits when the secret decodes and the timestamp lies in
    [0, 30 * 2^64); a [ValueError] when the secret does not decode; and,
    for a decodable secret, the [struct.error] of [struct.pack] when the
    timestamp is negative or too large, which the function does not turn
    into a [ValueError]. *)
Theorem generate_auth_code_outcome (now : Z) (secret : string) (t : Z) :
  match SteamAuthenticator.generate_auth_code now secret (Some t) with
  | Ok code =>
      is_ok (Base64.b64decode secret) = true
      /\ 0 <= t < 30 * 2 ^ 64
      /\ (5 <= String.length code <= 6)%nat
      /\ forallb PyFormat.is_digit (list_ascii_of_string code) = true
  | Raise e =>
      (exn_cls e = ValueError /\ is_ok (Base64.b64decode secret) = false)
      \/ (exn_cls e = StructError
          /\ is_ok (Base64.b64decode secret) = true
          /\ (t < 0 \/ 30 * 2 ^ 64 <= t))
  end.
Proof.
  destruct (Base64.b64decode secret) as [key|e] eqn:Hkey.
  - destruct (Z.leb_spec 0 t), (Z.ltb_spec t (30 * 2 ^ 64)).
    1:{ destruct (generate_auth_code_shape now secret key t Hkey)
          as (code & -> & Hlen & Hdigits); [apply window_fits; lia|].
        auto. }
    all: rewrite (generate_auth_code_out_of_range now secret key t Hkey)
           by (rewrite window_fits; lia);
         right; cbn [exn_cls is_ok]; repeat split; lia.
  - rewrite (generate_auth_code_undecodable now secret e t Hkey).
    left. split; reflexivity.
Qed.

(** X11. The two checks of [diagnose_steam] on a shared secret:
    [test_steam_guard_code] succeeds exactly when [check_shared_secret]
    does and the clock reads a time in [0, 30 * 2^64). *)
Theorem diagnose_checks_agree (now : Z) (shared_secret : string) :
  fst (Diagnose.test_steam_guard_code now shared_secret)
  = fst (Diagnose.check_shared_secret shared_secret)
    && (0 <=? now) && (now <? 30 * 2 ^ 64).
Proof.
  unfold Diagnose.test_steam_guard_code, Diagnose.check_shared_secret.
  change (SteamAuthenticator.generate_auth_code now shared_secret None)
    with (SteamAuthenticator.generate_auth_code now shared_secret (Some now)).
  pose proof (generate_auth_code_outcome now shared_secret now) as Hcode.
  destruct (SteamAuthenticator.generate_auth_code now shared_secret (Some now))
    as [code|e]; destruct (Base64.b64decode shared_secret) as [key|e'];
    cbn [fst is_ok andb] in *.
  - destruct Hcode as (_ & Ht & _).
    destruct (Z.leb_spec 0 now), (Z.ltb_spec now (30 * 2 ^ 64));
      first [reflexivity | lia].
  - destruct Hcode as (Hok & _). discriminate Hok.
  - destruct Hcode as [(_ & Hok) | (_ & _ & Ht)]; [discriminate Hok|].
    destruct (Z.leb_spec 0 now), (Z.ltb_spec now (30 * 2 ^ 64));
      first [reflexivity | lia].
  - reflexivity.
Qed.

Lemma a2b_loop_skips c s2 :
  Base64.b64_value c = None -> Ascii.eqb c Base64.pad_char = false ->
  forall s1 quad_pos leftchar pads out,
    Base64.a2b_loop (s1 ++ c :: s2) quad_pos leftchar pads out
    = Base64.a2b_loop (s1 ++ s2) quad_pos leftchar pads out.
Proof.
  intros Hc Hpad. induction s1 as [|d s1 IH]; intros quad_pos leftchar pads out.
  - cbn [app Base64.a2b_loop]. now rewrite Hpad, Hc.
  - cbn [app Base64.a2b_loop].
    destruct (Ascii.eqb d Base64.pad_char).
    + destruct (2 <=? quad_pos)%nat; [|apply IH].
      destruct (4 <=? quad_pos + S pads)%nat; [reflexivity | apply IH].
    + destruct (Base64.b64_value d) as [v|]; [|apply IH].
      destruct quad_pos as [|[|[|q]]]; apply IH.
Qed.

Lemma list_ascii_of_string_app s1 s2 :
  list_ascii_of_string (s1 +:+ s2)
  = list_ascii_of_string s1 ++ list_ascii_of_string s2.
Proof.
  induction s1 as [|c s1 IH]; [reflexivity|].
  change (String c s1 +:+ s2) with (String c (s1 +:+ s2)).
  cbn [list_ascii_of_string app]. now rewrite IH.
Qed.

Lemma b64decode_skips c s1 s2 :
  Base64.b64_value c = None -> Ascii.eqb c Base64.pad_char = false ->
  Base64.is_ascii c = true ->
  Base64.b64decode (s1 +:+ String c s2) = Base64.b64decode (s1 +:+ s2).
Proof.
  intros Hc Hpad Hascii. unfold Base64.b64decode, Base64.a2b_base64.
  rewrite !list_ascii_of_string_app. cbn [list_ascii_of_string].
  rewrite !forallb_app. cbn [forallb]. rewrite Hascii. cbn [andb].
  destruct (forallb Base64.is_ascii (list_ascii_of_string s1) &&
            forallb Base64.is_ascii (list_ascii_of_string s2));
    [|reflexivity].
  now apply a2b_loop_skips.
Qed.

(** X12. An ASCII character outside the base64 alphabet (a space, a line
    break, a quote) anywhere in the shared secret changes nothing: the
    code, the confirmation key and the verdict of [check_shared_secret]
    are those of the secret without it. *)
Theorem stray_character_in_secret_is_ignored (c : ascii) (s1 s2 : string) :
  Base64.b64_value c = None -> Ascii.eqb c Base64.pad_char = false ->
  Base64.is_ascii c = true ->
  (forall now timestamp,
     SteamAuthenticator.generate_auth_code now (s1 +:+ String c s2) timestamp
     = SteamAuthenticator.generate_auth_code now (s1 +:+ s2) timestamp)
  /\ (forall timestamp tag,
        Confirmation.generate_confirmation_key (s1 +:+ String c s2) timestamp tag
        = Confirmation.generate_confirmation_key (s1 +:+ s2) timestamp tag)
  /\ Diagnose.check_shared_secret (s1 +:+ String c s2)
     = Diagnose.check_shared_secret (s1 +:+ s2).
Proof.
  intros Hc Hpad Hascii.
  pose proof (b64decode_skips c s1 s2 Hc Hpad Hascii) as Hdecode.
  unfold SteamAuthenticator.generate_auth_code,
    Confirmation.generate_confirmation_key, Diagnose.check_shared_secret.
  rewrite Hdecode. auto.
Qed.

Lemma stray_character_in_secret_is_ignored_witness :
  (forall now timestamp,
     SteamAuthenticator.generate_auth_code now
       ("MTIzNDU2Nzg5MDEy" +:+ String " " "MzQ1Njc4OTA=") timestamp
     = SteamAuthenticator.generate_auth_code now
         ("MTIzNDU2Nzg5MDEy" +:+ "MzQ1Njc4OTA=") timestamp)
  /\ (forall timestamp tag,
        Confirmation.generate_confirmation_key
          ("MTIzNDU2Nzg5MDEy" +:+ String " " "MzQ1Njc4OTA=") timestamp tag
        = Confirmation.generate_confirmation_key
            ("MTIzNDU2Nzg5MDEy" +:+ "MzQ1Njc4OTA=") timestamp tag)
  /\ Diagnose.check_shared_secret
       ("MTIzNDU2Nzg5MDEy" +:+ String " " "MzQ1Njc4OTA=")
     = Diagnose.check_shared_secret ("MTIzNDU2Nzg5MDEy" +:+ "MzQ1Njc4OTA=").
Proof.
  apply (stray_character_in_secret_is_ignored " " "MTIzNDU2Nzg5MDEy"
           "MzQ1Njc4OTA="); reflexivity.
Defined.

Lemma a2b_loop_no_data s :
  forallb (fun c => match Base64.b64_value c with
                    | Some _ => false
                    | None => true
                    end) s = true ->
  forall leftchar pads out,
    Base64.a2b_loop s 0 leftchar pads out = Ok out.
Proof.
  induction s as [|c s IH]; intros Hs leftchar pads out;
    cbn [Base64.a2b_loop]; [reflexivity|].
  cbn [forallb] in Hs. apply andb_true_iff in Hs as [Hc Hs].
  destruct (Base64.b64_value c); [discriminate Hc|].
  destruct (Ascii.eqb c Base64.pad_char); cbn [Nat.leb]; now apply IH.
Qed.

(** X13. A text with no base64 character at all (the empty text, blanks,
    pad characters only) passes [check_shared_secret]: it decodes to the
    empty key, which draws the length warning and then the success line,
    and the code generator accepts it as it accepts the empty secret. *)
Theorem check_shared_secret_accepts_text_without_data (shared_secret : string) :
  forallb (fun c => Base64.is_ascii c
                    && match Base64.b64_value c with
                       | Some _ => false
                       | None => true
                       end) (list_ascii_of_string shared_secret) = true ->
  Diagnose.check_shared_secret shared_secret
  = (true,
     [(Diagnose.STEP_INFO, "Проверка shared_secret...");
      (Diagnose.STEP_WARNING,
       "shared_secret имеет неправильную длину после декодирования");
      (Diagnose.STEP_SUCCESS, "shared_secret корректен (длина: 0 байт)")])
  /\ forall now timestamp,
       SteamAuthenticator.generate_auth_code now shared_secret timestamp
       = SteamAuthenticator.generate_auth_code now EmptyString timestamp.
Proof.
  intros Hs.
  assert (Hdecode : Base64.b64decode shared_secret = Ok []).
  { unfold Base64.b64decode, Base64.a2b_base64. cbv zeta.
    rewrite forallb_forall in Hs.
    assert (Hascii : forallb Base64.is_ascii
                       (list_ascii_of_string shared_secret) = true).
    { apply forallb_forall. intros c Hc.
      specialize (Hs c Hc). now apply andb_true_iff in Hs as [? _]. }
    rewrite Hascii. apply a2b_loop_no_data. apply forallb_forall.
    intros c Hc. specialize (Hs c Hc). now apply andb_true_iff in Hs as [_ ?]. }
  split.
  - unfold Diagnose.check_shared_secret. rewrite Hdecode. reflexivity.
  - intros now timestamp. unfold SteamAuthenticator.generate_auth_code.
    rewrite Hdecode. reflexivity.
Qed.

Lemma check_shared_secret_accepts_text_without_data_witness :
  Diagnose.check_shared_secret " == "
  = (true,
     [(Diagnose.STEP_INFO, "Проверка shared_secret...");
      (Diagnose.STEP_WARNING,
       "shared_secret имеет неправильную длину после декодирования");
      (Diagnose.STEP_SUCCESS, "shared_secret корректен (длина: 0 байт)")])
  /\ forall now timestamp,
       SteamAuthenticator.generate_auth_code now " == " timestamp
       = SteamAuthenticator.generate_auth_code now EmptyString timestamp.
Proof.
  apply (check_shared_secret_accepts_text_without_data " == "). reflexivity.
Defined.

(** ** The history: what survives a restart, what the last change is *)

Section history_round_trip.
Import History RotationSpec.

(** X14. What [add_record] writes is what [PasswordHistory] reads back:
    a history rebuilt over the file left by a successful write holds
    exactly the records that were in memory, in the same order, and
    nothing is logged. *)
Theorem history_survives_restart (record : PasswordChangeRecord)
    (h : PasswordHistory) (max : Z) :
  let h' := snd (fst (add_record record WriteOk h)) in
  init (history_file h') max
  = ({| history_file := history_file h'; max_records := max;
        records := records h' |}, []).
Proof.
  intros h'. pose proof (add_record_persists record h) as Hfile.
  cbv zeta in Hfile. fold h' in Hfile. rewrite Hfile.
  generalize (records h') as rs. intros rs.
  assert (Ht : traverse from_dict (map to_dict rs) = Ok rs).
  { induction rs as [|r rs IH]; [reflexivity|].
    cbn [map traverse]. rewrite from_dict_to_dict.
    unfold mbind at 1, result_bind. unfold mbind at 1, result_bind.
    rewrite IH. reflexivity. }
  unfold init, load_history, try_except, mbind, M_bind, get, put, lift_result.
  cbn [history_file py_iter]. rewrite Ht. reflexivity.
Qed.

Lemma find_last (p : PasswordChangeRecord -> bool) (l : list PasswordChangeRecord) :
  match List.find p (rev l) with
  | Some r =>
      p r = true
      /\ exists before after,
           l = before ++ r :: after /\ Forall (fun x => p x = false) after
  | None => Forall (fun x => p x = false) l
  end.
Proof.
  induction l as [|x l IH] using rev_ind; [constructor|].
  rewrite rev_unit. cbn [List.find].
  destruct (p x) eqn:Hx.
  - split; [exact Hx|]. exists l, []. split; [reflexivity | constructor].
  - destruct (List.find p (rev l)) as [r|].
    + destruct IH as (Hr & before & after & -> & Hafter).
      split; [exact Hr|]. exists before, (after ++ [x]).
      split; [now rewrite <- app_assoc|].
      apply Forall_app. split; [exact Hafter | now constructor].
    + apply Forall_app. split; [exact IH | now constructor].
Qed.

(** X15. [get_last_change] returns the most recent successful record:
    a record with [success] set after which the history holds failures
    only; it returns nothing exactly when the history holds no success.
    Failures are never returned, however recent. *)
Theorem get_last_change_is_latest_success (h : PasswordHistory) :
  match get_last_change h with
  | Some r =>
      success r = true
      /\ exists before after,
           records h = before ++ r :: after
           /\ Forall (fun x => success x = false) after
  | None => Forall (fun x => success x = false) (records h)
  end.
Proof. unfold get_last_change. apply find_last. Qed.

(** X16. Retention under a bound of at least 1: after any non-empty
    sequence of [add_record] calls, whatever the writes do, the history
    holds the [max_records] most recent records of the old ones followed
    by the new ones, in append order, and never more than [max_records];
    no call raises. *)
Theorem retention_keeps_the_most_recent
    (items : list (PasswordChangeRecord * write_outcome))
    (h : PasswordHistory) :
  1 <= max_records h -> items <> [] ->
  exists h' tr,
    add_all items h = (Ok tt, h', tr)
    /\ max_records h' = max_records h
    /\ records h'
       = keep_last (Z.to_nat (max_records h)) (records h ++ map fst items)
    /\ Z.of_nat (length (records h')) <= max_records h.
Proof.
  intros Hmax Hitems.
  destruct (add_all_keep_last items h Hmax Hitems) as (h' & tr & Hrun & Hn & Hrs).
  exists h', tr. repeat split; try assumption.
  rewrite Hrs. pose proof (keep_last_length (Z.to_nat (max_records h))
                             (records h ++ map fst items)). lia.
Qed.

Lemma retention_keeps_the_most_recent_witness :
  exists h' tr,
    add_all [(Sample.record_a, WriteOk);
             (Sample.record_b, OpenFails (mkExn OSError "disk full"))]
      (Sample.empty_history 1)
    = (Ok tt, h', tr)
    /\ max_records h' = max_records (Sample.empty_history 1)
    /\ records h'
       = keep_last (Z.to_nat (max_records (Sample.empty_history 1)))
           (records (Sample.empty_history 1)
            ++ map fst [(Sample.record_a, WriteOk);
                        (Sample.record_b,
                         OpenFails (mkExn OSError "disk full"))])
    /\ Z.of_nat (length (records h')) <= max_records (Sample.empty_history 1).
Proof.
  apply (retention_keeps_the_most_recent
           [(Sample.record_a, WriteOk);
            (Sample.record_b, OpenFails (mkExn OSError "disk full"))]
           (Sample.empty_history 1)).
  - vm_compute. discriminate.
  - discriminate.
Defined.

(** X17. A write of the history that fails is logged and otherwise
    ignored: [add_record] returns normally with the record in memory.
    When [open] fails the file keeps its old content, so memory and file
    differ from then on; when the write fails after [open] has truncated
    the file, a history rebuilt from that file starts empty. *)
Theorem add_record_survives_a_failed_write (record : PasswordChangeRecord)
    (e : exn) (h : PasswordHistory) :
  let kept := retained (max_records h) (records h ++ [record]) in
  let logged :=
    Log RootLog ERROR ("Ошибка сохранения истории паролей: " +:+ exn_msg e) in
  add_record record (OpenFails e) h = (Ok tt, set_records kept h, [logged])
  /\ add_record record (DumpFails e) h
     = (Ok tt, set_history_file Garbled (set_records kept h), [logged])
  /\ forall max, records (fst (init Garbled max)) = [].
Proof.
  intros kept logged. subst kept logged.
  unfold add_record, save_history, retained. unfold_monad.
  cbn [records max_records history_file set_records write_file].
  destruct (Z.of_nat (length (records h ++ [record])) >? max_records h);
    cbn [records max_records history_file set_records set_history_file
         write_file app];
    (split; [destruct h; reflexivity|]); (split; [reflexivity|]);
    intros max; reflexivity.
Qed.

End history_round_trip.

(** ** The engine over several cycles *)

Section engine_cycles.
Import Config History SteamPasswordScheduler Cycle.

Lemma failed_attempt_record {lib : Library} (E : env) (s : scheduler) :
  attempt_failed E s = true ->
  exists r tr,
    change_password_job E s = (Ok tt, recorded E r s, tr)
    /\ success r = false
    /\ timestamp r = isoformat (now_record E)
    /\ error_message r = Some (recorded_error E s)
    /\ (is_ok (candidate E s) = false -> requests tr = []).
Proof.
  unfold attempt_failed, recorded_error. intros Hf.
  apply andb_true_iff in Hf as [Hopen Hf].
  apply negb_true_iff in Hopen.
  destruct (candidate E s) as [new_password|e] eqn:Hgen.
  - destruct (changer_total E new_password (config s)) as (b & tr_c & Hch).
    rewrite Hch in Hf. destruct b; [discriminate Hf|].
    destruct (change_password_job_refused E s new_password tr_c Hopen Hgen Hch)
      as (tr_add & Hjob & _).
    eexists _, _. split; [exact Hjob|]. repeat split. discriminate.
  - destruct (change_password_job_generator_raises E s e Hopen Hgen)
      as (tr & Hjob & Hreq & _).
    eexists _, _. split; [exact Hjob|]. repeat split. intros _. exact Hreq.
Qed.

Lemma succeeded_attempt_state {lib : Library} (E : env) (s : scheduler) :
  attempt_succeeded E s = true ->
  exists new_password tr,
    candidate E s = Ok new_password
    /\ change_password_job E s
       = (Ok tt,
          config_saved E
            (recorded E (outcome_record E s new_password true)
               (set_config (set_password new_password (config s)) s)),
          tr).
Proof.
  unfold attempt_succeeded. intros Hs.
  apply andb_true_iff in Hs as [Hopen Hs].
  apply negb_true_iff in Hopen.
  destruct (candidate E s) as [new_password|e] eqn:Hgen; [|discriminate Hs].
  destruct (changer_total E new_password (config s)) as (b & tr_c & Hch).
  rewrite Hch in Hs. destruct b; [|discriminate Hs].
  destruct (change_password_job_changed E s new_password tr_c Hopen Hgen Hch)
    as (tr_add & Hjob & _).
  eexists new_password, _. split; [reflexivity | exact Hjob].
Qed.

Lemma cycle_cases {lib : Library} (E : env) (s : scheduler) :
  breaker_open E s = true \/ attempt_failed E s = true
  \/ attempt_succeeded E s = true.
Proof.
  unfold attempt_failed, attempt_succeeded.
  destruct (breaker_open E s); [now left | right]. cbn [negb andb].
  destruct (candidate E s) as [new_password|e]; [|now left].
  destruct (changer_total E new_password (config s)) as (b & tr_c & ->).
  destruct b; [now right | now left].
Qed.

Lemma cycle_outcome {lib : Library}
    (E : env) (s : scheduler) :
  exists s' tr,
    change_password_job E s = (Ok tt, s', tr)
    /\ (s' = s
        \/ exists r,
             records (password_history s')
             = RotationSpec.retained (max_records (password_history s))
                 (records (password_history s) ++ [r])
             /\ max_records (password_history s')
                = max_records (password_history s)).
Proof.
  destruct (cycle_cases E s) as [Hopen | [Hfail | Hok]].
  - rewrite (change_password_job_skipped E s Hopen).
    eexists _, _. split; [reflexivity|]. now left.
  - destruct (failed_attempt_record E s Hfail) as (r & tr & Hjob & _).
    exists (recorded E r s), tr. split; [exact Hjob|]. right. exists r.
    split; reflexivity.
  - destruct (succeeded_attempt_state E s Hok) as (p & tr & Hgen & Hjob).
    eexists _, tr. split; [exact Hjob|]. right.
    exists (outcome_record E s p true). split; reflexivity.
Qed.

(** X18. One cycle of the engine never raises and ends in one of three
    ways: skipped with the scheduler untouched and no request sent; one
    failure record appended, configuration and configuration file
    untouched; or one success record appended and the generated password
    put in the configuration. No cycle adds more than one record. *)
Theorem change_password_job_ends_in_one_of_three_ways {lib : Library}
    (E : env) (s : scheduler) :
  exists s' tr,
    change_password_job E s = (Ok tt, s', tr)
    /\ ((s' = s /\ requests tr = [] /\ session_opened tr = false)
        \/ exists r,
             records (password_history s')
             = RotationSpec.retained (max_records (password_history s))
                 (records (password_history s) ++ [r])
             /\ max_records (password_history s')
                = max_records (password_history s)
             /\ if success r
                then candidate E s = Ok (password (account (config s')))
                else config s' = config s /\ config_file s' = config_file s).
Proof.
  destruct (cycle_cases E s) as [Hopen | [Hfail | Hok]].
  - rewrite (change_password_job_skipped E s Hopen).
    eexists _, _. split; [reflexivity|]. left. repeat split.
  - destruct (failed_attempt_record E s Hfail) as (r & tr & Hjob & Hr & _).
    exists (recorded E r s), tr. split; [exact Hjob|]. right. exists r.
    rewrite Hr. repeat split.
  - destruct (succeeded_attempt_state E s Hok) as (p & tr & Hgen & Hjob).
    eexists _, tr. split; [exact Hjob|]. right.
    exists (outcome_record E s p true). cbn [outcome_record success].
    repeat split. exact Hgen.
Qed.

Lemma get_failed_attempts_length_le {lib : Library} now hours h :
  (length (get_failed_attempts now hours h) <= length (records h))%nat.
Proof.
  rewrite get_failed_attempts_filter.
  generalize (records h) as l. intros l.
  induction l as [|x l IH]; cbn [List.filter length]; [lia|].
  destruct (RotationSpec.failed_since _ x); cbn [length]; lia.
Qed.

Lemma retained_length_le n (l : list PasswordChangeRecord) :
  1 <= n -> Z.of_nat (length (RotationSpec.retained n l)) <= n.
Proof.
  intros Hn. rewrite retained_keep_last by exact Hn.
  pose proof (keep_last_length (Z.to_nat n) l). lia.
Qed.

(** X19. With a history bound of 1 or 2 the breaker cannot open: a
    history within its bound never holds the three failures the check
    asks for, and a cycle keeps the history within its bound. The bound
    read from [max_password_history] must be at least 3 for the breaker
    to work. *)
Theorem breaker_needs_room_for_three_records {lib : Library} (E : env)
    (s : scheduler) :
  1 <= max_records (password_history s) <= 2 ->
  Z.of_nat (length (records (password_history s)))
  <= max_records (password_history s) ->
  breaker_open E s = false
  /\ forall s' tr,
       change_password_job E s = (Ok tt, s', tr) ->
       max_records (password_history s') = max_records (password_history s)
       /\ Z.of_nat (length (records (password_history s')))
          <= max_records (password_history s')
       /\ forall E', breaker_open E' s' = false.
Proof.
  assert (Hclosed : forall E0 s0,
            Z.of_nat (length (records (password_history s0))) <= 2 ->
            breaker_open E0 s0 = false).
  { intros E0 s0 Hlen. unfold breaker_open. apply Nat.leb_gt.
    pose proof (get_failed_attempts_length_le (now_check E0) 1
                  (password_history s0)). lia. }
  intros Hmax Hlen. split; [apply Hclosed; lia|].
  intros s' tr Hjob.
  destruct (cycle_outcome E s)
    as (s1 & tr1 & Hjob1 & Hcases).
  rewrite Hjob in Hjob1. injection Hjob1 as <- <-.
  destruct Hcases as [-> | (r & Hrs & Hn)].
  - repeat split; [exact Hlen|]. intros E'. apply Hclosed. lia.
  - rewrite Hn, Hrs.
    pose proof (retained_length_le (max_records (password_history s))
                  (records (password_history s) ++ [r]) ltac:(lia)) as Hle.
    repeat split; [exact Hle|]. intros E'. apply Hclosed. rewrite Hrs. lia.
Qed.

Lemma breaker_needs_room_for_three_records_witness :
  let E := Sample.world Sample.login_times_out WriteOk in
  let s := set_password_history (Sample.empty_history 2) Sample.scheduler0 in
  breaker_open (lib:=Sample.library) E s = false
  /\ forall s' tr,
       change_password_job (lib:=Sample.library) E s = (Ok tt, s', tr) ->
       max_records (password_history s') = max_records (password_history s)
       /\ Z.of_nat (length (records (password_history s')))
          <= max_records (password_history s')
       /\ forall E', breaker_open (lib:=Sample.library) E' s' = false.
Proof.
  apply (breaker_needs_room_for_three_records (lib:=Sample.library)
           (Sample.world Sample.login_times_out WriteOk)
           (set_password_history (Sample.empty_history 2) Sample.scheduler0)).
  - vm_compute. split; discriminate.
  - vm_compute. discriminate.
Defined.

Lemma keep_last_app_ge {A} (n : nat) (l1 l2 : list A) :
  (length l2 <= n)%nat ->
  RotationSpec.keep_last n (l1 ++ l2)
  = RotationSpec.keep_last (n - length l2) l1 ++ l2.
Proof.
  intros Hn. unfold RotationSpec.keep_last.
  rewrite drop_app, length_app.
  replace (length l1 + length l2 - n - length l1)%nat with 0%nat by lia.
  rewrite drop_0. f_equal. f_equal. lia.
Qed.

Lemma filter_app_length {A} (p : A -> bool) (l1 l2 : list A) :
  forallb p l2 = true ->
  (length l2 <= length (List.filter p (l1 ++ l2)))%nat.
Proof.
  intros Hp. rewrite List.filter_app, length_app.
  rewrite (forallb_filter_id p l2 Hp). lia.
Qed.

(** X20. Three failed cycles in a row open the breaker: with a history
    bound of at least 3 and timestamps that [fromisoformat] reads back,
    after three cycles that failed, a fourth cycle whose clock is less
    than an hour past each of them is skipped, without any request. *)
Theorem three_failed_cycles_open_the_breaker {lib : Library}
    (E1 E2 E3 E4 : env) (s : scheduler) :
  let s1 := snd (fst (change_password_job E1 s)) in
  let s2 := snd (fst (change_password_job E2 s1)) in
  let s3 := snd (fst (change_password_job E3 s2)) in
  3 <= max_records (password_history s) ->
  attempt_failed E1 s = true ->
  attempt_failed E2 s1 = true ->
  attempt_failed E3 s2 = true ->
  (forall E, In E [E1; E2; E3] ->
     fromisoformat (isoformat (now_record E)) = Some (now_record E)
     /\ now_check E4 - 3600000000 < now_record E) ->
  breaker_open E4 s3 = true
  /\ exists tr,
       change_password_job E4 s3 = (Ok tt, s3, tr)
       /\ requests tr = [] /\ session_opened tr = false.
Proof.
  intros s1 s2 s3 Hmax H1 H2 H3 Htimes.
  destruct (failed_attempt_record E1 s H1) as (r1 & tr1 & J1 & F1 & T1 & _).
  assert (Hs1 : s1 = recorded E1 r1 s) by (subst s1; now rewrite J1).
  destruct (failed_attempt_record E2 s1 H2) as (r2 & tr2 & J2 & F2 & T2 & _).
  assert (Hs2 : s2 = recorded E2 r2 s1) by (subst s2; now rewrite J2).
  destruct (failed_attempt_record E3 s2 H3) as (r3 & tr3 & J3 & F3 & T3 & _).
  assert (Hs3 : s3 = recorded E3 r3 s2) by (subst s3; now rewrite J3).
  clearbody s1 s2 s3.
  assert (Hrecords :
    records (password_history s3)
    = RotationSpec.keep_last (Z.to_nat (max_records (password_history s)) - 3)
        (records (password_history s)) ++ [r1; r2; r3]).
  { subst s3 s2 s1.
    cbn [recorded password_history set_password_history records max_records
         set_history_file set_records].
    rewrite !retained_keep_last by lia.
    rewrite keep_last_app, <- app_assoc, keep_last_app, <- !app_assoc.
    cbn [app].
    apply (keep_last_app_ge _ _ [r1; r2; r3]). cbn [length]. lia. }
  assert (Hopen : breaker_open E4 s3 = true).
  { unfold breaker_open. rewrite get_failed_attempts_filter, Hrecords.
    apply Nat.leb_le.
    apply (filter_app_length _ _ [r1; r2; r3]).
    cbn [forallb]. unfold RotationSpec.failed_since.
    rewrite F1, F2, F3, T1, T2, T3.
    destruct (Htimes E1 ltac:(now left)) as [-> ?].
    destruct (Htimes E2 ltac:(right; now left)) as [-> ?].
    destruct (Htimes E3 ltac:(right; right; now left)) as [-> ?].
    cbn [negb andb].
    repeat match goal with
           | |- context [?a <? ?b] =>
               destruct (Z.ltb_spec a b); [|lia]
           end.
    reflexivity. }
  split; [exact Hopen|].
  rewrite (change_password_job_skipped E4 s3 Hopen).
  eexists. repeat split.
Qed.

Lemma three_failed_cycles_open_the_breaker_witness :
  let E := Sample.world Sample.login_times_out WriteOk in
  let s1 := snd (fst (change_password_job (lib:=Sample.library) E
                        Sample.scheduler0)) in
  let s2 := snd (fst (change_password_job (lib:=Sample.library) E s1)) in
  let s3 := snd (fst (change_password_job (lib:=Sample.library) E s2)) in
  breaker_open (lib:=Sample.library) E s3 = true
  /\ exists tr,
       change_password_job (lib:=Sample.library) E s3 = (Ok tt, s3, tr)
       /\ requests tr = [] /\ session_opened tr = false.
Proof.
  apply (three_failed_cycles_open_the_breaker (lib:=Sample.library)
           (Sample.world Sample.login_times_out WriteOk)
           (Sample.world Sample.login_times_out WriteOk)
           (Sample.world Sample.login_times_out WriteOk)
           (Sample.world Sample.login_times_out WriteOk)
           Sample.scheduler0).
  - vm_compute. discriminate.
  - vm_compute. reflexivity.
  - vm_compute. reflexivity.
  - vm_compute. reflexivity.
  - intros E [<-|[<-|[<-|[]]]]; vm_compute; split; reflexivity.
Defined.



End engine_cycles.

(** ** The command line: what it reports, what it accepts *)

Section command_line.
Import Config History SteamPasswordScheduler Cycle.

Lemma verdict_of_cases (h : PasswordHistory) :
  SteamPasswordManager.verdict_of h
  = if existsb success (records h) then SteamPasswordManager.Changed
    else SteamPasswordManager.Unknown.
Proof.
  unfold SteamPasswordManager.verdict_of, get_last_change.
  destruct (existsb success (records h)) eqn:Hany.
  - apply existsb_exists in Hany as (r & Hin & Hr).
    destruct (List.find success (rev (records h))) as [r'|] eqn:Hfind.
    + apply find_some in Hfind as [_ ->]. reflexivity.
    + exfalso. apply in_rev in Hin.
      pose proof (find_none _ _ Hfind r Hin) as Hnone. congruence.
  - destruct (List.find success (rev (records h))) as [r'|] eqn:Hfind;
      [|reflexivity].
    apply find_some in Hfind as [Hin Hr]. exfalso.
    apply in_rev in Hin.
    assert (existsb success (records h) = true)
      by (apply existsb_exists; eauto).
    congruence.
Qed.

(** X22. What [main.force_password_change] prints depends only on
    whether the history holds a successful record: the success line when
    it holds one, however old, and the "no information" line otherwise.
    The failure line and its details are never printed, because
    [get_last_change] returns successful records only. *)
Theorem forced_change_never_reports_failure (h : PasswordHistory) :
  SteamPasswordManager.verdict_of h
  = (if existsb success (records h) then SteamPasswordManager.Changed
     else SteamPasswordManager.Unknown)
  /\ forall details,
       SteamPasswordManager.verdict_of h <> SteamPasswordManager.Failed details.
Proof.
  split; [apply verdict_of_cases|].
  intros details. rewrite verdict_of_cases.
  destruct (existsb success (records h)); discriminate.
Qed.



(** X24. [create_initial_config] accepts any integer as password length;
    with a length below 4 every cycle of a scheduler built from that
    configuration, unless skipped by the breaker, fails inside the
    generator: a failure record with the generator's message is added
    and no request is sent. *)
Theorem initial_config_accepts_a_length_the_generator_refuses
    {lib : Library}
    (steam_login steam_password shared_secret identity_secret device_id
     steamid_answer interval_answer length_answer : string)
    (steamid interval_hours password_length : Z) :
  py_int steamid_answer = Ok steamid ->
  interval_answer <> EmptyString -> length_answer <> EmptyString ->
  py_int interval_answer = Ok interval_hours ->
  py_int length_answer = Ok password_length ->
  password_length < 4 ->
  exists cfg,
    SteamPasswordManager.initial_config steam_login steam_password
      shared_secret identity_secret device_id steamid_answer interval_answer
      length_answer = Ok cfg
    /\ Config.password_length (change cfg) = Some password_length
    /\ forall E history,
         let s := fst (create cfg history) in
         breaker_open E s = false ->
         exists r tr,
           change_password_job E s = (Ok tt, recorded E r s, tr)
           /\ success r = false
           /\ error_message r
              = Some "Длина пароля должна быть не менее 4 символов"
           /\ requests tr = [].
Proof.
  intros Hid Hi Hl Hinterval Hlength Hshort.
  unfold SteamPasswordManager.initial_config,
    SteamPasswordManager.steamid_setting, SteamPasswordManager.change_settings.
  rewrite Hid.
  destruct (String.eqb_spec interval_answer EmptyString) as [|_]; [congruence|].
  destruct (String.eqb_spec length_answer EmptyString) as [|_]; [congruence|].
  rewrite Hinterval, Hlength. cbn [mbind result_bind fst snd].
  eexists. split; [reflexivity|]. split; [reflexivity|].
  intros E history Hclosed.
  match goal with |- context [change_password_job E ?s0] =>
    set (s := s0) in *
  end.
  assert (Hgen : candidate E s
                 = Raise (mkExn ValueError
                            "Длина пароля должна быть не менее 4 символов")).
  { subst s. unfold candidate, create.
    destruct (init history _) as [h trh].
    cbn [fst config change Config.password_length default].
    unfold PasswordGenerator.generate_password, id.
    destruct (Z.ltb_spec password_length 4); [reflexivity | lia]. }
  destruct (change_password_job_generator_raises E s _ Hclosed Hgen)
    as (tr & Hjob & Hreq & _).
  eexists _, tr. split; [exact Hjob|]. repeat split. exact Hreq.
Qed.

Lemma initial_config_accepts_a_length_the_generator_refuses_witness :
  exists cfg,
    SteamPasswordManager.initial_config (lib:=Sample.library)
      "rotator" "OldSecret#2023" "MTIzNDU2Nzg5MDEyMzQ1Njc4OTA="
      "aWRlbnRpdHk=" "android:0001" "76561198000000000" "12" "3" = Ok cfg
    /\ Config.password_length (change cfg) = Some 3
    /\ forall E history,
         let s := fst (create cfg history) in
         breaker_open (lib:=Sample.library) E s = false ->
         exists r tr,
           change_password_job (lib:=Sample.library) E s
           = (Ok tt, recorded E r s, tr)
           /\ success r = false
           /\ error_message r
              = Some "Длина пароля должна быть не менее 4 символов"
           /\ requests tr = [].
Proof.
  apply (initial_config_accepts_a_length_the_generator_refuses
           (lib:=Sample.library)
           "rotator" "OldSecret#2023" "MTIzNDU2Nzg5MDEyMzQ1Njc4OTA="
           "aWRlbnRpdHk=" "android:0001" "76561198000000000" "12" "3"
           76561198000000000 12 3);
    first [reflexivity | discriminate | lia].
Defined.

(** X25. One [try] covers both numbers of [create_initial_config]: when
    the password length typed is not a number, the interval falls back to
    24 hours together with the length, also when the interval typed was a
    valid number. *)
Theorem invalid_length_discards_the_interval {lib : Library}
    (interval_answer length_answer : string) (interval_hours : Z) (e : exn) :
  interval_answer <> EmptyString -> length_answer <> EmptyString ->
  py_int interval_answer = Ok interval_hours ->
  py_int length_answer = Raise e -> exn_cls e = ValueError ->
  SteamPasswordManager.change_settings interval_answer length_answer
  = Ok (24, 16).
Proof.
  intros Hi Hl Hinterval Hlength Hcls.
  unfold SteamPasswordManager.change_settings.
  destruct (String.eqb_spec interval_answer EmptyString) as [|_]; [congruence|].
  destruct (String.eqb_spec length_answer EmptyString) as [|_]; [congruence|].
  rewrite Hinterval, Hlength. cbn [mbind result_bind]. now rewrite Hcls.
Qed.

Lemma invalid_length_discards_the_interval_witness :
  SteamPasswordManager.change_settings (lib:=Sample.library) "12" "sixteen"
  = Ok (24, 16).
Proof.
  apply (invalid_length_discards_the_interval (lib:=Sample.library)
           "12" "sixteen" 12
           (mkExn ValueError
              "invalid literal for int() with base 10: 'sixteen'"));
    first [reflexivity | discriminate].
Defined.

End command_line.

(** ** The web client *)

Section client_properties.
Import Config.

Local Ltac split_cases :=
  repeat match goal with
         | |- context [match ?x with _ => _ end] =>
             lazymatch x with
             | context [match _ with _ => _ end] => fail
             | _ => destruct x eqn:?
             end
         end.

Local Ltac close_run :=
  eexists _, _; split; [reflexivity|];
  cbn; rewrite ?String.eqb_refl;
  repeat split; first [reflexivity | assumption].

Lemma login_run {lib : Library} (E : env)
    (username password auth_code : string) (c0 : SteamWebClient.client) :
  SteamWebClient.session c0 = true ->
  exists c tr,
    SteamWebClient.login E username password auth_code c0
    = (Ok (ClientSpec.login_accepted E username password auth_code), c, tr)
    /\ forallb (ClientSpec.login_request E username password auth_code)
         (requests tr) = true
    /\ forallb ClientSpec.client_event tr = true
    /\ SteamWebClient.session c = true.
Proof.
  intros Hsession.
  unfold SteamWebClient.login, SteamWebClient._get_rsa_key,
    SteamWebClient._encrypt_password, SteamWebClient._extract_session_data,
    ClientSpec.login_accepted, ClientSpec.login_request,
    ClientSpec.encrypted_password.
  unfold_monad. rewrite Hsession. cbn [negb].
  destruct (getrsakey (remote E) username) as [key|e] eqn:Hkey;
    [|cbn; close_run].
  destruct (rsa_success key) eqn:Hsuccess; [|cbn; close_run].
  cbn [andb snd].
  destruct (rsa_encrypt E password (publickey_mod key) (publickey_exp key))
    as [encrypted|e] eqn:Hencrypt; cbn [snd].
  - destruct (dologin (remote E) username encrypted auth_code (rsa_timestamp key))
      as [reply|e] eqn:Hlogin; [|cbn; close_run].
    destruct (login_success reply), (login_complete reply);
      cbn [andb]; try (cbn; close_run).
    destruct (transfer_urls reply) as [[|url urls]|]; try (cbn; close_run).
    destruct (transfer (remote E) url) as [cookies|e]; [|cbn; close_run].
    cbn [fst snd].
    split_cases; cbn; close_run.
  - destruct (dologin (remote E) username EmptyString auth_code (rsa_timestamp key))
      as [reply|e'] eqn:Hlogin; [|cbn; close_run].
    destruct (login_success reply), (login_complete reply);
      cbn [andb]; try (cbn; close_run).
    destruct (transfer_urls reply) as [[|url urls]|]; try (cbn; close_run).
    destruct (transfer (remote E) url) as [cookies|e']; [|cbn; close_run].
    cbn [fst snd].
    split_cases; cbn; close_run.
Qed.


(** X27. When the encryption of the password fails, [login] logs the
    error and goes on: the login request is sent with an empty password. *)
Theorem encryption_failure_sends_an_empty_password {lib : Library} (E : env)
    (username password auth_code : string) (key : rsa_reply) (e : exn) :
  getrsakey (remote E) username = Ok key ->
  rsa_success key = true ->
  rsa_encrypt E password (publickey_mod key) (publickey_exp key) = Raise e ->
  exists b c tr,
    SteamWebClient.login E username password auth_code SteamWebClient.entered
    = (Ok b, c, tr)
    /\ In (Log ClientLog ERROR ("Ошибка шифрования пароля: " +:+ exn_msg e)) tr
    /\ In (Request (DoLogin username EmptyString auth_code (rsa_timestamp key)))
         tr.
Proof.
  intros Hkey Hsuccess Hencrypt.
  unfold SteamWebClient.login, SteamWebClient._get_rsa_key,
    SteamWebClient._encrypt_password, SteamWebClient._extract_session_data.
  unfold_monad. cbn [SteamWebClient.session SteamWebClient.entered negb].
  rewrite Hkey, Hsuccess, Hencrypt. cbn [snd].
  split_cases; eexists _, _, _; (split; [reflexivity|]);
    split; cbn; tauto.
Qed.

Lemma encryption_failure_sends_an_empty_password_witness :
  let E :=
    {| now_check := 1704110400000000; now_record := 1704110402000000;
       unix_time := 1704110400; drawn_password := "Xk9#mQ2$vB7!nR4@";
       history_write := WriteOk; config_write := WriteOk;
       rsa_encrypt := fun _ _ _ => Raise (mkExn ValueError "invalid modulus");
       remote := Sample.accepting |} in
  exists b c tr,
    SteamWebClient.login (lib:=Sample.library) E "rotator" "OldSecret#2023"
      "434921" SteamWebClient.entered
    = (Ok b, c, tr)
    /\ In (Log ClientLog ERROR
             ("Ошибка шифрования пароля: "
              +:+ exn_msg (mkExn ValueError "invalid modulus"))) tr
    /\ In (Request (DoLogin "rotator" EmptyString "434921"
                      (rsa_timestamp
                         {| rsa_success := true; publickey_mod := "c0ffee";
                            publickey_exp := "010001";
                            rsa_timestamp := "424242" |}))) tr.
Proof.
  apply (encryption_failure_sends_an_empty_password (lib:=Sample.library)
           {| now_check := 1704110400000000; now_record := 1704110402000000;
              unix_time := 1704110400; drawn_password := "Xk9#mQ2$vB7!nR4@";
              history_write := WriteOk; config_write := WriteOk;
              rsa_encrypt :=
                fun _ _ _ => Raise (mkExn ValueError "invalid modulus");
              remote := Sample.accepting |}
           "rotator" "OldSecret#2023" "434921"
           {| rsa_success := true; publickey_mod := "c0ffee";
              publickey_exp := "010001"; rsa_timestamp := "424242" |}
           (mkExn ValueError "invalid modulus")); reflexivity.
Defined.

Lemma client_change_password_run {lib : Library} (E : env)
    (current_password new_password : string) (c : SteamWebClient.client) :
  let sessionid := default EmptyString (SteamWebClient.session_id c) in
  let accepted :=
    SteamWebClient.session c && truthy_str (SteamWebClient.session_id c)
    && ClientSpec.change_accepted E sessionid current_password new_password in
  exists tr,
    SteamWebClient.change_password E current_password new_password c
    = (Ok accepted, c, tr)
    /\ forallb
         (ClientSpec.change_request sessionid current_password new_password)
         (requests tr) = true
    /\ (accepted = true -> existsb ClientSpec.is_submit (requests tr) = true)
    /\ forallb ClientSpec.client_event tr = true.
Proof.
  intros sessionid accepted. subst sessionid accepted.
  unfold SteamWebClient.change_password, ClientSpec.change_accepted,
    ClientSpec.change_request.
  unfold_monad.
  destruct (SteamWebClient.session c); cbn [negb orb andb];
    [|eexists; repeat split; first [reflexivity | discriminate]].
  destruct (truthy_str (SteamWebClient.session_id c)); cbn [negb orb andb];
    [|eexists; repeat split; first [reflexivity | discriminate]].
  destruct (change_page (remote E)) as [page|e];
    [|eexists; repeat split; first [reflexivity | discriminate]].
  destruct (page_status page =? 200); cbn [negb andb];
    [|eexists; repeat split; first [reflexivity | discriminate]].
  destruct (page_text page) as [page_content|e];
    [|eexists; repeat split; first [reflexivity | discriminate]].
  cbn [fst snd].
  destruct (truthy_str (SteamWebClient._extract_csrf_token page_content));
    cbn [negb andb];
    [|eexists; repeat split; first [reflexivity | discriminate]].
  split_cases; eexists; (split; [reflexivity|]); cbn;
    rewrite ?String.eqb_refl; repeat split;
    first [reflexivity | discriminate].
Qed.

(** X28. [SteamWebClient.change_password] answers from the replies
    alone: it never raises, leaves the client as it was, and returns
    [True] exactly when the client holds a session identifier, the page
    comes with status 200 and a token, and the submit is answered 200
    with success. It sends nothing but the page request and one submit
    for that session with the two passwords given, and it does not
    return [True] without having sent the submit. *)
Theorem change_password_answers_from_the_replies {lib : Library} (E : env)
    (current_password new_password : string) (c : SteamWebClient.client) :
  let sessionid := default EmptyString (SteamWebClient.session_id c) in
  let accepted :=
    SteamWebClient.session c && truthy_str (SteamWebClient.session_id c)
    && ClientSpec.change_accepted E sessionid current_password new_password in
  exists tr,
    SteamWebClient.change_password E current_password new_password c
    = (Ok accepted, c, tr)
    /\ forallb
         (ClientSpec.change_request sessionid current_password new_password)
         (requests tr) = true
    /\ (accepted = true -> existsb ClientSpec.is_submit (requests tr) = true).
Proof.
  intros sessionid accepted.
  destruct (client_change_password_run E current_password new_password c)
    as (tr & Hrun & Hreq & Hsubmit & _).
  exists tr. auto.
Qed.

(** X29. [SteamPasswordChanger.change_password] never raises. The
    session it opens is closed again on every path, and every request
    lies between the opening and the closing; after the closing only log
    lines follow. The configuration is left as it was unless the answer
    is [True]; then only the password is replaced, and a submit request
    was sent. *)
Theorem changer_brackets_every_request {lib : Library} (E : env)
    (new_password : string) (cfg : config) :
  exists (b : bool) mid post,
    SteamPasswordChanger.change_password E new_password cfg
    = (Ok b, if b then set_password new_password cfg else cfg,
       SessionOpened :: mid ++ SessionClosed :: post)
    /\ forallb ClientSpec.client_event mid = true
    /\ forallb ClientSpec.is_log post = true
    /\ (b = true -> existsb ClientSpec.is_submit (requests mid) = true).
Proof.
  rewrite changer_run. unfold Cycle.changer_outcome.
  destruct (SteamAuthenticator.generate_auth_code _ _ _) as [auth_code|e].
  2:{ exists false, [], [Log ClientLog ERROR
                          ("Исключение при смене пароля: " +:+ exn_msg e)].
      repeat split. discriminate. }
  destruct (login_run E (login (account cfg)) (password (account cfg))
              auth_code SteamWebClient.entered eq_refl)
    as (c & tr & -> & _ & Htr & _).
  destruct (ClientSpec.login_accepted E _ _ _).
  2:{ exists false, (tr ++ [Log ClientLog ERROR
                              "Не удалось авторизоваться в Steam"]), [].
      split; [cbn; now rewrite <- app_assoc|].
      rewrite forallb_app, Htr. repeat split. discriminate. }
  destruct (client_change_password_run E (password (account cfg))
              new_password c) as (tr2 & Hrun & _ & Hsubmit & Htr2).
  cbv zeta in Hrun, Hsubmit. rewrite Hrun.
  match type of Hrun with _ = (Ok ?a, _, _) => destruct a end.
  - exists true, (tr ++ tr2 ++ [Log ClientLog INFO "Пароль успешно изменен"]), [].
    split; [cbn; now rewrite <- !app_assoc|].
    rewrite !forallb_app, Htr, Htr2. repeat split. intros _.
    rewrite requests_app, existsb_app, requests_app, existsb_app.
    rewrite (Hsubmit eq_refl). now rewrite orb_true_r.
  - exists false, (tr ++ tr2 ++ [Log ClientLog ERROR "Не удалось изменить пароль"]), [].
    split; [cbn; now rewrite <- !app_assoc|].
    rewrite !forallb_app, Htr, Htr2. repeat split. discriminate.
Qed.

(** X30. A shared secret that does not decode stops the change before
    any request: the changer opens and closes its session, logs the
    [ValueError] of the code generator and answers [False], with the
    configuration untouched. *)
Theorem undecodable_secret_stops_before_any_request {lib : Library}
    (E : env) (new_password : string) (cfg : config) (e : exn) :
  Base64.b64decode (shared_secret (account cfg)) = Raise e ->
  SteamPasswordChanger.change_password E new_password cfg
  = (Ok false, cfg,
     [SessionOpened; SessionClosed;
      Log ClientLog ERROR
        ("Исключение при смене пароля: "
         +:+ ("Неверный формат shared_secret: " +:+ exn_msg e))])
  /\ requests (snd (SteamPasswordChanger.change_password E new_password cfg))
     = [].
Proof.
  intros Hsecret. rewrite changer_run. unfold Cycle.changer_outcome.
  change (SteamAuthenticator.generate_auth_code (unix_time E)
            (shared_secret (account cfg)) None)
    with (SteamAuthenticator.generate_auth_code (unix_time E)
            (shared_secret (account cfg)) (Some (unix_time E))).
  rewrite (generate_auth_code_undecodable _ _ e _ Hsecret).
  split; reflexivity.
Qed.

Lemma undecodable_secret_stops_before_any_request_witness :
  let cfg :=
    {| account :=
         {| login := "rotator"; password := "OldSecret#2023";
            shared_secret := "abc"; identity_secret := "aWRlbnRpdHk=";
            device_id := "android:0001"; steamid := 76561198000000000 |};
       change := change Sample.config0; sec := sec Sample.config0;
       notif := notif Sample.config0 |} in
  let E := Sample.world Sample.accepting WriteOk in
  SteamPasswordChanger.change_password (lib:=Sample.library) E
    "Xk9#mQ2$vB7!nR4@" cfg
  = (Ok false, cfg,
     [SessionOpened; SessionClosed;
      Log ClientLog ERROR
        ("Исключение при смене пароля: "
         +:+ ("Неверный формат shared_secret: "
              +:+ exn_msg (mkExn BinasciiError "Incorrect padding")))])
  /\ requests (snd (SteamPasswordChanger.change_password (lib:=Sample.library)
                      E "Xk9#mQ2$vB7!nR4@" cfg))
     = [].
Proof.
  apply (undecodable_secret_stops_before_any_request (lib:=Sample.library)
           (Sample.world Sample.accepting WriteOk) "Xk9#mQ2$vB7!nR4@"
           {| account :=
                {| login := "rotator"; password := "OldSecret#2023";
                   shared_secret := "abc"; identity_secret := "aWRlbnRpdHk=";
                   device_id := "android:0001";
                   steamid := 76561198000000000 |};
              change := change Sample.config0; sec := sec Sample.config0;
              notif := notif Sample.config0 |}
           (mkExn BinasciiError "Incorrect padding")).
  vm_compute. reflexivity.
Defined.

End client_properties.
